(** * Audio-visualizer-3d backend: analysis caching and data shaping

    A shallow embedding of the Python backend (package [app]) and the
    properties of its analysis pipeline:

    - [app/dependencies.py], [app/routers/spotify.py]: identifier and token
      validation, the transformer [process_analysis] and the request handler
      [get_analysis];
    - [app/models/schemas.py]: the response models and their field
      constraints;
    - [app/services/spotify_service.py], [app/exceptions.py]: the upstream
      client [_make_request] and the exception classes;
    - [app/db/mongodb.py]: the cache operations.

    Conventions.  A Python [str] is a [string] whose characters are read as
    the code points 0..255; code points above 255 are outside the model.  A
    JSON number is [VInt] or [VFloat]; a finite float is written as the
    rational it denotes, so a comparison between numbers is the exact
    comparison Python performs; NaN and the infinities are outside the
    model.  A Python exception is a value of [exn], and a function that may
    raise returns a [result].  Calls to [logger] are left out, except where
    building the message can itself raise. *)

From Stdlib Require Import ZArith QArith Bool List String Ascii Lia Lqa.
From stdpp Require Import gmap strings.

Import ListNotations.
Local Open Scope string_scope.
Local Open Scope Z_scope.
#[local] Set Warnings "-register-all".

(** ** Python values and exceptions *)

(** The values [json.loads] and the database driver hand to the code.  A
    [dict] is kept as an association list with its keys in insertion order,
    read by first match. *)
Inductive value : Type :=
| VNone
| VBool (b : bool)
| VInt (z : Z)
| VFloat (q : Q)
| VStr (s : string)
| VList (l : list value)
| VDict (d : list (string * value)).

(** The exception classes of [app/exceptions.py] and the built-in or
    library exceptions the modelled code can meet. *)
Inductive exn : Type :=
| SpotifyAPIError (detail : string)
| SpotifyAuthError (detail : string)
| RateLimitError (retry_after : Z)
| InvalidTokenError
| InvalidTrackError
| NotFoundError (resource : string)
| RequestValidationError
| KeyError (key : string)
| AttributeError
| TypeError
| ValueError (msg : string)
| ValidationError
| RuntimeError (msg : string)
| JSONDecodeError
| DriverError (name : string).

Inductive result (A : Type) : Type :=
| Ok (a : A)
| Raise (e : exn).
Arguments Ok {A} a.
Arguments Raise {A} e.

Definition bind {A B : Type} (c : result A) (k : A -> result B) : result B :=
  match c with
  | Ok a => k a
  | Raise e => Raise e
  end.

Notation "'let*' x ':=' c 'in' k" := (bind c (fun x => k))
  (at level 10, x name, c at level 100, k at level 200).

Definition of_option {A : Type} (e : exn) (o : option A) : result A :=
  match o with
  | Some a => Ok a
  | None => Raise e
  end.

(** [SpotifyAPIError()] and the other defaults of [app/exceptions.py]. *)
Definition SpotifyAPIError_default : exn :=
  SpotifyAPIError "Spotify service temporarily unavailable".

(** The HTTP status a raised exception reaches the client with: the
    [status_code] each [HTTPException] subclass passes to its parent, 422
    for a request that fails parameter validation, and 500 from
    [generic_error_handler] of [app/main.py] for everything else. *)
Definition status_code (e : exn) : Z :=
  match e with
  | SpotifyAPIError _ => 502
  | SpotifyAuthError _ => 401
  | RateLimitError _ => 429
  | InvalidTokenError => 401
  | InvalidTrackError => 400
  | NotFoundError _ => 404
  | RequestValidationError => 422
  | _ => 500
  end.

(** The [detail] string of the response body. *)
Definition detail_of (e : exn) : string :=
  match e with
  | SpotifyAPIError d => d
  | SpotifyAuthError d => d
  | RateLimitError _ => "Rate limit exceeded. Please slow down."
  | InvalidTokenError => "Invalid or expired token"
  | InvalidTrackError => "Invalid track ID format"
  | NotFoundError r => r ++ " not found"
  | _ => "An unexpected error occurred"
  end.

(** ** Strings: [str.strip] and the two regular expressions *)

Definition code (c : ascii) : N := N_of_ascii c.

(** [str.isspace] on the code points below 256. *)
Definition is_space (c : ascii) : bool :=
  let n := code c in
  (((9 <=? n) && (n <=? 13)) || ((28 <=? n) && (n <=? 32))
   || (n =? 133) || (n =? 160))%N.

Fixpoint lstrip (s : string) : string :=
  match s with
  | EmptyString => EmptyString
  | String c s' => if is_space c then lstrip s' else s
  end.

Fixpoint rstrip (s : string) : string :=
  match s with
  | EmptyString => EmptyString
  | String c s' =>
      match rstrip s' with
      | EmptyString => if is_space c then EmptyString else String c EmptyString
      | r => String c r
      end
  end.

Definition strip (s : string) : string := rstrip (lstrip s).

(** The character class [[A-Za-z0-9]]. *)
Definition is_base62 (c : ascii) : bool :=
  let n := code c in
  (((48 <=? n) && (n <=? 57)) || ((65 <=? n) && (n <=? 90))
   || ((97 <=? n) && (n <=? 122)))%N.

(** The character class [[A-Za-z0-9_\-]]. *)
Definition is_urlsafe (c : ascii) : bool :=
  let n := code c in
  (is_base62 c || (n =? 95) || (n =? 45))%N.

Definition newline : string := String (ascii_of_N 10) EmptyString.

(** [$] without [re.MULTILINE]: the end of the string, or the position just
    before a newline that is the last character. *)
Definition at_dollar (rest : string) : bool :=
  match rest with
  | EmptyString => true
  | String c EmptyString => (code c =? 10)%N
  | _ => false
  end.

(** [n] repetitions of a class at the head of [s]; the unread rest. *)
Fixpoint match_class_n (cls : ascii -> bool) (n : nat) (s : string)
  : option string :=
  match n with
  | O => Some s
  | S n' =>
      match s with
      | EmptyString => None
      | String c s' => if cls c then match_class_n cls n' s' else None
      end
  end.

(** The greedy [+] over a class followed by [$].  The newline is not in the
    class, so the repetition stops exactly where [$] is tried. *)
Fixpoint skip_class (cls : ascii -> bool) (s : string) : string :=
  match s with
  | EmptyString => EmptyString
  | String c s' => if cls c then skip_class cls s' else s
  end.

(** [re.match(r'^[A-Za-z0-9]{22}$', s)] as a truth value. *)
Definition re_match_track_id (s : string) : bool :=
  match match_class_n is_base62 22 s with
  | Some rest => at_dollar rest
  | None => false
  end.

(** [re.match(r'^[A-Za-z0-9_\-]+$', s)] as a truth value. *)
Definition re_match_token (s : string) : bool :=
  match s with
  | EmptyString => false
  | String c s' => is_urlsafe c && at_dollar (skip_class is_urlsafe s')
  end.

(** ** Validator ([app/dependencies.py], [app/routers/spotify.py]) *)

(** [validate_track_id] of [app/dependencies.py].  The argument is any
    value: the function itself tests [isinstance(track_id, str)]. *)
Definition validate_track_id (track_id : value) : result string :=
  match track_id with
  | VStr s =>
      if String.eqb s "" then Raise (ValueError "Track ID required")
      else
        let track_id := strip s in
        if negb (re_match_track_id track_id)
        then Raise (ValueError "Invalid track ID format")
        else Ok track_id
  | _ => Raise (ValueError "Track ID required")
  end.

(** [validate_track_id_param] of [app/routers/spotify.py]. *)
Definition validate_track_id_param (track_id : string) : result string :=
  let track_id := strip track_id in
  if negb (re_match_track_id track_id) then Raise InvalidTrackError
  else Ok track_id.

(** [validate_spotify_token_format]; the argument is a [str] at its only
    call site. *)
Definition validate_spotify_token_format (token : string) : bool :=
  if String.eqb token "" then false
  else if (String.length token <? 50)%nat || (500 <? String.length token)%nat
  then false
  else if negb (re_match_token token) then false
  else true.

(** [authorization.startswith("Bearer ")] and [authorization[7:]]. *)
Definition startswith (p s : string) : bool := String.prefix p s.

Fixpoint drop_chars (n : nat) (s : string) : string :=
  match n, s with
  | O, _ => s
  | S n', String _ s' => drop_chars n' s'
  | S _, EmptyString => EmptyString
  end.

(** [get_spotify_token]: the bearer token of the [Authorization] header. *)
Definition get_spotify_token (authorization : option string) : result string :=
  match authorization with
  | None => Raise InvalidTokenError
  | Some a =>
      if String.eqb a "" then Raise InvalidTokenError
      else if negb (startswith "Bearer " a) then Raise InvalidTokenError
      else
        let token := drop_chars 7 a in
        if negb (validate_spotify_token_format token)
        then Raise InvalidTokenError
        else Ok token
  end.

(** The language of [^[A-Za-z0-9]{22}$] as a set of strings: exactly
    twenty-two characters, each of the base62 alphabet. *)
Definition is_track_identifier (s : string) : bool :=
  (String.length s =? 22)%nat && forallb is_base62 (list_ascii_of_string s).

(** ** Python operations on values *)

(** Truth value of an object, as [if x:] and [not x] test it. *)
Definition truthy (v : value) : bool :=
  match v with
  | VNone => false
  | VBool b => b
  | VInt z => negb (z =? 0)
  | VFloat q => negb (Qeq_bool q 0)
  | VStr s => negb (String.eqb s "")
  | VList l => match l with [] => false | _ => true end
  | VDict d => match d with [] => false | _ => true end
  end.

Fixpoint assoc (k : string) (d : list (string * value)) : option value :=
  match d with
  | [] => None
  | (k', v) :: d' => if String.eqb k k' then Some v else assoc k d'
  end.

(** [o.get(k, dflt)]: only a [dict] has the method. *)
Definition py_get (o : value) (k : string) (dflt : value) : result value :=
  match o with
  | VDict d => Ok (match assoc k d with Some v => v | None => dflt end)
  | _ => Raise AttributeError
  end.

(** [o[k]] with a string key. *)
Definition py_getitem (o : value) (k : string) : result value :=
  match o with
  | VDict d => of_option (KeyError k) (assoc k d)
  | _ => Raise TypeError
  end.

Definition chars (s : string) : list value :=
  map (fun c => VStr (String c EmptyString)) (list_ascii_of_string s).

(** [o[:n]]: lists and strings are sliced, anything else raises. *)
Definition py_slice_to (n : nat) (o : value) : result value :=
  match o with
  | VList l => Ok (VList (firstn n l))
  | VStr s => Ok (VStr (substring 0 n s))
  | _ => Raise TypeError
  end.

(** The items [for x in o] runs through. *)
Definition py_iter (o : value) : result (list value) :=
  match o with
  | VList l => Ok l
  | VStr s => Ok (chars s)
  | VDict d => Ok (map (fun kv => VStr (fst kv)) d)
  | _ => Raise TypeError
  end.

Definition Qlt_bool (x y : Q) : bool := negb (Qle_bool y x).

(** [o > q] for a float literal [q]: numbers (and [bool], a subclass of
    [int]) are compared by value, anything else raises. *)
Definition py_gt (o : value) (q : Q) : result bool :=
  match o with
  | VInt z => Ok (Qlt_bool q (inject_Z z))
  | VFloat x => Ok (Qlt_bool q x)
  | VBool b => Ok (Qlt_bool q (if b then 1 else 0)%Q)
  | _ => Raise TypeError
  end.

(** The float literal [0.3]: the binary64 number nearest to three tenths,
    [0x3FD3333333333333]. *)
Definition float_0_3 : Q := (5404319552844595 # 18014398509481984)%Q.

(** [[0] * 12]. *)
Definition twelve_zeros : value := VList (repeat (VInt 0) 12).

Fixpoint mapM {A B : Type} (f : A -> result B) (l : list A) : result (list B) :=
  match l with
  | [] => Ok []
  | a :: l' =>
      let* b := f a in
      let* bs := mapM f l' in
      Ok (b :: bs)
  end.

(** ** Response models ([app/models/schemas.py]) *)

Module BeatData.
Record t : Type := mk { start : Q; duration : Q; confidence : Q }.
End BeatData.

Module SegmentData.
Record t : Type :=
  mk { start : Q; duration : Q; loudness : Q;
       pitches : list Q; timbre : list Q }.
End SegmentData.

Module SectionData.
Record t : Type :=
  mk { start : Q; duration : Q; tempo : Q; key : Z; mode : Z; loudness : Q }.
End SectionData.

Module AnalysisResponse.
Record t : Type :=
  mk { track_id : string; duration : Q; tempo : Q; energy : Q;
       beats : list BeatData.t;
       segments : list SegmentData.t;
       sections : list SectionData.t }.
End AnalysisResponse.

(** The constraints [ge], [gt] and [le] of [Field]. *)
Definition ge (bound x : Q) : bool := Qle_bool bound x.
Definition gt (bound x : Q) : bool := Qlt_bool bound x.
Definition le (bound x : Q) : bool := Qle_bool x bound.
Definition ge_int (bound x : Z) : bool := bound <=? x.
Definition le_int (bound x : Z) : bool := x <=? bound.

Definition check (b : bool) : result unit :=
  if b then Ok tt else Raise ValidationError.

(** The integers that are binary64 floats whatever the rounding: those of
    magnitude at most 2^53 = 9007199254740992. *)
Definition exact_float_int (z : Z) : bool := Z.abs z <=? 9007199254740992.

(** ** Model construction and the transformer *)

Section Transformer.

(** The validation library is not part of the repository.  What it does
    with a float or with an integer of magnitude at most 2^53 given to a
    [float] field, with an [int] given to an [int] field, and with [None],
    a [list] or a [dict] given to either, is fixed below; its lax-mode
    conversions of the remaining values ([bool], [str] and the integers
    beyond 2^53 for a [float] field, [bool], [str] and [float] for an
    [int] field) are taken as parameters. *)
Variable lax_float : value -> option Q.
Variable lax_int : value -> option Z.

(** A [float] field.  An integer of magnitude at most 2^53 is a binary64
    and is converted exactly.  A larger one is rounded to a binary64, and
    rejected with [ValidationError] when it lies outside the binary64
    range: that conversion is the library's and is left to [lax_float]. *)
Definition as_float (v : value) : result Q :=
  match v with
  | VInt z =>
      if exact_float_int z then Ok (inject_Z z)
      else of_option ValidationError (lax_float v)
  | VFloat q => Ok q
  | VBool _ | VStr _ => of_option ValidationError (lax_float v)
  | VNone | VList _ | VDict _ => Raise ValidationError
  end.

(** An [int] field. *)
Definition as_int (v : value) : result Z :=
  match v with
  | VInt z => Ok z
  | VBool _ | VStr _ | VFloat _ => of_option ValidationError (lax_int v)
  | VNone | VList _ | VDict _ => Raise ValidationError
  end.

(** A [str] field. *)
Definition as_str (v : value) : result string :=
  match v with
  | VStr s => Ok s
  | _ => Raise ValidationError
  end.

(** A [list[float]] field with [min_length=12, max_length=12]. *)
Definition as_float_list_12 (v : value) : result (list Q) :=
  match v with
  | VList l =>
      let* qs := mapM as_float l in
      let* _ := check ((12 <=? length qs)%nat && (length qs <=? 12)%nat) in
      Ok qs
  | _ => Raise ValidationError
  end.

(** [BeatData(start=.., duration=.., confidence=..)]. *)
Definition BeatData_new (start duration confidence : value)
  : result BeatData.t :=
  let* s := as_float start in
  let* d := as_float duration in
  let* c := as_float confidence in
  let* _ := check (ge 0 s && gt 0 d && ge 0 c && le 1 c) in
  Ok (BeatData.mk s d c).

(** [SegmentData(start=.., duration=.., loudness=.., pitches=..,
    timbre=..)]. *)
Definition SegmentData_new (start duration loudness pitches timbre : value)
  : result SegmentData.t :=
  let* s := as_float start in
  let* d := as_float duration in
  let* l := as_float loudness in
  let* p := as_float_list_12 pitches in
  let* t := as_float_list_12 timbre in
  let* _ := check (ge 0 s && gt 0 d) in
  Ok (SegmentData.mk s d l p t).

(** [SectionData(start=.., duration=.., tempo=.., key=.., mode=..,
    loudness=..)]. *)
Definition SectionData_new (start duration tempo key mode loudness : value)
  : result SectionData.t :=
  let* s := as_float start in
  let* d := as_float duration in
  let* t := as_float tempo in
  let* k := as_int key in
  let* m := as_int mode in
  let* l := as_float loudness in
  let* _ := check (ge 0 s && gt 0 d && gt 0 t
                   && ge_int (-1) k && le_int 11 k
                   && ge_int 0 m && le_int 1 m) in
  Ok (SectionData.mk s d t k m l).

(** One round of the beats comprehension: the test, then the element. *)
Definition beat_keep (b : value) : result bool :=
  let* c := py_get b "confidence" (VInt 0) in
  py_gt c float_0_3.

Definition beat_of (b : value) : result BeatData.t :=
  let* start := py_getitem b "start" in
  let* duration := py_getitem b "duration" in
  let* confidence := py_getitem b "confidence" in
  BeatData_new start duration confidence.

(** [[BeatData(..) for b in raw_beats if b.get("confidence", 0) > 0.3]]. *)
Fixpoint beats_of (raw_beats : list value) : result (list BeatData.t) :=
  match raw_beats with
  | [] => Ok []
  | b :: rest =>
      let* keep := beat_keep b in
      if keep then
        let* x := beat_of b in
        let* xs := beats_of rest in
        Ok (x :: xs)
      else beats_of rest
  end.

Definition segment_of (s : value) : result SegmentData.t :=
  let* start := py_getitem s "start" in
  let* duration := py_getitem s "duration" in
  let* inner := py_get s "loudness" (VInt (-60)) in
  let* loudness := py_get s "loudness_start" inner in
  let* pitches := py_get s "pitches" twelve_zeros in
  let* timbre := py_get s "timbre" twelve_zeros in
  SegmentData_new start duration loudness pitches timbre.

Definition section_of (s : value) : result SectionData.t :=
  let* start := py_getitem s "start" in
  let* duration := py_getitem s "duration" in
  let* tempo := py_get s "tempo" (VInt 120) in
  let* key := py_get s "key" (VInt (-1)) in
  let* mode := py_get s "mode" (VInt 0) in
  let* loudness := py_get s "loudness" (VInt (-10)) in
  SectionData_new start duration tempo key mode loudness.

(** [AnalysisResponse(track_id=.., duration=.., tempo=.., energy=..,
    beats=.., segments=.., sections=..)] with the three lists already
    built. *)
Definition AnalysisResponse_new (track_id : string)
    (duration tempo energy : value)
    (beats : list BeatData.t) (segments : list SegmentData.t)
    (sections : list SectionData.t) : result AnalysisResponse.t :=
  let* d := as_float duration in
  let* t := as_float tempo in
  let* e := as_float energy in
  Ok (AnalysisResponse.mk track_id d t e beats segments sections).

(** [process_analysis] of [app/routers/spotify.py]. *)
Definition process_analysis (track_id : string) (analysis features : value)
  : result AnalysisResponse.t :=
  let* raw_beats := py_get analysis "beats" (VList []) in
  let* raw_beats_items := py_iter raw_beats in
  let* beats := beats_of raw_beats_items in
  let* raw_segments := py_get analysis "segments" (VList []) in
  let* capped := py_slice_to 2000 raw_segments in
  let* capped_items := py_iter capped in
  let* segments := mapM segment_of capped_items in
  let* raw_sections := py_get analysis "sections" (VList []) in
  let* raw_sections_items := py_iter raw_sections in
  let* sections := mapM section_of raw_sections_items in
  let* track_info := py_get analysis "track" (VDict []) in
  let* duration := py_get track_info "duration" (VInt 0) in
  let* inner := py_get track_info "tempo" (VInt 120) in
  let* tempo := py_get features "tempo" inner in
  let* energy := py_get features "energy" (VFloat (1 # 2)) in
  AnalysisResponse_new track_id duration tempo energy beats segments sections.

End Transformer.

(** ** The world a request runs in *)

(** A document of the collection [analysis_cache].  The unique index on
    [track_id] that [connect_db] creates makes the collection a finite map
    from [track_id] to the other two fields. *)
Record Doc : Type := mkDoc { analysis : value; cached_at : Z }.

(** What the HTTP client gives back for one request: a response (status,
    headers, and the body as [response.json()] decodes it, [None] when it
    is not JSON), or one of the two transport exceptions [_make_request]
    catches. *)
Inductive http_outcome : Type :=
| Response (status : Z) (headers : list (string * string)) (json : option value)
| TimeoutException
| RequestError.

(** The state outside the handler: the module global [_db] (set or not),
    the collection on the server, the exception the driver raises on the
    next read and on the next write, if any, the clock [datetime.utcnow()]
    in seconds, the provider's answer to a [GET] with a given bearer token
    on a given endpoint, and the requests sent so far (newest first). *)
Record World : Type := mkWorld {
  db_initialized : bool;
  analysis_cache : gmap string Doc;
  find_one_fault : option exn;
  update_one_fault : option exn;
  utcnow : Z;
  upstream : string -> string -> http_outcome;
  requests : list (string * string)
}.

Definition set_cache (c : gmap string Doc) (w : World) : World :=
  mkWorld (db_initialized w) c (find_one_fault w) (update_one_fault w)
          (utcnow w) (upstream w) (requests w).

Definition add_request (token endpoint : string) (w : World) : World :=
  mkWorld (db_initialized w) (analysis_cache w) (find_one_fault w)
          (update_one_fault w) (utcnow w) (upstream w)
          ((token, endpoint) :: requests w).

(** [expireAfterSeconds=60*60*24*7] of the index on [cached_at]. *)
Definition expireAfterSeconds : Z := 60 * 60 * 24 * 7.

Definition expired (now : Z) (d : Doc) : bool :=
  cached_at d + expireAfterSeconds <? now.

(** One pass of the server's background task for that index: it deletes
    the documents whose [cached_at] is more than [expireAfterSeconds] old.
    The task belongs to the database server and runs on its own schedule,
    not when the handler reads. *)
Definition ttl_monitor (w : World) : World :=
  set_cache (filter (fun kv => expired (utcnow w) (snd kv) = false)
                    (analysis_cache w)) w.

(** Effectful code: a computation reads and updates the world and returns
    or raises. *)
Definition M (A : Type) : Type := World -> result A * World.

Definition ret {A : Type} (a : A) : M A := fun w => (Ok a, w).

Definition raise {A : Type} (e : exn) : M A := fun w => (Raise e, w).

Definition bindM {A B : Type} (c : M A) (k : A -> M B) : M B :=
  fun w =>
    match c w with
    | (Ok a, w') => k a w'
    | (Raise e, w') => (Raise e, w')
    end.

Definition lift {A : Type} (r : result A) : M A := fun w => (r, w).

(** [try: c / except Exception: h]: every member of [exn] is an
    [Exception]. *)
Definition try_except {A : Type} (c : M A) (h : exn -> M A) : M A :=
  fun w =>
    match c w with
    | (Ok a, w') => (Ok a, w')
    | (Raise e, w') => h e w'
    end.

Notation "'do' x '<-' c ';' k" := (bindM c (fun x => k))
  (at level 10, x name, c at level 100, k at level 200).

(** ** Cache operations ([app/db/mongodb.py]) *)

(** [get_db]. *)
Definition get_db : M unit :=
  fun w =>
    if db_initialized w then (Ok tt, w)
    else (Raise (RuntimeError
                   "Database not initialized. Call connect_db() first."), w).

(** [db.analysis_cache.find_one({"track_id": track_id},
    {"_id": 0, "analysis": 1})]: the projected document or [None]. *)
Definition find_one (track_id : string) : M value :=
  fun w =>
    match find_one_fault w with
    | Some e => (Raise e, w)
    | None =>
        (Ok (match analysis_cache w !! track_id with
             | Some d => VDict [("analysis", analysis d)]
             | None => VNone
             end), w)
    end.

(** [db.analysis_cache.update_one({"track_id": track_id},
    {"$set": {"track_id": .., "analysis": .., "cached_at": ..}},
    upsert=True)]. *)
Definition update_one_set (track_id : string) (a : value) (at_ : Z) : M unit :=
  fun w =>
    match update_one_fault w with
    | Some e => (Raise e, w)
    | None => (Ok tt, set_cache (<[track_id := mkDoc a at_]> (analysis_cache w)) w)
    end.

Definition datetime_utcnow : M Z := fun w => (Ok (utcnow w), w).

(** [get_cached_analysis]; the result is [Optional[dict]], [VNone] for
    [None]. *)
Definition get_cached_analysis (track_id : string) : M value :=
  do _ <- get_db;
  try_except
    (do doc <- find_one track_id;
     if truthy doc then lift (py_get doc "analysis" VNone)
     else ret VNone)
    (fun _ => ret VNone).

(** [cache_analysis]. *)
Definition cache_analysis (track_id : string) (a : value) : M bool :=
  do _ <- get_db;
  try_except
    (do now <- datetime_utcnow;
     do _ <- update_one_set track_id a now;
     ret true)
    (fun _ => ret false).

(** ** Upstream client ([app/services/spotify_service.py]) *)

(** [client.request(method="GET", url=.., headers=self._headers)]: the
    request is sent (and recorded) and the provider answers. *)
Definition client_request (token endpoint : string) : M http_outcome :=
  fun w => (Ok (upstream w token endpoint), add_request token endpoint w).

(** [SpotifyService(token)._make_request("GET", endpoint)].  A return
    value of [VNone] is Python's [None].  On status 429 the code reads the
    [Retry-After] header (default ["60"]) for a log line only. *)
Definition _make_request (token endpoint : string) : M value :=
  do o <- client_request token endpoint;
  match o with
  | Response status headers json =>
      if status =? 204 then ret VNone
      else if status =? 401
      then raise (SpotifyAuthError "Token expired. Please re-authenticate.")
      else if status =? 404 then raise (NotFoundError "Track")
      else if status =? 429
      then raise (SpotifyAPIError "Rate limited by Spotify. Try again shortly.")
      else if 500 <=? status then raise SpotifyAPIError_default
      else if 400 <=? status then raise (SpotifyAPIError "Request failed")
      else lift (of_option JSONDecodeError json)
  | TimeoutException =>
      raise (SpotifyAPIError "Spotify is not responding. Try again.")
  | RequestError => raise SpotifyAPIError_default
  end.

Definition get_audio_analysis (token track_id : string) : M value :=
  _make_request token ("/audio-analysis/" ++ track_id).

Definition get_audio_features (token track_id : string) : M value :=
  _make_request token ("/audio-features/" ++ track_id).

(** ** Request handler ([app/routers/spotify.py]) *)

(** [model_dump()]: the models as plain [dict]s, fields in declaration
    order. *)
Definition dump_floats (qs : list Q) : value := VList (map VFloat qs).

Definition BeatData_dump (b : BeatData.t) : value :=
  VDict [("start", VFloat (BeatData.start b));
         ("duration", VFloat (BeatData.duration b));
         ("confidence", VFloat (BeatData.confidence b))].

Definition SegmentData_dump (s : SegmentData.t) : value :=
  VDict [("start", VFloat (SegmentData.start s));
         ("duration", VFloat (SegmentData.duration s));
         ("loudness", VFloat (SegmentData.loudness s));
         ("pitches", dump_floats (SegmentData.pitches s));
         ("timbre", dump_floats (SegmentData.timbre s))].

Definition SectionData_dump (s : SectionData.t) : value :=
  VDict [("start", VFloat (SectionData.start s));
         ("duration", VFloat (SectionData.duration s));
         ("tempo", VFloat (SectionData.tempo s));
         ("key", VInt (SectionData.key s));
         ("mode", VInt (SectionData.mode s));
         ("loudness", VFloat (SectionData.loudness s))].

Definition model_dump (r : AnalysisResponse.t) : value :=
  VDict [("track_id", VStr (AnalysisResponse.track_id r));
         ("duration", VFloat (AnalysisResponse.duration r));
         ("tempo", VFloat (AnalysisResponse.tempo r));
         ("energy", VFloat (AnalysisResponse.energy r));
         ("beats", VList (map BeatData_dump (AnalysisResponse.beats r)));
         ("segments", VList (map SegmentData_dump (AnalysisResponse.segments r)));
         ("sections", VList (map SectionData_dump (AnalysisResponse.sections r)))].

Section Handler.

Variable lax_float : value -> option Q.
Variable lax_int : value -> option Z.

(** A required field of a model built from a [dict]. *)
Definition field (d : list (string * value)) (k : string) : result value :=
  of_option ValidationError (assoc k d).

(** Items of a [list[BeatData]], [list[SegmentData]] or
    [list[SectionData]] field given as [dict]s. *)
Definition BeatData_validate (v : value) : result BeatData.t :=
  match v with
  | VDict d =>
      let* start := field d "start" in
      let* duration := field d "duration" in
      let* confidence := field d "confidence" in
      BeatData_new lax_float start duration confidence
  | _ => Raise ValidationError
  end.

Definition SegmentData_validate (v : value) : result SegmentData.t :=
  match v with
  | VDict d =>
      let* start := field d "start" in
      let* duration := field d "duration" in
      let* loudness := field d "loudness" in
      let* pitches := field d "pitches" in
      let* timbre := field d "timbre" in
      SegmentData_new lax_float start duration loudness pitches timbre
  | _ => Raise ValidationError
  end.

Definition SectionData_validate (v : value) : result SectionData.t :=
  match v with
  | VDict d =>
      let* start := field d "start" in
      let* duration := field d "duration" in
      let* tempo := field d "tempo" in
      let* key := field d "key" in
      let* mode := field d "mode" in
      let* loudness := field d "loudness" in
      SectionData_new lax_float lax_int start duration tempo key mode loudness
  | _ => Raise ValidationError
  end.

Definition as_list {A : Type} (f : value -> result A) (v : value)
  : result (list A) :=
  match v with
  | VList l => mapM f l
  | _ => Raise ValidationError
  end.

(** [AnalysisResponse] called with [cached] unpacked as keyword
    arguments: the unpacking needs a mapping, and every field of the
    model is required. *)
Definition AnalysisResponse_of_kwargs (cached : value)
  : result AnalysisResponse.t :=
  match cached with
  | VDict d =>
      let* track_id := field d "track_id" in
      let* duration := field d "duration" in
      let* tempo := field d "tempo" in
      let* energy := field d "energy" in
      let* beats := field d "beats" in
      let* segments := field d "segments" in
      let* sections := field d "sections" in
      let* tid := as_str track_id in
      let* bs := as_list BeatData_validate beats in
      let* sgs := as_list SegmentData_validate segments in
      let* scs := as_list SectionData_validate sections in
      AnalysisResponse_new lax_float tid duration tempo energy bs sgs scs
  | _ => Raise TypeError
  end.

(** [get_analysis(_, token, track_id)], run after its dependencies have
    produced [token].  [Path(..., min_length=22, max_length=22)] is
    checked by the framework before the body runs. *)
Definition get_analysis (token track_id : string) : M AnalysisResponse.t :=
  if negb (String.length track_id =? 22)%nat then raise RequestValidationError
  else
    do track_id <- lift (validate_track_id_param track_id);
    do cached <- get_cached_analysis track_id;
    if truthy cached then lift (AnalysisResponse_of_kwargs cached)
    else
      do analysis <- get_audio_analysis token track_id;
      do features <- get_audio_features token track_id;
      if negb (truthy analysis) then raise (NotFoundError "Track analysis")
      else
        do processed <-
          lift (process_analysis lax_float lax_int track_id analysis features);
        do _ <- cache_analysis track_id (model_dump processed);
        ret processed.

(** [GET /spotify/analysis/{track_id}] with the [Authorization] header
    resolved by [get_spotify_token].  The rate-limit dependency is not
    part of the model. *)
Definition analysis_endpoint (authorization : option string)
    (track_id : string) : M AnalysisResponse.t :=
  do token <- lift (get_spotify_token authorization);
  get_analysis token track_id.

End Handler.

(** ** Vocabulary of the statements *)

(** Whether the last character of a string is white space. *)
Fixpoint ends_with_space (s : string) : bool :=
  match s with
  | EmptyString => false
  | String c EmptyString => is_space c
  | String _ s' => ends_with_space s'
  end.

(** The number a value denotes in a comparison, if it is one. *)
Definition number_of (v : value) : option Q :=
  match v with
  | VInt z => Some (inject_Z z)
  | VFloat q => Some q
  | VBool b => Some (if b then 1 else 0)%Q
  | _ => None
  end.

(** The beats the comprehension keeps: those whose test evaluates to
    [True]. *)
Definition beat_passes (b : value) : bool :=
  match beat_keep b with
  | Ok true => true
  | _ => false
  end.

(** The raw list a key of the analysis payload holds, as the transformer
    iterates over it: [analysis.get(k, [])]. *)
Definition raw_items (analysis : value) (k : string) : result (list value) :=
  let* raw := py_get analysis k (VList []) in
  py_iter raw.

(** Well-formed raw payloads: a sufficient condition for the transformer to
    return.  A number is a float or an integer of magnitude at most 2^53,
    the values a [float] field takes as they are; a required field must be
    present and valid, an optional one must be valid when present. *)
Definition is_num (v : value) : bool :=
  match v with
  | VInt z => exact_float_int z
  | VFloat _ => true
  | _ => false
  end.

Definition num (v : value) : Q :=
  match v with
  | VInt z => inject_Z z
  | VFloat q => q
  | _ => 0%Q
  end.

Definition required (chk : value -> bool) (o : option value) : bool :=
  match o with
  | Some v => chk v
  | None => false
  end.

Definition optional (chk : value -> bool) (o : option value) : bool :=
  match o with
  | Some v => chk v
  | None => true
  end.

Definition valid_start (v : value) : bool := is_num v && ge 0 (num v).
Definition valid_duration (v : value) : bool := is_num v && gt 0 (num v).
Definition valid_confidence (v : value) : bool :=
  is_num v && ge 0 (num v) && le 1 (num v).
Definition valid_tempo (v : value) : bool := is_num v && gt 0 (num v).

Definition valid_int_between (lo hi : Z) (v : value) : bool :=
  match v with
  | VInt z => (lo <=? z) && (z <=? hi)
  | _ => false
  end.

Definition valid_floats_12 (v : value) : bool :=
  match v with
  | VList l => forallb is_num l && (length l =? 12)%nat
  | _ => false
  end.

Definition wf_beat (b : value) : bool :=
  match b with
  | VDict d =>
      required valid_start (assoc "start" d)
      && required valid_duration (assoc "duration" d)
      && required valid_confidence (assoc "confidence" d)
  | _ => false
  end.

Definition wf_segment (s : value) : bool :=
  match s with
  | VDict d =>
      required valid_start (assoc "start" d)
      && required valid_duration (assoc "duration" d)
      && match assoc "loudness_start" d with
         | Some v => is_num v
         | None => optional is_num (assoc "loudness" d)
         end
      && optional valid_floats_12 (assoc "pitches" d)
      && optional valid_floats_12 (assoc "timbre" d)
  | _ => false
  end.

Definition wf_section (s : value) : bool :=
  match s with
  | VDict d =>
      required valid_start (assoc "start" d)
      && required valid_duration (assoc "duration" d)
      && optional valid_tempo (assoc "tempo" d)
      && optional (valid_int_between (-1) 11) (assoc "key" d)
      && optional (valid_int_between 0 1) (assoc "mode" d)
      && optional is_num (assoc "loudness" d)
  | _ => false
  end.

Definition list_of (chk : value -> bool) (v : value) : bool :=
  match v with
  | VList l => forallb chk l
  | _ => false
  end.

(** Only the first [n] items are looked at. *)
Definition prefix_of (n : nat) (chk : value -> bool) (v : value) : bool :=
  match v with
  | VList l => forallb chk (firstn n l)
  | _ => false
  end.

Definition wf_track (v : value) : bool :=
  match v with
  | VDict t =>
      optional is_num (assoc "duration" t) && optional is_num (assoc "tempo" t)
  | _ => false
  end.

Definition wf_analysis (analysis : value) : bool :=
  match analysis with
  | VDict d =>
      optional (list_of wf_beat) (assoc "beats" d)
      && optional (prefix_of 2000 wf_segment) (assoc "segments" d)
      && optional (list_of wf_section) (assoc "sections" d)
      && optional wf_track (assoc "track" d)
  | _ => false
  end.

Definition wf_features (features : value) : bool :=
  match features with
  | VDict d =>
      optional is_num (assoc "tempo" d) && optional is_num (assoc "energy" d)
  | _ => false
  end.

(** The numbers of a list. *)
Definition nums (v : value) : list Q :=
  match v with
  | VList l => map num l
  | _ => []
  end.

(** The segment the specification describes for a raw record: [start] and
    [duration] as given; the loudness from [loudness_start], else from
    [loudness], else -60; [pitches] and [timbre] as given, twelve zeros
    when absent. *)
Definition spec_segment (s : value) : option SegmentData.t :=
  match s with
  | VDict d =>
      match assoc "start" d, assoc "duration" d with
      | Some start, Some duration =>
          Some (SegmentData.mk
                  (num start) (num duration)
                  match assoc "loudness_start" d with
                  | Some v => num v
                  | None => match assoc "loudness" d with
                            | Some v => num v
                            | None => inject_Z (-60)
                            end
                  end
                  match assoc "pitches" d with
                  | Some v => nums v
                  | None => repeat (inject_Z 0) 12
                  end
                  match assoc "timbre" d with
                  | Some v => nums v
                  | None => repeat (inject_Z 0) 12
                  end)
      | _, _ => None
      end
  | _ => None
  end.

(** The integer an [int] field is given. *)
Definition int_of (v : value) : Z :=
  match v with
  | VInt z => z
  | _ => 0
  end.

(** The section the specification describes for a raw record: [start] and
    [duration] as given; tempo 120, key -1, mode 0 and loudness -10 for the
    absent field. *)
Definition spec_section (s : value) : option SectionData.t :=
  match s with
  | VDict d =>
      match assoc "start" d, assoc "duration" d with
      | Some start, Some duration =>
          Some (SectionData.mk
                  (num start) (num duration)
                  match assoc "tempo" d with
                  | Some v => num v
                  | None => inject_Z 120
                  end
                  match assoc "key" d with
                  | Some v => int_of v
                  | None => -1
                  end
                  match assoc "mode" d with
                  | Some v => int_of v
                  | None => 0
                  end
                  match assoc "loudness" d with
                  | Some v => num v
                  | None => inject_Z (-10)
                  end)
      | _, _ => None
      end
  | _ => None
  end.

(** The validation library with no lax conversion at all: every value left
    to the parameters is rejected. *)
Definition strict_float : value -> option Q := fun _ => None.
Definition strict_int : value -> option Z := fun _ => None.

(** Sample payloads: three beats of confidence 0.1, 0.5 and 0.9 and 2500
    segments that carry only [start] and [duration]. *)
Definition sample_beat (confidence : Q) : value :=
  VDict [("start", VInt 0); ("duration", VInt 1);
         ("confidence", VFloat confidence)].

Definition sample_segment : value :=
  VDict [("start", VInt 0); ("duration", VInt 1)].

Definition sample_analysis : value :=
  VDict [("beats", VList [sample_beat (1 # 10); sample_beat (1 # 2);
                          sample_beat (9 # 10)]);
         ("segments", VList (repeat sample_segment 2500))].

Definition sample_track_id : string := "4uLU6hMCjMI75M1A2tKUQC".

(** A payload with sparse records: a segment with both loudness fields and
    its twelve pitches, one with [loudness] only, one with neither, and a
    section with nothing but [start] and [duration]. *)
Definition sample_sparse_analysis : value :=
  VDict [("segments",
          VList [VDict [("start", VInt 0); ("duration", VInt 1);
                        ("loudness_start", VFloat (-7 # 2));
                        ("loudness", VInt (-20));
                        ("pitches", VList (repeat (VFloat (1 # 2)) 12))];
                 VDict [("start", VInt 1); ("duration", VInt 1);
                        ("loudness", VInt (-20))];
                 VDict [("start", VInt 2); ("duration", VInt 1)]]);
         ("sections",
          VList [VDict [("start", VInt 0); ("duration", VInt 3)]])].

(** The outcome taxonomy of the upstream client, and the outcome a result
    of [_make_request] stands for: the exception class, and for
    [SpotifyAPIError] its message, tell the outcomes apart. *)
Inductive outcome : Type :=
| Success (payload : value)
| AuthExpired
| NotFound
| RateLimited
| UpstreamUnavailable
| UpstreamTimeout
| UpstreamProtocolError.

Definition outcome_of (r : result value) : option outcome :=
  match r with
  | Ok payload => Some (Success payload)
  | Raise (SpotifyAuthError _) => Some AuthExpired
  | Raise (NotFoundError _) => Some NotFound
  | Raise (SpotifyAPIError d) =>
      if String.eqb d "Rate limited by Spotify. Try again shortly."
      then Some RateLimited
      else if String.eqb d "Spotify service temporarily unavailable"
      then Some UpstreamUnavailable
      else if String.eqb d "Spotify is not responding. Try again."
      then Some UpstreamTimeout
      else if String.eqb d "Request failed" then Some UpstreamProtocolError
      else None
  | Raise _ => None
  end.

(** The HTTP status a result of [_make_request] surfaces with, when it is
    an error. *)
Definition error_status (r : result value) : option Z :=
  match r with
  | Ok _ => None
  | Raise e => Some (status_code e)
  end.

(** Sample worlds.  The provider answers every request of [rate_limited]
    with status 429 and [Retry-After: 5]. *)
Definition no_upstream : string -> string -> http_outcome :=
  fun _ _ => RequestError.

Definition sample_cached : value := VDict [("track_id", VStr sample_track_id)].

Definition empty_world : World :=
  mkWorld true ∅ None None 0 no_upstream [].

Definition rate_limited : World :=
  mkWorld true ∅ None None 0
          (fun _ _ => Response 429 [("Retry-After", "5")] None) [].

(** A store that still holds a document written at time 0, read one second
    after its seven days are over and before the server's background task
    has passed. *)
Definition stale_world : World :=
  mkWorld true {[ sample_track_id := mkDoc sample_cached 0 ]} None None
          (expireAfterSeconds + 1) no_upstream [].

(** A store whose driver raises on every command, while the provider has
    a small analysis and empty features for every track. *)
Definition small_analysis : value :=
  VDict [("beats", VList [sample_beat (1 # 2)]);
         ("track", VDict [("duration", VInt 200)])].

Definition small_response : AnalysisResponse.t :=
  AnalysisResponse.mk sample_track_id (inject_Z 200) (inject_Z 120) (1 # 2)
                      [BeatData.mk (inject_Z 0) (inject_Z 1) (1 # 2)] [] [].

Definition broken_store : World :=
  mkWorld true ∅ (Some (DriverError "ServerSelectionTimeoutError"))
          (Some (DriverError "ServerSelectionTimeoutError")) 0
          (fun _ endpoint =>
             if String.prefix "/audio-analysis/" endpoint
             then Response 200 [] (Some small_analysis)
             else Response 200 [] (Some (VDict []))) [].

(** The provider has the analysis of every track and answers every
    features request with status 500. *)
Definition features_down : World :=
  mkWorld true ∅ None None 0
          (fun _ endpoint =>
             if String.prefix "/audio-analysis/" endpoint
             then Response 200 [] (Some sample_analysis)
             else Response 500 [] None) [].

(** The provider answers an analysis request with 204 and has the
    features. *)
Definition analysis_absent : World :=
  mkWorld true ∅ None None 0
          (fun _ endpoint =>
             if String.prefix "/audio-analysis/" endpoint
             then Response 204 [] None
             else Response 200 [] (Some (VDict []))) [].

(** Two bearer tokens of sixty characters and a store that holds a cached
    analysis for [sample_track_id]. *)
Definition sample_token_a : string :=
  "AAAAAAAAAAAAAAAAAAAAAAAAAAAAAAAAAAAAAAAAAAAAAAAAAAAAAAAAAAAA".

Definition sample_token_b : string :=
  "BBBBBBBBBBBBBBBBBBBBBBBBBBBBBBBBBBBBBBBBBBBBBBBBBBBBBBBBBBBB".

Definition sample_response : AnalysisResponse.t :=
  AnalysisResponse.mk sample_track_id (inject_Z 200) (inject_Z 120) (1 # 2)
                      [BeatData.mk (inject_Z 0) (inject_Z 1) (1 # 2)] [] [].

Definition warm_world : World :=
  mkWorld true {[ sample_track_id := mkDoc (model_dump sample_response) 0 ]}
          None None 100 no_upstream [].

(** The field constraints of the models, read off a built instance. *)
Definition beat_valid (b : BeatData.t) : bool :=
  ge 0 (BeatData.start b) && gt 0 (BeatData.duration b)
  && ge 0 (BeatData.confidence b) && le 1 (BeatData.confidence b).

Definition segment_valid (s : SegmentData.t) : bool :=
  ge 0 (SegmentData.start s) && gt 0 (SegmentData.duration s)
  && (length (SegmentData.pitches s) =? 12)%nat
  && (length (SegmentData.timbre s) =? 12)%nat.

Definition section_valid (s : SectionData.t) : bool :=
  ge 0 (SectionData.start s) && gt 0 (SectionData.duration s)
  && gt 0 (SectionData.tempo s)
  && ge_int (-1) (SectionData.key s) && le_int 11 (SectionData.key s)
  && ge_int 0 (SectionData.mode s) && le_int 1 (SectionData.mode s).

Definition response_valid (r : AnalysisResponse.t) : bool :=
  forallb beat_valid (AnalysisResponse.beats r)
  && forallb segment_valid (AnalysisResponse.segments r)
  && forallb section_valid (AnalysisResponse.sections r).

(** ** More of the validators ([app/dependencies.py], [app/models/schemas.py],
    [app/config.py]) *)

(** The greedy [{m,n}] over a class: at most [n] characters of the class
    at the head of [s]; how many were read, and the unread rest.  With [$]
    after it, giving back a character never helps, for the character given
    back is of the class and so is not a newline. *)
Fixpoint take_class (cls : ascii -> bool) (n : nat) (s : string)
  : nat * string :=
  match n with
  | O => (O, s)
  | S n' =>
      match s with
      | EmptyString => (O, EmptyString)
      | String c s' =>
          if cls c
          then let (k, rest) := take_class cls n' s' in (S k, rest)
          else (O, s)
      end
  end.

(** [re.match(r'^[A-Za-z0-9_\-]{16,64}$', s)] as a truth value. *)
Definition re_match_state (s : string) : bool :=
  let (k, rest) := take_class is_urlsafe 64 s in
  (16 <=? k)%nat && at_dollar rest.

(** [validate_state_param] of [app/dependencies.py]. *)
Definition validate_state_param (state : option string) : option string :=
  match state with
  | None => None
  | Some s => if negb (re_match_state s) then None else Some s
  end.

(** [TrackIdParam.validate_track_id] of [app/models/schemas.py], the
    field validator alone. *)
Definition TrackIdParam_validate_track_id (v : string) : result string :=
  let v := strip v in
  if negb (re_match_track_id v)
  then Raise (ValueError "Invalid Spotify track ID")
  else Ok v.

(** [RefreshTokenRequest]: the [Field(min_length=20, max_length=500)]
    constraint on the raw string, then the field validator
    [validate_token_format]. *)
Definition RefreshTokenRequest_validate_token_format (v : string)
  : result string :=
  let v := strip v in
  if negb (re_match_token v) then Raise (ValueError "Invalid token format")
  else Ok v.

Definition RefreshTokenRequest_new (refresh_token : string) : result string :=
  if (String.length refresh_token <? 20)%nat
     || (500 <? String.length refresh_token)%nat
  then Raise ValidationError
  else
    match RefreshTokenRequest_validate_token_format refresh_token with
    | Ok v => Ok v
    | Raise _ => Raise ValidationError
    end.

(** [str.rstrip("/")]. *)
Fixpoint rstrip_char (x : ascii) (s : string) : string :=
  match s with
  | EmptyString => EmptyString
  | String c s' =>
      match rstrip_char x s' with
      | EmptyString =>
          if Ascii.eqb c x then EmptyString else String c EmptyString
      | r => String c r
      end
  end.

(** [Settings.validate_frontend_url] of [app/config.py]. *)
Definition validate_frontend_url (v : string) : string := rstrip_char "/" v.

(** [str.lower] on the code points below 256: the ASCII capitals and the
    Latin-1 capitals (0xC0..0xDE without the multiplication sign 0xD7) move
    up by 32. *)
Definition lower_char (c : ascii) : ascii :=
  let n := code c in
  if (((65 <=? n) && (n <=? 90))
      || ((192 <=? n) && (n <=? 222) && negb (n =? 215)))%N
  then ascii_of_N (n + 32)
  else c.

Fixpoint lower (s : string) : string :=
  match s with
  | EmptyString => EmptyString
  | String c s' => String (lower_char c) (lower s')
  end.

(** The character class [[a-f0-9]]. *)
Definition is_lower_hex (c : ascii) : bool :=
  let n := code c in
  (((97 <=? n) && (n <=? 102)) || ((48 <=? n) && (n <=? 57)))%N.

(** [re.match(r"^[a-f0-9]{32}$", s)] as a truth value. *)
Definition re_match_client_id (s : string) : bool :=
  match match_class_n is_lower_hex 32 s with
  | Some rest => at_dollar rest
  | None => false
  end.

(** [Settings.validate_client_id] of [app/config.py]. *)
Definition validate_client_id (v : string) : result string :=
  if negb (re_match_client_id (lower v))
  then Raise (ValueError "Invalid Spotify client ID format")
  else Ok v.

(** Every character of a string is in a class. *)
Definition all_chars (cls : ascii -> bool) (s : string) : bool :=
  forallb cls (list_ascii_of_string s).

(** A string that is empty or starts outside the class: where a greedy
    repetition of the class stops. *)
Definition stops (cls : ascii -> bool) (rest : string) : Prop :=
  match rest with
  | EmptyString => True
  | String c _ => cls c = false
  end.

(** What a repetition of a class followed by [$] accepts: a body of the
    class, alone or followed by one newline. *)
Definition accepted_line (cls : ascii -> bool) (s body : string) : Prop :=
  all_chars cls body = true /\ (s = body \/ s = body ++ newline).

(** Whether the last character of a string is [x]. *)
Fixpoint ends_with_char (x : ascii) (s : string) : bool :=
  match s with
  | EmptyString => false
  | String c EmptyString => Ascii.eqb c x
  | String _ s' => ends_with_char x s'
  end.

(** [x * n]. *)
Fixpoint repeat_char (x : ascii) (n : nat) : string :=
  match n with
  | O => EmptyString
  | S n' => String x (repeat_char x n')
  end.

(** The character class [[0-9a-fA-F]]. *)
Definition is_hex (c : ascii) : bool :=
  let n := code c in
  (((48 <=? n) && (n <=? 57)) || ((97 <=? n) && (n <=? 102))
   || ((65 <=? n) && (n <=? 70)))%N.

(** ** Client address and rate limiter ([app/dependencies.py]) *)

(** What [get_client_ip] reads of a request: the [X-Forwarded-For] header
    and the host of [request.client], each possibly absent. *)
Record Request : Type := mkRequest {
  x_forwarded_for : option string;
  client_host : option string
}.

(** [s.split(",")[0]]: the text before the first comma. *)
Fixpoint before_comma (s : string) : string :=
  match s with
  | EmptyString => EmptyString
  | String c s' =>
      if Ascii.eqb c "," then EmptyString else String c (before_comma s')
  end.

(** [get_client_ip]. *)
Definition get_client_ip (request : Request) : string :=
  match x_forwarded_for request with
  | Some forwarded =>
      if negb (String.eqb forwarded "") then strip (before_comma forwarded)
      else match client_host request with
           | Some host => host
           | None => "unknown"
           end
  | None =>
      match client_host request with
      | Some host => host
      | None => "unknown"
      end
  end.

(** [window = 60]. *)
Definition window : Q := 60.

(** [check_rate_limit] on the module store [_rate_limit_store], with the
    key [rate_limit_key(request)] (a truncated SHA-256 digest, not
    modelled), the clock [time.time()] and the limit
    [settings.rate_limit_per_minute] as arguments.  Time stamps are exact
    numbers: the rounding of [now - t] is not modelled. *)
Definition check_rate_limit (key : string) (now : Q)
    (rate_limit_per_minute : Z) (store : gmap string (list Q))
  : result unit * gmap string (list Q) :=
  let cleaned :=
    match store !! key with
    | Some l => List.filter (fun t => Qlt_bool (now - t) window) l
    | None => []
    end in
  let store := <[key := cleaned]> store in
  if rate_limit_per_minute <=? Z.of_nat (length cleaned)
  then (Raise (RateLimitError 60), store)
  else (Ok tt, <[key := (cleaned ++ [now])%list]> store).

(** A sequence of requests under one key, at the given times: which of
    them the limiter lets through, and the store afterwards. *)
Fixpoint serve (key : string) (rate_limit_per_minute : Z) (times : list Q)
    (store : gmap string (list Q)) : list bool * gmap string (list Q) :=
  match times with
  | [] => ([], store)
  | now :: rest =>
      let (r, store1) := check_rate_limit key now rate_limit_per_minute store in
      let (flags, store2) := serve key rate_limit_per_minute rest store1 in
      (match r with Ok _ => true | Raise _ => false end :: flags, store2)
  end.

(** Whether the first character of a string is white space. *)
Definition starts_with_space (s : string) : bool :=
  match s with
  | EmptyString => false
  | String c _ => is_space c
  end.

Definition not_comma (c : ascii) : bool := negb (Ascii.eqb c ",").

(** The stamps of a key, none for a key the store has not seen. *)
Definition stamps (key : string) (store : gmap string (list Q)) : list Q :=
  match store !! key with
  | Some l => l
  | None => []
  end.


(** More sample worlds: a working store and a provider that has a small
    analysis and empty features for every track; the same before
    [connect_db] has run; and a provider that answers every request with
    status 401. *)
Definition serving_world : World :=
  mkWorld true ∅ None None 0
          (fun _ endpoint =>
             if String.prefix "/audio-analysis/" endpoint
             then Response 200 [] (Some small_analysis)
             else Response 200 [] (Some (VDict []))) [].

Definition unconnected_world : World :=
  mkWorld false ∅ None None 0 (upstream serving_world) [].

Definition expired_token_world : World :=
  mkWorld true ∅ None None 0 (fun _ _ => Response 401 [] None) [].

(** ** Cache statistics ([app/db/mongodb.py]) *)

(** [db.analysis_cache.count_documents({})].  The exception the driver
    raises on this command, if any, is an argument. *)
Definition count_documents (fault : option exn) : M Z :=
  fun w =>
    match fault with
    | Some e => (Raise e, w)
    | None => (Ok (Z.of_nat (size (analysis_cache w))), w)
    end.

(** [get_cache_stats]. *)
Definition get_cache_stats (fault : option exn) : M value :=
  do _ <- get_db;
  try_except
    (do count <- count_documents fault;
     ret (VDict [("cached_tracks", VInt count)]))
    (fun _ => ret (VDict [("cached_tracks", VInt (-1))])).

(** ** Features and playback endpoints ([app/routers/spotify.py]) *)

Module AudioFeatures.
Record t : Type :=
  mk { tempo : Q; energy : Q; danceability : Q; valence : Q }.
End AudioFeatures.

Module TrackInfo.
Record t : Type :=
  mk { id : string; name : string; artist : string; album : string;
       album_art : option string; duration_ms : Z }.
End TrackInfo.

Module PlaybackState.
Record t : Type :=
  mk { is_playing : bool; progress_ms : Z; track : option TrackInfo.t }.
End PlaybackState.

(** [k in s] for strings. *)
Fixpoint is_substring (k s : string) : bool :=
  String.prefix k s
  || match s with
     | EmptyString => false
     | String _ s' => is_substring k s'
     end.

(** [k in o] for a string [k]: a key of a [dict], an item of a [list], a
    substring of a [str]; anything else is not a container. *)
Definition py_contains (o : value) (k : string) : result bool :=
  match o with
  | VDict d => Ok (match assoc k d with Some _ => true | None => false end)
  | VList l =>
      Ok (existsb (fun v => match v with
                            | VStr s => String.eqb s k
                            | _ => false
                            end) l)
  | VStr s => Ok (is_substring k s)
  | _ => Raise TypeError
  end.

(** [o[0][k] if o else dflt].  A truthy list has a first item; a truthy
    string has a first character, which a string key cannot index; a dict
    of a JSON payload has no key [0]; a number cannot be indexed. *)
Definition first_item_field (o : value) (k : string) (dflt : value)
  : result value :=
  if negb (truthy o) then Ok dflt
  else
    match o with
    | VList (x :: _) => py_getitem x k
    | VDict _ => Raise (KeyError "0")
    | _ => Raise TypeError
    end.

Section Endpoints.

Variable lax_float : value -> option Q.
Variable lax_int : value -> option Z.

(** The lax-mode conversion of a value that is not a [bool] given to a
    [bool] field is a parameter, like the other two. *)
Variable lax_bool : value -> option bool.

(** A [bool] field. *)
Definition as_bool (v : value) : result bool :=
  match v with
  | VBool b => Ok b
  | VInt _ | VFloat _ | VStr _ => of_option ValidationError (lax_bool v)
  | VNone | VList _ | VDict _ => Raise ValidationError
  end.

(** An [Optional[str]] field. *)
Definition as_optional_str (v : value) : result (option string) :=
  match v with
  | VNone => Ok None
  | VStr s => Ok (Some s)
  | _ => Raise ValidationError
  end.

(** [AudioFeatures(tempo=.., energy=.., danceability=.., valence=..)]. *)
Definition AudioFeatures_new (tempo energy danceability valence : value)
  : result AudioFeatures.t :=
  let* t := as_float lax_float tempo in
  let* e := as_float lax_float energy in
  let* d := as_float lax_float danceability in
  let* v := as_float lax_float valence in
  let* _ := check (gt 0 t && ge 0 e && le 1 e && ge 0 d && le 1 d
                   && ge 0 v && le 1 v) in
  Ok (AudioFeatures.mk t e d v).

(** The [return AudioFeatures(..)] of [get_features]. *)
Definition AudioFeatures_of (features : value) : result AudioFeatures.t :=
  let* tempo := py_get features "tempo" (VInt 120) in
  let* energy := py_get features "energy" (VFloat (1 # 2)) in
  let* danceability := py_get features "danceability" (VFloat (1 # 2)) in
  let* valence := py_get features "valence" (VFloat (1 # 2)) in
  AudioFeatures_new tempo energy danceability valence.

(** [get_features(_, token, track_id)]. *)
Definition get_features (token track_id : string) : M AudioFeatures.t :=
  if negb (String.length track_id =? 22)%nat then raise RequestValidationError
  else
    do track_id <- lift (validate_track_id_param track_id);
    do features <- get_audio_features token track_id;
    if negb (truthy features) then raise (NotFoundError "Track features")
    else lift (AudioFeatures_of features).

(** [TrackInfo(id=.., name=.., artist=.., album=.., album_art=..,
    duration_ms=..)], with [duration_ms: int = Field(..., gt=0)]. *)
Definition TrackInfo_new (id name artist album album_art duration_ms : value)
  : result TrackInfo.t :=
  let* i := as_str id in
  let* n := as_str name in
  let* ar := as_str artist in
  let* al := as_str album in
  let* art := as_optional_str album_art in
  let* d := as_int lax_int duration_ms in
  let* _ := check (0 <? d) in
  Ok (TrackInfo.mk i n ar al art d).

(** [extract_track_info]. *)
Definition extract_track_info (track_data : value) : result TrackInfo.t :=
  let* artists := py_get track_data "artists" (VList []) in
  let* artist_name := first_item_field artists "name" (VStr "Unknown Artist") in
  let* album := py_get track_data "album" (VDict []) in
  let* images := py_get album "images" (VList []) in
  let* album_art := first_item_field images "url" VNone in
  let* id := py_getitem track_data "id" in
  let* name := py_get track_data "name" (VStr "Unknown Track") in
  let* album_name := py_get album "name" (VStr "Unknown Album") in
  let* duration_ms := py_get track_data "duration_ms" (VInt 0) in
  TrackInfo_new id name artist_name album_name album_art duration_ms.

(** [PlaybackState(is_playing=.., progress_ms=.., track=..)], with
    [progress_ms: int = Field(..., ge=0)] and the track already built. *)
Definition PlaybackState_new (is_playing progress_ms : value)
    (track : option TrackInfo.t) : result PlaybackState.t :=
  let* p := as_bool is_playing in
  let* ms := as_int lax_int progress_ms in
  let* _ := check (0 <=? ms) in
  Ok (PlaybackState.mk p ms track).

Definition get_current_playback (token : string) : M value :=
  _make_request token "/me/player/currently-playing".

(** [get_playback(_, token)]; the result is [Optional[PlaybackState]]. *)
Definition get_playback (token : string) : M (option PlaybackState.t) :=
  do data <- get_current_playback token;
  if negb (truthy data) then ret None
  else
    do has_item <- lift (py_contains data "item");
    if negb has_item then ret None
    else
      do track <- lift (py_get data "item" VNone);
      if negb (truthy track)
      then
        do is_playing <- lift (py_get data "is_playing" (VBool false));
        do progress_ms <- lift (py_get data "progress_ms" (VInt 0));
        do state <- lift (PlaybackState_new is_playing progress_ms None);
        ret (Some state)
      else
        do is_playing <- lift (py_get data "is_playing" (VBool false));
        do progress_ms <- lift (py_get data "progress_ms" (VInt 0));
        do info <- lift (extract_track_info track);
        do state <- lift (PlaybackState_new is_playing progress_ms (Some info));
        ret (Some state).

End Endpoints.

(** ** Token exchange ([app/services/spotify_service.py]) and OAuth
    endpoints ([app/routers/auth.py]) *)

(** [SpotifyAuthError()]. *)
Definition SpotifyAuthError_default : exn :=
  SpotifyAuthError "Authentication failed".

(** The body of the two [try] blocks once [client.post] has answered:
    [httpx.TimeoutException] is a subclass of [httpx.RequestError], the one
    exception caught here; the status of the response is not looked at. *)
Definition post_json (post : http_outcome) : result value :=
  match post with
  | Response _ _ json => of_option JSONDecodeError json
  | TimeoutException | RequestError => Raise SpotifyAPIError_default
  end.

(** [exchange_code_for_token(code)], with what [client.post] gives back as
    an argument.  The log line of the ["error"] branch evaluates
    [data.get('error')], which raises when [data] is not a [dict]. *)
Definition exchange_code_for_token (code : string) (post : http_outcome)
  : result value :=
  if String.eqb code "" || (String.length code <? 10)%nat
  then Raise (SpotifyAuthError "Invalid authorization code")
  else
    let* data := post_json post in
    let* has_error := py_contains data "error" in
    if has_error then
      let* _ := py_get data "error" VNone in
      Raise (SpotifyAuthError "Authorization failed. Please try again.")
    else
      let* has_token := py_contains data "access_token" in
      if negb has_token then Raise SpotifyAuthError_default
      else Ok data.

(** [refresh_access_token(refresh_token)]. *)
Definition refresh_access_token (refresh_token : string) (post : http_outcome)
  : result value :=
  if String.eqb refresh_token "" || (String.length refresh_token <? 20)%nat
  then Raise (SpotifyAuthError "Invalid refresh token")
  else
    let* data := post_json post in
    let* has_error := py_contains data "error" in
    if has_error then
      let* _ := py_get data "error" VNone in
      Raise (SpotifyAuthError "Session expired. Please log in again.")
    else Ok data.

Module TokenResponse.
Record t : Type :=
  mk { access_token : string; token_type : string; expires_in : Z }.
End TokenResponse.

Section Auth.

Variable lax_int : value -> option Z.

(** [TokenResponse(access_token=.., token_type=.., expires_in=..)]. *)
Definition TokenResponse_new (access_token token_type expires_in : value)
  : result TokenResponse.t :=
  let* a := as_str access_token in
  let* t := as_str token_type in
  let* e := as_int lax_int expires_in in
  Ok (TokenResponse.mk a t e).

(** [POST /auth/refresh]: the body model [RefreshTokenRequest] is built by
    the framework, which answers 422 when it is invalid; then the body of
    [refresh_token] runs.  The rate-limit dependency is not part of the
    model. *)
Definition refresh_token (body_refresh_token : string) (post : http_outcome)
  : result TokenResponse.t :=
  match RefreshTokenRequest_new body_refresh_token with
  | Raise _ => Raise RequestValidationError
  | Ok request_refresh_token =>
      let* token_data := refresh_access_token request_refresh_token post in
      let* access_token := py_getitem token_data "access_token" in
      let* expires_in := py_get token_data "expires_in" (VInt 3600) in
      TokenResponse_new access_token (VStr "Bearer") expires_in
  end.

End Auth.

(** Where [callback] redirects to: one of the error pages of the frontend,
    by its URL, or the frontend's callback page with the two values passed
    to [urlencode] and the value of the [spotify_refresh] cookie, if set. *)
Inductive redirect : Type :=
| RedirectTo (url : string)
| RedirectWithToken (frontend_url : string) (access_token expires_in : value)
                    (spotify_refresh : option value).

(** [GET /auth/callback] on the module store [_pending_states], with the
    three query parameters, [settings.frontend_url] and what [client.post]
    would give back as arguments.  [code: str = Query(None, min_length=10,
    max_length=500)] is checked by the framework before the body runs. *)
Definition callback (code state error : option string) (frontend_url : string)
    (post : http_outcome) (pending : gmap string Q)
  : result redirect * gmap string Q :=
  if match code with
     | Some c => (String.length c <? 10)%nat || (500 <? String.length c)%nat
     | None => false
     end
  then (Raise RequestValidationError, pending)
  else if match error with
          | Some e => negb (String.eqb e "")
          | None => false
          end
  then (Ok (RedirectTo (frontend_url ++ "?error=auth_denied")), pending)
  else
    match code with
    | None => (Ok (RedirectTo (frontend_url ++ "?error=missing_code")), pending)
    | Some c =>
        if String.eqb c ""
        then (Ok (RedirectTo (frontend_url ++ "?error=missing_code")), pending)
        else
          match validate_state_param state with
          | None =>
              (Ok (RedirectTo (frontend_url ++ "?error=invalid_state")),
               pending)
          | Some validated_state =>
              match pending !! validated_state with
              | None =>
                  (Ok (RedirectTo (frontend_url ++ "?error=invalid_state")),
                   pending)
              | Some _ =>
                  let pending := delete validated_state pending in
                  match exchange_code_for_token c post with
                  | Raise (SpotifyAuthError _) =>
                      (Ok (RedirectTo
                             (frontend_url ++ "?error=token_exchange_failed")),
                       pending)
                  | Raise e => (Raise e, pending)
                  | Ok token_data =>
                      (let* access_token :=
                         py_getitem token_data "access_token" in
                       let* expires_in := py_getitem token_data "expires_in" in
                       let* has_refresh :=
                         py_contains token_data "refresh_token" in
                       if has_refresh then
                         let* refresh :=
                           py_getitem token_data "refresh_token" in
                         Ok (RedirectWithToken frontend_url access_token
                                               expires_in (Some refresh))
                       else
                         Ok (RedirectWithToken frontend_url access_token
                                               expires_in None),
                       pending)
                  end
              end
          end
    end.

(** The state bookkeeping of [GET /auth/login]: the fresh state
    [secrets.token_urlsafe(32)] and the two readings of [time.time()] are
    arguments.  The state is stored, then every state older than ten
    minutes is deleted. *)
Definition login_states (state : string) (now now' : Q)
    (pending : gmap string Q) : gmap string Q :=
  let pending := <[state := now]> pending in
  let cutoff := (now' - 600)%Q in
  filter (fun kv => Qlt_bool (snd kv) cutoff = false) pending.

(** * Properties *)

(** ** Validator *)

Lemma rstrip_ends_with_space (s : string) : ends_with_space (rstrip s) = false.
Proof.
  induction s as [|c s IH]; simpl; [reflexivity|].
  destruct (rstrip s) as [|c' r] eqn:Hr.
  - destruct (is_space c) eqn:Hc; simpl; [reflexivity | exact Hc].
  - exact IH.
Qed.

Lemma strip_ends_with_space (s : string) : ends_with_space (strip s) = false.
Proof. apply rstrip_ends_with_space. Qed.

Lemma match_class_n_suffix (cls : ascii -> bool) (n : nat) :
  forall s rest,
    match_class_n cls n s = Some rest ->
    rest <> EmptyString ->
    ends_with_space rest = ends_with_space s.
Proof.
  induction n as [|n IH]; intros s rest H Hne; simpl in H.
  - congruence.
  - destruct s as [|c s]; [discriminate|].
    destruct (cls c); [|discriminate].
    rewrite (IH _ _ H Hne).
    destruct s as [|c' s'].
    + destruct n; simpl in H; [congruence | discriminate].
    + reflexivity.
Qed.

Lemma match_class_n_all (cls : ascii -> bool) (n : nat) :
  forall s,
    match_class_n cls n s = Some EmptyString <->
    (String.length s = n /\ forallb cls (list_ascii_of_string s) = true).
Proof.
  induction n as [|n IH]; intros s; simpl.
  - destruct s; simpl; split.
    + intros _; split; reflexivity.
    + reflexivity.
    + discriminate.
    + intros [H _]; discriminate.
  - destruct s as [|c s]; simpl.
    + split; [discriminate | intros [H _]; discriminate].
    + destruct (cls c); simpl.
      * rewrite IH. split; intros [H1 H2]; split; congruence.
      * split; [discriminate | intros [_ H]; discriminate].
Qed.

Lemma at_dollar_newline (rest : string) :
  at_dollar rest = true -> rest <> EmptyString -> ends_with_space rest = true.
Proof.
  destruct rest as [|c [|c' r]]; simpl; intros H Hne; try congruence.
  unfold is_space. apply N.eqb_eq in H. rewrite H. reflexivity.
Qed.

(** After [strip] the pattern's [$] can only stand at the very end, so
    [re.match] accepts exactly the strings of twenty-two base62 characters. *)
Lemma re_match_track_id_strip (s : string) :
  re_match_track_id (strip s) = is_track_identifier (strip s).
Proof.
  unfold re_match_track_id, is_track_identifier.
  destruct (match_class_n is_base62 22 (strip s)) as [rest|] eqn:Hm.
  - destruct rest as [|c r].
    + apply match_class_n_all in Hm as [Hl Hf].
      rewrite Hl, Hf. reflexivity.
    + assert (Hne : String c r <> EmptyString) by discriminate.
      pose proof (match_class_n_suffix _ _ _ _ Hm Hne) as Hs.
      rewrite strip_ends_with_space in Hs.
      destruct (at_dollar (String c r)) eqn:Hd.
      * apply at_dollar_newline in Hd; [congruence | exact Hne].
      * symmetry. apply not_true_is_false. intros Ht.
        apply andb_true_iff in Ht as [Hl Hf].
        apply Nat.eqb_eq in Hl.
        assert (Hall : match_class_n is_base62 22 (strip s) = Some EmptyString)
          by (apply match_class_n_all; split; assumption).
        congruence.
  - symmetry. apply not_true_is_false. intros Ht.
    apply andb_true_iff in Ht as [Hl Hf].
    apply Nat.eqb_eq in Hl.
    assert (Hall : match_class_n is_base62 22 (strip s) = Some EmptyString)
      by (apply match_class_n_all; split; assumption).
    congruence.
Qed.

Lemma is_track_identifier_nonempty (s : string) :
  is_track_identifier (strip s) = true -> s <> EmptyString.
Proof. intros H ->. discriminate H. Qed.

(** C9. Track identifier validation: both validators trim the input and
    accept it exactly when the trimmed string consists of twenty-two base62
    characters; an accepted input yields the trimmed string unchanged, and
    any other input raises the invalid-identifier error
    ([InvalidTrackError], HTTP 400, in the router; [ValueError] in
    [app/dependencies.py]). *)
Theorem validate_track_id_trim_base62 (s : string) :
  validate_track_id_param s =
    (if is_track_identifier (strip s) then Ok (strip s)
     else Raise InvalidTrackError)
  /\ validate_track_id (VStr s) =
    (if is_track_identifier (strip s) then Ok (strip s)
     else Raise (ValueError (if String.eqb s "" then "Track ID required"
                             else "Invalid track ID format")))
  /\ status_code InvalidTrackError = 400.
Proof.
  split; [|split; [|reflexivity]].
  - unfold validate_track_id_param.
    rewrite re_match_track_id_strip.
    destruct (is_track_identifier (strip s)); reflexivity.
  - unfold validate_track_id.
    destruct (String.eqb s "") eqn:He.
    + apply String.eqb_eq in He. subst s. reflexivity.
    + rewrite re_match_track_id_strip.
      destruct (is_track_identifier (strip s)); reflexivity.
Qed.

Example validate_track_id_param_trims :
  validate_track_id_param "  4uLU6hMCjMI75M1A2tKUQC  " = Ok "4uLU6hMCjMI75M1A2tKUQC".
Proof. reflexivity. Qed.

Example validate_track_id_param_short :
  validate_track_id_param "4uLU6hMCjMI75M1A2tKUQ" = Raise InvalidTrackError.
Proof. reflexivity. Qed.

Example validate_track_id_param_trailing_newline :
  validate_track_id_param ("4uLU6hMCjMI75M1A2tKUQC" ++ newline)
  = Ok "4uLU6hMCjMI75M1A2tKUQC".
Proof. reflexivity. Qed.

(** ** Transformer *)

Lemma bind_Ok {A B : Type} (c : result A) (k : A -> result B) (b : B) :
  bind c k = Ok b -> exists a, c = Ok a /\ k a = Ok b.
Proof. destruct c as [a|e]; simpl; [eauto | discriminate]. Qed.

Ltac inv_bind H :=
  let x := fresh "x" in
  let Hx := fresh "H" x in
  apply bind_Ok in H as (x & Hx & H).

Ltac inv_bind_as H x Hx := apply bind_Ok in H as (x & Hx & H).

Lemma mapM_Forall2 {A B : Type} (f : A -> result B) :
  forall l out, mapM f l = Ok out -> Forall2 (fun a b => f a = Ok b) l out.
Proof.
  induction l as [|a l IH]; intros out H; simpl in H.
  - injection H as <-. constructor.
  - inv_bind H. inv_bind H. injection H as <-.
    constructor; [assumption | apply IH; assumption].
Qed.

Lemma mapM_total {A B : Type} (f : A -> result B) :
  forall l, Forall (fun a => exists b, f a = Ok b) l -> exists out, mapM f l = Ok out.
Proof.
  induction l as [|a l IH]; intros H; simpl.
  - eauto.
  - inversion H as [|? ? [b Hb] Hl]; subst.
    destruct (IH Hl) as [out Hout]. rewrite Hb, Hout. simpl. eauto.
Qed.

Lemma chars_firstn (n : nat) :
  forall s, chars (substring 0 n s) = firstn n (chars s).
Proof.
  induction n as [|n IH]; intros s.
  - destruct s; reflexivity.
  - destruct s as [|c s]; [reflexivity|].
    unfold chars in *. simpl. f_equal. apply IH.
Qed.

(** Iterating over [o[:n]] visits the first [n] items of [o]. *)
Lemma py_iter_slice (n : nat) (o c : value) :
  py_slice_to n o = Ok c ->
  exists items, py_iter o = Ok items /\ py_iter c = Ok (firstn n items).
Proof.
  destruct o; simpl; intros H; try discriminate; injection H as <-; simpl.
  - eexists; split; [reflexivity|]. f_equal. apply chars_firstn.
  - eexists; split; reflexivity.
Qed.

Lemma Qlt_bool_lt (x y : Q) : Qlt_bool x y = true -> (x < y)%Q.
Proof.
  unfold Qlt_bool. intros H. apply negb_true_iff in H.
  apply Qnot_le_lt. intros Hle. apply Qle_bool_iff in Hle. congruence.
Qed.

Lemma py_gt_number (c : value) (q : Q) :
  py_gt c q = Ok true -> exists x, number_of c = Some x /\ (q < x)%Q.
Proof.
  destruct c; simpl; intros H; try discriminate; injection H as H;
    eexists; (split; [reflexivity | apply Qlt_bool_lt; exact H]).
Qed.

Section TransformerFacts.

Variable lax_float : value -> option Q.
Variable lax_int : value -> option Z.

Lemma beats_of_filter :
  forall raw out,
    beats_of lax_float raw = Ok out ->
    Forall2 (fun b o => beat_of lax_float b = Ok o)
            (List.filter beat_passes raw) out.
Proof.
  induction raw as [|b raw IH]; intros out H; simpl in H.
  - injection H as <-. constructor.
  - inv_bind H. simpl. unfold beat_passes at 1. rewrite Hx.
    destruct x.
    + inv_bind H. inv_bind H. injection H as <-.
      constructor; [assumption | apply IH; assumption].
    + apply IH; assumption.
Qed.

(** A kept beat carries a [confidence] that is a number above the
    threshold. *)
Lemma beat_passes_confidence (b : value) (o : BeatData.t) :
  beat_passes b = true ->
  beat_of lax_float b = Ok o ->
  exists c x, py_getitem b "confidence" = Ok c
              /\ number_of c = Some x /\ (float_0_3 < x)%Q.
Proof.
  unfold beat_passes, beat_keep, beat_of. intros Hp Ho.
  destruct b; simpl in *; try discriminate.
  destruct (assoc "start" d); simpl in Ho; [|discriminate].
  destruct (assoc "duration" d); simpl in Ho; [|discriminate].
  destruct (assoc "confidence" d) as [c|]; simpl in Ho; [|discriminate].
  destruct (py_gt c float_0_3) as [[|]|] eqn:Hgt; try discriminate.
  apply py_gt_number in Hgt as (x & Hn & Hlt).
  exists c, x. auto.
Qed.

Lemma process_analysis_parts (track_id : string) (analysis features : value)
      (r : AnalysisResponse.t) :
  process_analysis lax_float lax_int track_id analysis features = Ok r ->
  exists raw_beats raw_segments raw_sections,
    raw_items analysis "beats" = Ok raw_beats
    /\ raw_items analysis "segments" = Ok raw_segments
    /\ raw_items analysis "sections" = Ok raw_sections
    /\ beats_of lax_float raw_beats = Ok (AnalysisResponse.beats r)
    /\ mapM (segment_of lax_float) (firstn 2000 raw_segments)
       = Ok (AnalysisResponse.segments r)
    /\ mapM (section_of lax_float lax_int) raw_sections
       = Ok (AnalysisResponse.sections r)
    /\ AnalysisResponse.track_id r = track_id.
Proof.
  unfold process_analysis, raw_items. intros H.
  inv_bind H. rename x into rb, Hx into Hrb.
  inv_bind H. rename x into rbi, Hx into Hrbi.
  inv_bind H. rename x into bs, Hx into Hbs.
  inv_bind H. rename x into rs, Hx into Hrs.
  inv_bind H. rename x into cp, Hx into Hcp.
  inv_bind H. rename x into cpi, Hx into Hcpi.
  inv_bind H. rename x into sgs, Hx into Hsgs.
  inv_bind H. rename x into rsec, Hx into Hrsec.
  inv_bind H. rename x into rseci, Hx into Hrseci.
  inv_bind H. rename x into scs, Hx into Hscs.
  inv_bind H. inv_bind H. inv_bind H. inv_bind H. inv_bind H.
  unfold AnalysisResponse_new in H.
  inv_bind H. inv_bind H. inv_bind H. injection H as <-. simpl.
  apply py_iter_slice in Hcp as (items & Hitems & Hfirst).
  rewrite Hfirst in Hcpi. injection Hcpi as <-.
  exists rbi, items, rseci.
  rewrite Hrb, Hrs, Hrsec. simpl.
  repeat split; assumption.
Qed.

End TransformerFacts.

Section TransformerTotal.

Variable lax_float : value -> option Q.
Variable lax_int : value -> option Z.

Lemma as_float_num (v : value) :
  is_num v = true -> as_float lax_float v = Ok (num v).
Proof.
  destruct v; simpl; intros H; try discriminate; [rewrite H|]; reflexivity.
Qed.

Lemma mapM_as_float_num :
  forall l, forallb is_num l = true ->
            mapM (as_float lax_float) l = Ok (map num l).
Proof.
  induction l as [|v l IH]; simpl; intros H; [reflexivity|].
  apply andb_true_iff in H as [Hv Hl].
  rewrite (as_float_num _ Hv), (IH Hl). reflexivity.
Qed.

Lemma as_float_list_12_valid (v : value) :
  valid_floats_12 v = true ->
  as_float_list_12 lax_float v = Ok (nums v).
Proof.
  destruct v; simpl; intros H; try discriminate.
  apply andb_true_iff in H as [Hn Hl]. apply Nat.eqb_eq in Hl.
  unfold as_float_list_12. rewrite (mapM_as_float_num _ Hn). simpl.
  rewrite length_map, Hl. reflexivity.
Qed.

Lemma as_float_list_12_zeros :
  as_float_list_12 lax_float twelve_zeros = Ok (repeat (inject_Z 0) 12).
Proof. reflexivity. Qed.

Lemma required_Some (chk : value -> bool) (o : option value) :
  required chk o = true -> exists v, o = Some v /\ chk v = true.
Proof. destruct o; simpl; [eauto | discriminate]. Qed.

Lemma wf_beat_total (b : value) :
  wf_beat b = true ->
  (exists k, beat_keep b = Ok k) /\ (exists o, beat_of lax_float b = Ok o).
Proof.
  destruct b; simpl; try discriminate. intros H.
  apply andb_true_iff in H as [H Hc]. apply andb_true_iff in H as [Hs Hd].
  apply required_Some in Hs as (vs & Es & Hs).
  apply required_Some in Hd as (vd & Ed & Hd).
  apply required_Some in Hc as (vc & Ec & Hc).
  unfold valid_start in Hs. apply andb_true_iff in Hs as [Hs1 Hs2].
  unfold valid_duration in Hd. apply andb_true_iff in Hd as [Hd1 Hd2].
  unfold valid_confidence in Hc.
  apply andb_true_iff in Hc as [Hc Hc3]. apply andb_true_iff in Hc as [Hc1 Hc2].
  split.
  - unfold beat_keep. simpl. rewrite Ec.
    destruct vc; simpl in *; try discriminate; eauto.
  - unfold beat_of. simpl. rewrite Es, Ed, Ec. simpl.
    unfold BeatData_new.
    rewrite (as_float_num _ Hs1), (as_float_num _ Hd1), (as_float_num _ Hc1).
    simpl. rewrite Hs2, Hd2, Hc2, Hc3. simpl. eauto.
Qed.

Lemma beats_of_total :
  forall l, forallb wf_beat l = true ->
            exists out, beats_of lax_float l = Ok out.
Proof.
  induction l as [|b l IH]; simpl; intros H; [eauto|].
  apply andb_true_iff in H as [Hb Hl].
  destruct (wf_beat_total _ Hb) as [[k Hk] [o Ho]].
  destruct (IH Hl) as [out Hout].
  rewrite Hk. simpl. destruct k.
  - rewrite Ho, Hout. simpl. eauto.
  - eauto.
Qed.

(** A well-formed raw segment is built, and built as specified. *)
Lemma wf_segment_built (s : value) :
  wf_segment s = true ->
  exists o, spec_segment s = Some o /\ segment_of lax_float s = Ok o.
Proof.
  destruct s; simpl; try discriminate. intros H.
  apply andb_true_iff in H as [H Ht]. apply andb_true_iff in H as [H Hp].
  apply andb_true_iff in H as [H Hl]. apply andb_true_iff in H as [Hs Hd].
  apply required_Some in Hs as (vs & Es & Hs).
  apply required_Some in Hd as (vd & Ed & Hd).
  unfold valid_start in Hs. apply andb_true_iff in Hs as [Hs1 Hs2].
  unfold valid_duration in Hd. apply andb_true_iff in Hd as [Hd1 Hd2].
  rewrite Es, Ed. eexists. split; [reflexivity|].
  unfold segment_of. simpl. rewrite Es, Ed. simpl.
  unfold SegmentData_new.
  rewrite (as_float_num _ Hs1), (as_float_num _ Hd1). simpl.
  assert (Hloud :
            as_float lax_float
              match assoc "loudness_start" d with
              | Some v => v
              | None => match assoc "loudness" d with
                        | Some v => v
                        | None => VInt (-60)
                        end
              end
            = Ok match assoc "loudness_start" d with
                 | Some v => num v
                 | None => match assoc "loudness" d with
                           | Some v => num v
                           | None => inject_Z (-60)
                           end
                 end).
  { destruct (assoc "loudness_start" d) as [v|].
    - apply as_float_num; assumption.
    - destruct (assoc "loudness" d) as [v|]; simpl in Hl.
      + apply as_float_num; assumption.
      + reflexivity. }
  rewrite Hloud. simpl.
  assert (Hpit :
            as_float_list_12 lax_float
              match assoc "pitches" d with
              | Some v => v
              | None => twelve_zeros
              end
            = Ok match assoc "pitches" d with
                 | Some v => nums v
                 | None => repeat (inject_Z 0) 12
                 end).
  { destruct (assoc "pitches" d) as [v|]; simpl in Hp.
    - apply as_float_list_12_valid; assumption.
    - apply as_float_list_12_zeros. }
  rewrite Hpit. simpl.
  assert (Htim :
            as_float_list_12 lax_float
              match assoc "timbre" d with
              | Some v => v
              | None => twelve_zeros
              end
            = Ok match assoc "timbre" d with
                 | Some v => nums v
                 | None => repeat (inject_Z 0) 12
                 end).
  { destruct (assoc "timbre" d) as [v|]; simpl in Ht.
    - apply as_float_list_12_valid; assumption.
    - apply as_float_list_12_zeros. }
  rewrite Htim. simpl.
  rewrite Hs2, Hd2. reflexivity.
Qed.

Lemma wf_segment_total (s : value) :
  wf_segment s = true -> exists o, segment_of lax_float s = Ok o.
Proof.
  intros H. destruct (wf_segment_built _ H) as (o & _ & Ho). eauto.
Qed.

End TransformerTotal.

Section TransformerClaims.

Variable lax_float : value -> option Q.
Variable lax_int : value -> option Z.

Lemma as_int_between (lo hi : Z) (v : value) :
  valid_int_between lo hi v = true ->
  as_int lax_int v = Ok (int_of v)
  /\ ge_int lo (int_of v) = true /\ le_int hi (int_of v) = true.
Proof.
  destruct v; simpl; try discriminate. intros H.
  apply andb_true_iff in H as [H1 H2]. auto.
Qed.

(** A well-formed raw section is built, and built as specified. *)
Lemma wf_section_built (s : value) :
  wf_section s = true ->
  exists o, spec_section s = Some o /\ section_of lax_float lax_int s = Ok o.
Proof.
  destruct s; simpl; try discriminate. intros H.
  apply andb_true_iff in H as [H Hl]. apply andb_true_iff in H as [H Hm].
  apply andb_true_iff in H as [H Hk]. apply andb_true_iff in H as [H Ht].
  apply andb_true_iff in H as [Hs Hd].
  apply required_Some in Hs as (vs & Es & Hs).
  apply required_Some in Hd as (vd & Ed & Hd).
  unfold valid_start in Hs. apply andb_true_iff in Hs as [Hs1 Hs2].
  unfold valid_duration in Hd. apply andb_true_iff in Hd as [Hd1 Hd2].
  rewrite Es, Ed. eexists. split; [reflexivity|].
  unfold section_of. simpl. rewrite Es, Ed. simpl.
  unfold SectionData_new.
  rewrite (as_float_num _ _ Hs1), (as_float_num _ _ Hd1). simpl.
  assert (Htempo :
            as_float lax_float
              match assoc "tempo" d with Some v => v | None => VInt 120 end
            = Ok match assoc "tempo" d with
                 | Some v => num v
                 | None => inject_Z 120
                 end
            /\ gt 0 match assoc "tempo" d with
                    | Some v => num v
                    | None => inject_Z 120
                    end = true).
  { destruct (assoc "tempo" d) as [v|]; simpl in Ht.
    - unfold valid_tempo in Ht. apply andb_true_iff in Ht as [Ht1 Ht2].
      split; [apply as_float_num; assumption | assumption].
    - split; reflexivity. }
  destruct Htempo as [Htempo Hq]. rewrite Htempo. simpl.
  assert (Hkey :
            as_int lax_int
              match assoc "key" d with Some v => v | None => VInt (-1) end
            = Ok match assoc "key" d with
                 | Some v => int_of v
                 | None => -1
                 end
            /\ ge_int (-1) match assoc "key" d with
                           | Some v => int_of v
                           | None => -1
                           end = true
            /\ le_int 11 match assoc "key" d with
                         | Some v => int_of v
                         | None => -1
                         end = true).
  { destruct (assoc "key" d) as [v|]; simpl in Hk.
    - apply as_int_between; assumption.
    - repeat split; reflexivity. }
  destruct Hkey as (Hkey & Hk1 & Hk2). rewrite Hkey. simpl.
  assert (Hmode :
            as_int lax_int
              match assoc "mode" d with Some v => v | None => VInt 0 end
            = Ok match assoc "mode" d with
                 | Some v => int_of v
                 | None => 0
                 end
            /\ ge_int 0 match assoc "mode" d with
                        | Some v => int_of v
                        | None => 0
                        end = true
            /\ le_int 1 match assoc "mode" d with
                        | Some v => int_of v
                        | None => 0
                        end = true).
  { destruct (assoc "mode" d) as [v|]; simpl in Hm.
    - apply as_int_between; assumption.
    - repeat split; reflexivity. }
  destruct Hmode as (Hmode & Hm1 & Hm2). rewrite Hmode. simpl.
  assert (Hloud :
            as_float lax_float
              match assoc "loudness" d with Some v => v | None => VInt (-10) end
            = Ok match assoc "loudness" d with
                 | Some v => num v
                 | None => inject_Z (-10)
                 end).
  { destruct (assoc "loudness" d) as [v|]; simpl in Hl.
    - apply as_float_num; assumption.
    - reflexivity. }
  rewrite Hloud. simpl.
  rewrite Hs2, Hd2, Hq, Hk1, Hk2, Hm1, Hm2. reflexivity.
Qed.

Lemma wf_section_total (s : value) :
  wf_section s = true -> exists o, section_of lax_float lax_int s = Ok o.
Proof.
  intros H. destruct (wf_section_built _ H) as (o & _ & Ho). eauto.
Qed.

(** A list of well-formed records is built item by item as specified. *)
Lemma forallb_built {B : Type} (chk : value -> bool)
      (f : value -> result B) (g : value -> option B) :
  (forall v, chk v = true -> exists o, g v = Some o /\ f v = Ok o) ->
  forall l out,
    forallb chk l = true -> mapM f l = Ok out ->
    Forall2 (fun s o => g s = Some o) l out.
Proof.
  intros Hf. induction l as [|v l IH]; intros out Hl H; simpl in H.
  - injection H as <-. constructor.
  - simpl in Hl. apply andb_true_iff in Hl as [Hv Hl].
    inv_bind_as H b Hb. inv_bind_as H bs Hbs. injection H as <-.
    destruct (Hf _ Hv) as (o & Hg & Ho).
    rewrite Ho in Hb. injection Hb as <-.
    constructor; [exact Hg | apply IH; assumption].
Qed.

(** The raw lists of a well-formed analysis payload. *)
Lemma wf_analysis_segments (analysis : value) (raw : list value) :
  wf_analysis analysis = true ->
  raw_items analysis "segments" = Ok raw ->
  forallb wf_segment (firstn 2000 raw) = true.
Proof.
  destruct analysis as [| | | | | |a]; simpl; try discriminate.
  intros H. apply andb_true_iff in H as [H _]. apply andb_true_iff in H as [H _].
  apply andb_true_iff in H as [_ H].
  unfold raw_items. simpl.
  destruct (assoc "segments" a) as [v|]; simpl in H |- *.
  - destruct v; simpl in H |- *; try discriminate.
    intros E. injection E as <-. exact H.
  - intros E. injection E as <-. reflexivity.
Qed.

Lemma wf_analysis_sections (analysis : value) (raw : list value) :
  wf_analysis analysis = true ->
  raw_items analysis "sections" = Ok raw ->
  forallb wf_section raw = true.
Proof.
  destruct analysis as [| | | | | |a]; simpl; try discriminate.
  intros H. apply andb_true_iff in H as [H _]. apply andb_true_iff in H as [_ H].
  unfold raw_items. simpl.
  destruct (assoc "sections" a) as [v|]; simpl in H |- *.
  - destruct v; simpl in H |- *; try discriminate.
    intros E. injection E as <-. exact H.
  - intros E. injection E as <-. reflexivity.
Qed.

Lemma forallb_total {B : Type} (chk : value -> bool) (f : value -> result B) :
  (forall v, chk v = true -> exists o, f v = Ok o) ->
  forall l, forallb chk l = true -> exists out, mapM f l = Ok out.
Proof.
  intros Hf l Hl. apply mapM_total.
  apply List.Forall_forall. intros v Hv. apply Hf.
  rewrite forallb_forall in Hl. apply Hl. exact Hv.
Qed.

(** On well-formed payloads the transformer returns. *)
Lemma process_analysis_total (track_id : string) (analysis features : value) :
  wf_analysis analysis = true ->
  wf_features features = true ->
  exists r, process_analysis lax_float lax_int track_id analysis features = Ok r.
Proof.
  intros Ha Hf.
  destruct analysis as [| | | | | |a]; simpl in Ha; try discriminate.
  destruct features as [| | | | | |f]; simpl in Hf; try discriminate.
  apply andb_true_iff in Ha as [Ha Htr]. apply andb_true_iff in Ha as [Ha Hsc].
  apply andb_true_iff in Ha as [Hb Hsg].
  apply andb_true_iff in Hf as [Hft Hfe].
  unfold process_analysis. simpl.
  (* beats *)
  assert (Hbeats : exists items out,
             py_iter match assoc "beats" a with Some v => v | None => VList [] end
             = Ok items /\ beats_of lax_float items = Ok out).
  { destruct (assoc "beats" a) as [v|]; simpl in Hb.
    - destruct v; simpl in Hb; try discriminate.
      destruct (beats_of_total lax_float _ Hb) as [out Hout].
      simpl. eauto.
    - simpl. eauto. }
  destruct Hbeats as (bi & bs & -> & Hbs). simpl. rewrite Hbs. simpl.
  (* segments *)
  assert (Hsegs : exists c items out,
             py_slice_to 2000
               match assoc "segments" a with Some v => v | None => VList [] end
             = Ok c /\ py_iter c = Ok items
             /\ mapM (segment_of lax_float) items = Ok out).
  { destruct (assoc "segments" a) as [v|]; simpl in Hsg.
    - destruct v; simpl in Hsg; try discriminate.
      destruct (forallb_total _ _ (wf_segment_total lax_float) _ Hsg) as [out Hout].
      simpl. eauto 6.
    - simpl. exists (VList []), [], []. auto. }
  destruct Hsegs as (c & si & sgs & -> & Hsi & Hsgs). simpl.
  rewrite Hsi. simpl. rewrite Hsgs. simpl.
  (* sections *)
  assert (Hsecs : exists items out,
             py_iter match assoc "sections" a with Some v => v | None => VList [] end
             = Ok items /\ mapM (section_of lax_float lax_int) items = Ok out).
  { destruct (assoc "sections" a) as [v|]; simpl in Hsc.
    - destruct v; simpl in Hsc; try discriminate.
      destruct (forallb_total _ _ wf_section_total _ Hsc) as [out Hout].
      simpl. eauto.
    - simpl. eauto. }
  destruct Hsecs as (ci & scs & -> & Hscs). simpl. rewrite Hscs. simpl.
  (* track summary and features *)
  unfold AnalysisResponse_new.
  destruct (assoc "track" a) as [t|]; simpl in Htr.
  - destruct t as [| | | | | |t]; simpl in Htr; try discriminate.
    apply andb_true_iff in Htr as [Htd Htt]. simpl.
    destruct (assoc "duration" t) as [vd|]; simpl in Htd;
      [rewrite (as_float_num _ _ Htd) | ]; simpl;
      (destruct (assoc "tempo" f) as [vt|]; simpl in Hft;
       [rewrite (as_float_num _ _ Hft)
       | destruct (assoc "tempo" t) as [vt|]; simpl in Htt;
         [rewrite (as_float_num _ _ Htt) | ]]); simpl;
      (destruct (assoc "energy" f) as [ve|]; simpl in Hfe;
       [rewrite (as_float_num _ _ Hfe) | ]); simpl; eauto.
  - simpl.
    destruct (assoc "tempo" f) as [vt|]; simpl in Hft;
      [rewrite (as_float_num _ _ Hft) | ]; simpl;
      (destruct (assoc "energy" f) as [ve|]; simpl in Hfe;
       [rewrite (as_float_num _ _ Hfe) | ]); simpl; eauto.
Qed.

End TransformerClaims.

Lemma filter_sublist {A : Type} (p : A -> bool) :
  forall l : list A, sublist (List.filter p l) l.
Proof.
  induction l as [|a l IH]; simpl.
  - constructor.
  - destruct (p a); [apply sublist_skip | apply sublist_cons]; exact IH.
Qed.

(** C4. Segment cap: whenever the transformer returns, the result holds
    [min (input count) 2000] segments, the i-th of them built from the i-th
    raw segment, so the first entries are kept in their original order and
    no result has more than 2000 segments. *)
Theorem segment_cap
    (lax_float : value -> option Q) (lax_int : value -> option Z)
    (track_id : string) (analysis features : value) (r : AnalysisResponse.t) :
  process_analysis lax_float lax_int track_id analysis features = Ok r ->
  exists raw_segments,
    raw_items analysis "segments" = Ok raw_segments
    /\ length (AnalysisResponse.segments r)
       = Nat.min (length raw_segments) 2000
    /\ Forall2 (fun s o => segment_of lax_float s = Ok o)
               (firstn 2000 raw_segments) (AnalysisResponse.segments r)
    /\ (length (AnalysisResponse.segments r) <= 2000)%nat.
Proof.
  intros H.
  apply process_analysis_parts in H
    as (rb & rs & rsec & _ & Hrs & _ & _ & Hsegs & _ & _).
  apply mapM_Forall2 in Hsegs.
  assert (Hlen : length (AnalysisResponse.segments r)
                 = Nat.min (length rs) 2000).
  { rewrite <- (Forall2_length _ _ _ Hsegs), length_firstn. lia. }
  exists rs. repeat split; try assumption. lia.
Qed.

Lemma segment_cap_witness :
  exists r,
    process_analysis strict_float strict_int sample_track_id sample_analysis
                     (VDict []) = Ok r
    /\ length (AnalysisResponse.segments r) = 2000%nat.
Proof.
  destruct (process_analysis strict_float strict_int sample_track_id
                             sample_analysis (VDict [])) as [r|e] eqn:H.
  - exists r. split; [reflexivity|].
    destruct (segment_cap _ _ _ _ _ _ H) as (raw & Hraw & Hlen & _).
    vm_compute in Hraw. injection Hraw as <-.
    rewrite Hlen. reflexivity.
  - vm_compute in H. discriminate H.
Defined.

(** C5. Beats filter: whenever the transformer returns, its beats are
    built, one for one and in order, from the raw beats whose test passes;
    these form a sublist of the raw beats, so there are at most as many, and
    each of them carries a numeric [confidence] above the float [0.3]. *)
Theorem beats_filter
    (lax_float : value -> option Q) (lax_int : value -> option Z)
    (track_id : string) (analysis features : value) (r : AnalysisResponse.t) :
  process_analysis lax_float lax_int track_id analysis features = Ok r ->
  exists raw_beats kept,
    raw_items analysis "beats" = Ok raw_beats
    /\ kept = List.filter beat_passes raw_beats
    /\ sublist kept raw_beats
    /\ (length (AnalysisResponse.beats r) <= length raw_beats)%nat
    /\ Forall2
         (fun b o =>
            beat_of lax_float b = Ok o
            /\ exists c x, py_getitem b "confidence" = Ok c
                           /\ number_of c = Some x /\ (float_0_3 < x)%Q)
         kept (AnalysisResponse.beats r).
Proof.
  intros H.
  apply process_analysis_parts in H
    as (rb & rs & rsec & Hrb & _ & _ & Hbeats & _ & _ & _).
  apply beats_of_filter in Hbeats.
  exists rb, (List.filter beat_passes rb).
  split; [assumption|]. split; [reflexivity|].
  split; [apply filter_sublist|].
  split.
  - rewrite <- (Forall2_length _ _ _ Hbeats). apply List.filter_length_le.
  - assert (Hin : Forall (fun b => beat_passes b = true)
                         (List.filter beat_passes rb)).
    { apply List.Forall_forall. intros b Hb.
      apply List.filter_In in Hb. tauto. }
    revert Hin. induction Hbeats as [|b o bs os Hbo Hrest IH]; intros Hin.
    + constructor.
    + inversion Hin; subst. constructor.
      * split; [assumption|].
        eapply beat_passes_confidence; eassumption.
      * apply IH; assumption.
Qed.

Lemma beats_filter_witness :
  exists r,
    process_analysis strict_float strict_int sample_track_id sample_analysis
                     (VDict []) = Ok r
    /\ length (AnalysisResponse.beats r) = 2%nat.
Proof.
  destruct (process_analysis strict_float strict_int sample_track_id
                             sample_analysis (VDict [])) as [r|e] eqn:H.
  - exists r. split; [reflexivity|].
    destruct (beats_filter _ _ _ _ _ _ H) as (raw & kept & Hraw & Hk & _ & _ & Hall).
    vm_compute in Hraw. injection Hraw as <-.
    vm_compute in Hk. subst kept.
    rewrite <- (Forall2_length _ _ _ Hall). reflexivity.
  - vm_compute in H. discriminate H.
Defined.

(** C1, as amended. On every well-formed pair of payloads the transformer
    returns, and what it returns is built as specified.  Well-formed:
    analysis and features are mappings; beats, the first 2000 segments and
    sections, where present, are lists of mappings that carry a valid
    [start] and [duration] (beats also a valid [confidence]); every
    optional field that is present is valid; a number is a float or an
    integer of magnitude at most 2^53.  The segments of the result are,
    one for one and in order, the first 2000 raw segments, each with its
    loudness from [loudness_start], else from [loudness], else -60, and
    with twelve zeros for an absent [pitches] or [timbre]; its sections are
    the raw sections, each with tempo 120, key -1, mode 0 and loudness -10
    for the absent field. *)
Theorem process_analysis_defaults
    (lax_float : value -> option Q) (lax_int : value -> option Z)
    (track_id : string) (analysis features : value) :
  wf_analysis analysis = true ->
  wf_features features = true ->
  exists r raw_segments raw_sections,
    process_analysis lax_float lax_int track_id analysis features = Ok r
    /\ raw_items analysis "segments" = Ok raw_segments
    /\ raw_items analysis "sections" = Ok raw_sections
    /\ Forall2 (fun s o => spec_segment s = Some o)
               (firstn 2000 raw_segments) (AnalysisResponse.segments r)
    /\ Forall2 (fun s o => spec_section s = Some o)
               raw_sections (AnalysisResponse.sections r).
Proof.
  intros Ha Hf.
  destruct (process_analysis_total lax_float lax_int track_id _ _ Ha Hf)
    as [r Hr].
  destruct (process_analysis_parts _ _ _ _ _ _ Hr)
    as (rb & rs & rsec & _ & Hrs & Hrsec & _ & Hsegs & Hsecs & _).
  exists r, rs, rsec.
  split; [exact Hr|]. split; [exact Hrs|]. split; [exact Hrsec|]. split.
  - eapply forallb_built;
      [apply wf_segment_built
      | eapply wf_analysis_segments; eassumption
      | exact Hsegs].
  - eapply forallb_built;
      [apply wf_section_built
      | eapply wf_analysis_sections; eassumption
      | exact Hsecs].
Qed.

Lemma process_analysis_defaults_witness :
  exists r raw_segments raw_sections,
    process_analysis strict_float strict_int sample_track_id
                     sample_sparse_analysis (VDict []) = Ok r
    /\ raw_items sample_sparse_analysis "segments" = Ok raw_segments
    /\ raw_items sample_sparse_analysis "sections" = Ok raw_sections
    /\ Forall2 (fun s o => spec_segment s = Some o)
               (firstn 2000 raw_segments) (AnalysisResponse.segments r)
    /\ Forall2 (fun s o => spec_section s = Some o)
               raw_sections (AnalysisResponse.sections r).
Proof.
  apply (process_analysis_defaults strict_float strict_int sample_track_id
                                   sample_sparse_analysis (VDict []));
    vm_compute; reflexivity.
Defined.

(** A segment whose [pitches] has fewer than twelve entries is rejected by
    the model's length constraint; it is not replaced by twelve zeros. *)
Lemma short_pitches_rejected
    (lax_float : value -> option Q) (lax_int : value -> option Z)
    (track_id : string) :
  process_analysis lax_float lax_int track_id
    (VDict [("segments",
             VList [VDict [("start", VInt 0); ("duration", VInt 1);
                           ("pitches", VList [VFloat (1 # 2)])]])])
    (VDict [])
  = Raise ValidationError.
Proof. reflexivity. Qed.

(** C1, counterexample: a segment with a short [pitches], a segment
    without [start], and a features payload that is [None] each make the
    transformer raise. *)
Lemma process_analysis_raises :
  process_analysis strict_float strict_int sample_track_id
    (VDict [("segments",
             VList [VDict [("start", VInt 0); ("duration", VInt 1);
                           ("pitches", VList [VFloat (1 # 2)])]])])
    (VDict [])
  = Raise ValidationError
  /\ process_analysis strict_float strict_int sample_track_id
       (VDict [("segments", VList [VDict [("duration", VInt 1)]])])
       (VDict [])
     = Raise (KeyError "start")
  /\ process_analysis strict_float strict_int sample_track_id
       (VDict []) VNone
     = Raise AttributeError.
Proof. repeat split; reflexivity. Qed.

(** ** Cache store *)

Lemma get_cached_analysis_hit (track_id : string) (w : World) (d : Doc) :
  db_initialized w = true ->
  find_one_fault w = None ->
  analysis_cache w !! track_id = Some d ->
  get_cached_analysis track_id w = (Ok (analysis d), w).
Proof.
  intros Hdb Hf Hd.
  unfold get_cached_analysis, bindM, get_db, try_except, find_one.
  rewrite Hdb, Hf, Hd. reflexivity.
Qed.

Lemma get_cached_analysis_miss (track_id : string) (w : World) :
  db_initialized w = true ->
  find_one_fault w = None ->
  analysis_cache w !! track_id = None ->
  get_cached_analysis track_id w = (Ok VNone, w).
Proof.
  intros Hdb Hf Hd.
  unfold get_cached_analysis, bindM, get_db, try_except, find_one.
  rewrite Hdb, Hf, Hd. reflexivity.
Qed.

Lemma cache_analysis_stores (track_id : string) (a : value) (w : World) :
  db_initialized w = true ->
  update_one_fault w = None ->
  cache_analysis track_id a w
  = (Ok true,
     set_cache (<[track_id := mkDoc a (utcnow w)]> (analysis_cache w)) w).
Proof.
  intros Hdb Hf.
  unfold cache_analysis, bindM, get_db, try_except, datetime_utcnow,
    update_one_set.
  rewrite Hdb. simpl. rewrite Hf. reflexivity.
Qed.

(** The read never consults the clock or the age of the document. *)
Lemma get_cached_analysis_ignores_age (track_id : string) (w : World)
      (d : Doc) (now : Z) :
  db_initialized w = true ->
  find_one_fault w = None ->
  analysis_cache w !! track_id = Some d ->
  fst (get_cached_analysis track_id
         (mkWorld (db_initialized w) (analysis_cache w) (find_one_fault w)
                  (update_one_fault w) now (upstream w) (requests w)))
  = Ok (analysis d).
Proof.
  intros Hdb Hf Hd.
  rewrite (get_cached_analysis_hit track_id _ d); auto.
Qed.

(** C2, at the failing input: the document of [stale_world] is older than
    [expireAfterSeconds], and the read returns it as a hit; only after a
    pass of the server's background task is it a miss. *)
Theorem expired_entry_returned :
  analysis_cache stale_world !! sample_track_id = Some (mkDoc sample_cached 0)
  /\ expired (utcnow stale_world) (mkDoc sample_cached 0) = true
  /\ fst (get_cached_analysis sample_track_id stale_world) = Ok sample_cached
  /\ truthy sample_cached = true
  /\ fst (get_cached_analysis sample_track_id (ttl_monitor stale_world))
     = Ok VNone.
Proof. repeat split; vm_compute; reflexivity. Qed.

Lemma get_cached_analysis_fault (track_id : string) (w : World) (e : exn) :
  db_initialized w = true ->
  find_one_fault w = Some e ->
  get_cached_analysis track_id w = (Ok VNone, w).
Proof.
  intros Hdb Hf.
  unfold get_cached_analysis, bindM, get_db, try_except, find_one.
  rewrite Hdb, Hf. reflexivity.
Qed.

Lemma cache_analysis_fault (track_id : string) (a : value) (w : World)
      (e : exn) :
  db_initialized w = true ->
  update_one_fault w = Some e ->
  cache_analysis track_id a w = (Ok false, w).
Proof.
  intros Hdb Hf.
  unfold cache_analysis, bindM, get_db, try_except, datetime_utcnow,
    update_one_set.
  rewrite Hdb. simpl. rewrite Hf. reflexivity.
Qed.

(** C8. Round trip and upsert: with the database handle set and a driver
    that does not fail, [cache_analysis] succeeds and the read that follows
    returns the value just written; after two writes for the same
    [track_id] the read returns the second value, and the collection holds
    for that [track_id] the one document of the second write. *)
Theorem cache_round_trip_upsert
    (track_id : string) (v v1 v2 : value) (w : World) :
  db_initialized w = true ->
  find_one_fault w = None ->
  update_one_fault w = None ->
  (exists w1,
      cache_analysis track_id v w = (Ok true, w1)
      /\ get_cached_analysis track_id w1 = (Ok v, w1))
  /\ (exists w1 w2,
         cache_analysis track_id v1 w = (Ok true, w1)
         /\ cache_analysis track_id v2 w1 = (Ok true, w2)
         /\ get_cached_analysis track_id w2 = (Ok v2, w2)
         /\ analysis_cache w2 !! track_id = Some (mkDoc v2 (utcnow w))
         /\ analysis_cache w2
            = <[track_id := mkDoc v2 (utcnow w)]> (analysis_cache w)).
Proof.
  intros Hdb Hfind Hupd. split.
  - eexists. split; [apply cache_analysis_stores; assumption|].
    apply (get_cached_analysis_hit _ _ (mkDoc v (utcnow w))); simpl; auto.
    apply lookup_insert_eq.
  - eexists. eexists.
    split; [apply cache_analysis_stores; assumption|].
    split; [apply cache_analysis_stores; simpl; assumption|].
    simpl. split; [|split].
    + apply (get_cached_analysis_hit _ _ (mkDoc v2 (utcnow w))); simpl; auto.
      apply lookup_insert_eq.
    + apply lookup_insert_eq.
    + apply insert_insert_eq.
Qed.

Lemma cache_round_trip_upsert_witness :
  (exists w1,
      cache_analysis sample_track_id sample_cached empty_world = (Ok true, w1)
      /\ get_cached_analysis sample_track_id w1 = (Ok sample_cached, w1))
  /\ (exists w1 w2,
         cache_analysis sample_track_id VNone empty_world = (Ok true, w1)
         /\ cache_analysis sample_track_id sample_cached w1 = (Ok true, w2)
         /\ get_cached_analysis sample_track_id w2 = (Ok sample_cached, w2)
         /\ analysis_cache w2 !! sample_track_id
            = Some (mkDoc sample_cached (utcnow empty_world))
         /\ analysis_cache w2
            = <[sample_track_id := mkDoc sample_cached (utcnow empty_world)]>
                (analysis_cache empty_world)).
Proof.
  apply (cache_round_trip_upsert sample_track_id sample_cached VNone
                                 sample_cached empty_world);
    reflexivity.
Defined.

(** ** Upstream client *)

Lemma make_request_run (token endpoint : string) (w : World) :
  _make_request token endpoint w
  = (fst (_make_request token endpoint w), add_request token endpoint w).
Proof.
  unfold _make_request, bindM, client_request.
  destruct (upstream w token endpoint) as [status headers json| |]; simpl;
    try reflexivity.
  repeat (match goal with |- context [if ?b then _ else _] => destruct b end;
          try reflexivity).
Qed.

(** C6, as amended. [_make_request] sends one request and classifies the
    answer: 204 is success with [None]; 401 is [AuthExpired] (HTTP 401); 404
    is [NotFound] (HTTP 404); 429 is [RateLimited], raised as
    [SpotifyAPIError] and therefore surfaced with HTTP 502, whatever the
    response headers hold; a status of 500 or more is [UpstreamUnavailable]
    (502); any other status of 400 or more is [UpstreamProtocolError] (502);
    a timeout is [UpstreamTimeout] (502) and any other transport failure
    [UpstreamUnavailable] (502).  A status below 400 other than 204 is
    success with the decoded body. *)
Theorem make_request_classification
    (token endpoint : string) (w : World) :
  let r := fst (_make_request token endpoint w) in
  requests (snd (_make_request token endpoint w))
  = (token, endpoint) :: requests w
  /\ match upstream w token endpoint with
     | Response status headers json =>
         if status =? 204 then r = Ok VNone
         else if status =? 401
         then outcome_of r = Some AuthExpired /\ error_status r = Some 401
         else if status =? 404
         then outcome_of r = Some NotFound /\ error_status r = Some 404
         else if status =? 429
         then outcome_of r = Some RateLimited /\ error_status r = Some 502
              /\ r = Raise (SpotifyAPIError
                              "Rate limited by Spotify. Try again shortly.")
         else if 500 <=? status
         then outcome_of r = Some UpstreamUnavailable
              /\ error_status r = Some 502
         else if 400 <=? status
         then outcome_of r = Some UpstreamProtocolError
              /\ error_status r = Some 502
         else r = of_option JSONDecodeError json
     | TimeoutException =>
         outcome_of r = Some UpstreamTimeout /\ error_status r = Some 502
     | RequestError =>
         outcome_of r = Some UpstreamUnavailable /\ error_status r = Some 502
     end.
Proof.
  intros r. subst r. split.
  - rewrite make_request_run. reflexivity.
  - unfold _make_request, bindM, client_request. simpl.
    destruct (upstream w token endpoint) as [status headers json| |]; simpl;
      [|split; reflexivity|split; reflexivity].
    destruct (status =? 204); [reflexivity|].
    destruct (status =? 401); [split; reflexivity|].
    destruct (status =? 404); [split; reflexivity|].
    destruct (status =? 429); [repeat split; reflexivity|].
    destruct (500 <=? status); [split; reflexivity|].
    destruct (400 <=? status); [split; reflexivity|].
    reflexivity.
Qed.

(** C6, counterexample: an answer with status 429 and a [Retry-After]
    header surfaces with HTTP 502, not 429, and the raised exception carries
    no retry-after value. *)
Lemma rate_limit_surfaces_as_502 :
  fst (_make_request "token" "/audio-analysis/4uLU6hMCjMI75M1A2tKUQC"
                     rate_limited)
  = Raise (SpotifyAPIError "Rate limited by Spotify. Try again shortly.")
  /\ status_code (SpotifyAPIError "Rate limited by Spotify. Try again shortly.")
     = 502
  /\ status_code (SpotifyAPIError "Rate limited by Spotify. Try again shortly.")
     <> 429.
Proof. repeat split; try reflexivity. vm_compute. discriminate. Qed.

(** ** Request handler *)

Section HandlerClaims.

Variable lax_float : value -> option Q.
Variable lax_int : value -> option Z.

(** The handler up to the cache lookup. *)
Lemma get_analysis_lookup (token track_id tid : string) (w w0 : World)
      (cached : value) :
  String.length track_id = 22%nat ->
  validate_track_id_param track_id = Ok tid ->
  get_cached_analysis tid w = (Ok cached, w0) ->
  get_analysis lax_float lax_int token track_id w
  = if truthy cached
    then (AnalysisResponse_of_kwargs lax_float lax_int cached, w0)
    else
      (do analysis <- get_audio_analysis token tid;
       do features <- get_audio_features token tid;
       if negb (truthy analysis) then raise (NotFoundError "Track analysis")
       else
         do processed <-
           lift (process_analysis lax_float lax_int tid analysis features);
         do _ <- cache_analysis tid (model_dump processed);
         ret processed) w0.
Proof.
  intros Hlen Hv Hc. unfold get_analysis.
  rewrite Hlen. simpl. unfold bindM at 1. unfold lift at 1. rewrite Hv.
  unfold bindM at 1. rewrite Hc.
  destruct (truthy cached); reflexivity.
Qed.

(** C3, as amended. After a cache miss, a failure of the analysis fetch or
    of the features fetch aborts the request with that failure; when both
    fetches return and the analysis payload is absent ([None] or empty),
    the request fails with [NotFoundError], HTTP 404. *)
Theorem fetch_failure_aborts
    (token track_id tid : string) (w w0 : World) (cached : value) :
  String.length track_id = 22%nat ->
  validate_track_id_param track_id = Ok tid ->
  get_cached_analysis tid w = (Ok cached, w0) ->
  truthy cached = false ->
  (forall e w1,
      get_audio_analysis token tid w0 = (Raise e, w1) ->
      get_analysis lax_float lax_int token track_id w = (Raise e, w1))
  /\ (forall a w1 e w2,
         get_audio_analysis token tid w0 = (Ok a, w1) ->
         get_audio_features token tid w1 = (Raise e, w2) ->
         get_analysis lax_float lax_int token track_id w = (Raise e, w2))
  /\ (forall a w1 f w2,
         get_audio_analysis token tid w0 = (Ok a, w1) ->
         get_audio_features token tid w1 = (Ok f, w2) ->
         truthy a = false ->
         get_analysis lax_float lax_int token track_id w
         = (Raise (NotFoundError "Track analysis"), w2)
         /\ status_code (NotFoundError "Track analysis") = 404).
Proof.
  intros Hlen Hv Hc Hmiss.
  rewrite (get_analysis_lookup _ _ _ _ _ _ Hlen Hv Hc), Hmiss.
  split; [|split].
  - intros e w1 Ha. unfold bindM at 1. rewrite Ha. reflexivity.
  - intros a w1 e w2 Ha Hf. unfold bindM at 1. rewrite Ha.
    unfold bindM at 1. rewrite Hf. reflexivity.
  - intros a w1 f w2 Ha Hf Hempty. split; [|reflexivity].
    unfold bindM at 1. rewrite Ha. unfold bindM at 1. rewrite Hf, Hempty.
    reflexivity.
Qed.

(** C10. On a cache hit the response does not depend on the bearer token:
    for any two [Authorization] headers whose tokens pass the format
    check, the request returns what the cached document validates to,
    sends nothing upstream and leaves the world as it was, so that both
    requests, in either order, receive the same response. *)
Theorem cache_hit_ignores_token
    (auth1 auth2 : option string) (token1 token2 track_id tid : string)
    (w : World) (d : Doc) :
  get_spotify_token auth1 = Ok token1 ->
  get_spotify_token auth2 = Ok token2 ->
  String.length track_id = 22%nat ->
  validate_track_id_param track_id = Ok tid ->
  db_initialized w = true ->
  find_one_fault w = None ->
  analysis_cache w !! tid = Some d ->
  truthy (analysis d) = true ->
  analysis_endpoint lax_float lax_int auth1 track_id w
  = (AnalysisResponse_of_kwargs lax_float lax_int (analysis d), w)
  /\ analysis_endpoint lax_float lax_int auth2 track_id w
     = analysis_endpoint lax_float lax_int auth1 track_id w
  /\ requests (snd (analysis_endpoint lax_float lax_int auth1 track_id w))
     = requests w.
Proof.
  intros Ht1 Ht2 Hlen Hv Hdb Hf Hd Htruthy.
  assert (Hhit : forall token,
             get_analysis lax_float lax_int token track_id w
             = (AnalysisResponse_of_kwargs lax_float lax_int (analysis d), w)).
  { intros token.
    rewrite (get_analysis_lookup _ _ _ _ _ _ Hlen Hv
               (get_cached_analysis_hit _ _ _ Hdb Hf Hd)).
    rewrite Htruthy. reflexivity. }
  assert (Hend : forall auth token,
             get_spotify_token auth = Ok token ->
             analysis_endpoint lax_float lax_int auth track_id w
             = (AnalysisResponse_of_kwargs lax_float lax_int (analysis d), w)).
  { intros auth token Ht. unfold analysis_endpoint, bindM, lift.
    rewrite Ht. apply Hhit. }
  rewrite (Hend _ _ Ht1), (Hend _ _ Ht2). auto.
Qed.

(** With the store down on both sides the handler behaves as on a miss
    and returns what the transformer built. *)
Lemma get_analysis_store_down
      (token track_id tid : string) (w w1 w2 : World) (e e' : exn)
      (analysis features : value) (r : AnalysisResponse.t) :
  String.length track_id = 22%nat ->
  validate_track_id_param track_id = Ok tid ->
  db_initialized w = true ->
  find_one_fault w = Some e ->
  update_one_fault w = Some e' ->
  get_audio_analysis token tid w = (Ok analysis, w1) ->
  get_audio_features token tid w1 = (Ok features, w2) ->
  truthy analysis = true ->
  process_analysis lax_float lax_int tid analysis features = Ok r ->
  get_analysis lax_float lax_int token track_id w = (Ok r, w2).
Proof.
  intros Hlen Hv Hdb Hfind Hupd Ha Hf Htruthy Hr.
  rewrite (get_analysis_lookup _ _ _ _ _ _ Hlen Hv
             (get_cached_analysis_fault _ _ _ Hdb Hfind)).
  simpl. unfold bindM at 1. rewrite Ha. unfold bindM at 1. rewrite Hf.
  rewrite Htruthy. simpl. unfold bindM at 1, lift at 1. rewrite Hr.
  unfold bindM at 1.
  unfold get_audio_analysis in Ha. rewrite make_request_run in Ha.
  injection Ha as _ <-.
  unfold get_audio_features in Hf. rewrite make_request_run in Hf.
  injection Hf as _ <-.
  rewrite (cache_analysis_fault _ _ _ e'); [reflexivity | exact Hdb | exact Hupd].
Qed.

End HandlerClaims.

Lemma fetch_failure_aborts_witness :
  fst (get_analysis strict_float strict_int sample_token_a sample_track_id
                    features_down)
  = Raise SpotifyAPIError_default
  /\ fst (get_analysis strict_float strict_int sample_token_a sample_track_id
                       analysis_absent)
     = Raise (NotFoundError "Track analysis").
Proof.
  split.
  - destruct (fetch_failure_aborts strict_float strict_int sample_token_a
                sample_track_id sample_track_id features_down features_down
                VNone eq_refl eq_refl eq_refl eq_refl) as (_ & H & _).
    erewrite H; [reflexivity | reflexivity | reflexivity].
  - destruct (fetch_failure_aborts strict_float strict_int sample_token_a
                sample_track_id sample_track_id analysis_absent analysis_absent
                VNone eq_refl eq_refl eq_refl eq_refl) as (_ & _ & H).
    edestruct H as [Hr _]; [reflexivity | reflexivity | | rewrite Hr; reflexivity].
    reflexivity.
Defined.

(** C3, counterexample: the provider has the analysis and the transformer
    accepts it with empty features, yet the request is aborted with HTTP
    502 because the features fetch failed. *)
Lemma features_failure_is_fatal :
  fst (get_analysis strict_float strict_int sample_token_a sample_track_id
                    features_down)
  = Raise SpotifyAPIError_default
  /\ status_code SpotifyAPIError_default = 502
  /\ fst (get_audio_analysis sample_token_a sample_track_id features_down)
     = Ok sample_analysis
  /\ wf_analysis sample_analysis = true.
Proof. repeat split; vm_compute; reflexivity. Qed.

Lemma cache_hit_ignores_token_witness :
  analysis_endpoint strict_float strict_int
    (Some ("Bearer " ++ sample_token_a)) sample_track_id warm_world
  = (Ok sample_response, warm_world)
  /\ analysis_endpoint strict_float strict_int
       (Some ("Bearer " ++ sample_token_b)) sample_track_id warm_world
     = (Ok sample_response, warm_world).
Proof.
  destruct (cache_hit_ignores_token strict_float strict_int
              (Some ("Bearer " ++ sample_token_a))
              (Some ("Bearer " ++ sample_token_b))
              sample_token_a sample_token_b sample_track_id sample_track_id
              warm_world (mkDoc (model_dump sample_response) 0)
              eq_refl eq_refl eq_refl eq_refl eq_refl eq_refl eq_refl eq_refl)
    as (H1 & H2 & _).
  split; [|rewrite H2]; rewrite H1; reflexivity.
Defined.

(** ** From the cache back to the response *)

Section RoundTrip.

Variable lax_float : value -> option Q.
Variable lax_int : value -> option Z.

Lemma check_true (b : bool) (u : unit) : check b = Ok u -> b = true.
Proof. destruct b; simpl; [reflexivity | discriminate]. Qed.

Lemma as_float_list_12_length (v : value) (qs : list Q) :
  as_float_list_12 lax_float v = Ok qs -> (length qs =? 12)%nat = true.
Proof.
  destruct v; try discriminate. unfold as_float_list_12. intros H.
  inv_bind_as H xs Hxs. inv_bind_as H u Hu. injection H as <-.
  apply check_true in Hu. apply andb_true_iff in Hu as [H1 H2].
  apply Nat.leb_le in H1, H2. apply Nat.eqb_eq. lia.
Qed.

Lemma BeatData_new_valid (s d c : value) (b : BeatData.t) :
  BeatData_new lax_float s d c = Ok b -> beat_valid b = true.
Proof.
  unfold BeatData_new. intros H.
  inv_bind_as H qs Hs. inv_bind_as H qd Hd. inv_bind_as H qc Hc.
  inv_bind_as H u Hu. injection H as <-.
  apply check_true in Hu. exact Hu.
Qed.

Lemma SegmentData_new_valid (s d l p t : value) (o : SegmentData.t) :
  SegmentData_new lax_float s d l p t = Ok o -> segment_valid o = true.
Proof.
  unfold SegmentData_new. intros H.
  inv_bind_as H qs Hs. inv_bind_as H qd Hd. inv_bind_as H ql Hl.
  inv_bind_as H ps Hp. inv_bind_as H ts Ht.
  inv_bind_as H u Hu. injection H as <-.
  apply check_true in Hu. unfold segment_valid. simpl.
  rewrite Hu, (as_float_list_12_length _ _ Hp), (as_float_list_12_length _ _ Ht).
  reflexivity.
Qed.

Lemma SectionData_new_valid (s d t k m l : value) (o : SectionData.t) :
  SectionData_new lax_float lax_int s d t k m l = Ok o -> section_valid o = true.
Proof.
  unfold SectionData_new. intros H.
  inv_bind_as H qs Hs. inv_bind_as H qd Hd. inv_bind_as H qt Ht.
  inv_bind_as H zk Hk. inv_bind_as H zm Hm. inv_bind_as H ql Hl.
  inv_bind_as H u Hu. injection H as <-.
  apply check_true in Hu. exact Hu.
Qed.

Lemma Forall2_forallb {A B : Type} (f : A -> result B) (p : B -> bool) :
  (forall a b, f a = Ok b -> p b = true) ->
  forall l out, Forall2 (fun a b => f a = Ok b) l out -> forallb p out = true.
Proof.
  intros Hf l out H. induction H as [|a b l out Hab _ IH]; simpl.
  - reflexivity.
  - rewrite (Hf _ _ Hab), IH. reflexivity.
Qed.

(** What the transformer returns satisfies the constraints of its models. *)
Lemma process_analysis_valid (track_id : string) (analysis features : value)
      (r : AnalysisResponse.t) :
  process_analysis lax_float lax_int track_id analysis features = Ok r ->
  response_valid r = true.
Proof.
  intros H.
  apply process_analysis_parts in H
    as (rb & rs & rsec & _ & _ & _ & Hb & Hs & Hc & _).
  unfold response_valid.
  apply beats_of_filter in Hb. apply mapM_Forall2 in Hs, Hc.
  rewrite (Forall2_forallb (beat_of lax_float) beat_valid) with (2 := Hb).
  2: { intros b o Ho. unfold beat_of in Ho.
       inv_bind_as Ho s Hs'. inv_bind_as Ho d Hd'. inv_bind_as Ho c Hc'.
       eapply BeatData_new_valid; eassumption. }
  rewrite (Forall2_forallb (segment_of lax_float) segment_valid) with (2 := Hs).
  2: { intros b o Ho. unfold segment_of in Ho.
       inv_bind_as Ho s Hs'. inv_bind_as Ho d Hd'. inv_bind_as Ho i Hi'.
       inv_bind_as Ho l Hl'. inv_bind_as Ho p Hp'. inv_bind_as Ho t Ht'.
       eapply SegmentData_new_valid; eassumption. }
  rewrite (Forall2_forallb (section_of lax_float lax_int) section_valid)
    with (2 := Hc).
  2: { intros b o Ho. unfold section_of in Ho.
       inv_bind_as Ho s Hs'. inv_bind_as Ho d Hd'. inv_bind_as Ho t Ht'.
       inv_bind_as Ho k Hk'. inv_bind_as Ho m Hm'. inv_bind_as Ho l Hl'.
       eapply SectionData_new_valid; eassumption. }
  reflexivity.
Qed.

Lemma mapM_dump {A : Type} (dump : A -> value) (validate : value -> result A)
      (p : A -> bool) :
  (forall a, p a = true -> validate (dump a) = Ok a) ->
  forall l, forallb p l = true -> mapM validate (map dump l) = Ok l.
Proof.
  intros Hv. induction l as [|a l IH]; simpl; intros H; [reflexivity|].
  apply andb_true_iff in H as [Ha Hl].
  rewrite (Hv _ Ha), (IH Hl). reflexivity.
Qed.

Lemma mapM_as_float_dump :
  forall qs, mapM (as_float lax_float) (map VFloat qs) = Ok qs.
Proof.
  induction qs as [|q qs IH]; simpl; [reflexivity|].
  rewrite IH. reflexivity.
Qed.

Lemma as_float_list_12_dump (qs : list Q) :
  (length qs =? 12)%nat = true ->
  as_float_list_12 lax_float (dump_floats qs) = Ok qs.
Proof.
  intros H. unfold as_float_list_12, dump_floats.
  rewrite mapM_as_float_dump. simpl.
  apply Nat.eqb_eq in H. rewrite H. reflexivity.
Qed.

Lemma BeatData_round_trip (b : BeatData.t) :
  beat_valid b = true ->
  BeatData_validate lax_float (BeatData_dump b) = Ok b.
Proof.
  intros H. destruct b as [s d c]. unfold beat_valid in H. simpl in H.
  unfold BeatData_validate, BeatData_dump, BeatData_new. simpl.
  rewrite H. reflexivity.
Qed.

Lemma SegmentData_round_trip (s : SegmentData.t) :
  segment_valid s = true ->
  SegmentData_validate lax_float (SegmentData_dump s) = Ok s.
Proof.
  intros H. destruct s as [s d l p t]. unfold segment_valid in H. simpl in H.
  apply andb_true_iff in H as [H Ht]. apply andb_true_iff in H as [H Hp].
  unfold SegmentData_validate, SegmentData_dump, SegmentData_new.
  cbn [field assoc String.eqb Ascii.eqb Bool.eqb of_option bind as_float
       SegmentData.start SegmentData.duration SegmentData.loudness
       SegmentData.pitches SegmentData.timbre].
  rewrite (as_float_list_12_dump _ Hp), (as_float_list_12_dump _ Ht).
  cbn [bind]. rewrite H. reflexivity.
Qed.

Lemma SectionData_round_trip (s : SectionData.t) :
  section_valid s = true ->
  SectionData_validate lax_float lax_int (SectionData_dump s) = Ok s.
Proof.
  intros H. destruct s as [s d t k m l]. unfold section_valid in H. simpl in H.
  unfold SectionData_validate, SectionData_dump, SectionData_new. simpl.
  rewrite H. reflexivity.
Qed.

(** A response that satisfies the constraints is read back unchanged from
    its dump. *)
Lemma model_dump_round_trip (r : AnalysisResponse.t) :
  response_valid r = true ->
  AnalysisResponse_of_kwargs lax_float lax_int (model_dump r) = Ok r.
Proof.
  intros H. destruct r as [tid du te en bs sgs scs].
  unfold response_valid in H. simpl in H.
  apply andb_true_iff in H as [H Hsc]. apply andb_true_iff in H as [Hb Hsg].
  unfold AnalysisResponse_of_kwargs, model_dump.
  cbn [field assoc String.eqb Ascii.eqb Bool.eqb of_option bind as_str as_list
       AnalysisResponse.track_id AnalysisResponse.duration
       AnalysisResponse.tempo AnalysisResponse.energy AnalysisResponse.beats
       AnalysisResponse.segments AnalysisResponse.sections].
  rewrite (mapM_dump _ _ _ BeatData_round_trip _ Hb).
  rewrite (mapM_dump _ _ _ SegmentData_round_trip _ Hsg).
  rewrite (mapM_dump _ _ _ SectionData_round_trip _ Hsc).
  reflexivity.
Qed.

End RoundTrip.

(** ** Cache failures at the handler *)

(** C7. Cache store failures are absorbed: with the database handle set, an
    exception of the driver during the read makes [get_cached_analysis]
    return [None], and one during the write makes [cache_analysis] return
    [False] and leave the collection as it was; neither raises.  The
    handler then runs as on a miss: when both fetches return and the
    transformer builds a response, the request returns it. *)
Theorem cache_failures_absorbed
    (lax_float : value -> option Q) (lax_int : value -> option Z)
    (token track_id tid : string) (a : value) (w : World) (e : exn) :
  db_initialized w = true ->
  (find_one_fault w = Some e ->
   get_cached_analysis tid w = (Ok VNone, w))
  /\ (update_one_fault w = Some e ->
      cache_analysis tid a w = (Ok false, w))
  /\ (forall w1 w2 analysis features r,
         String.length track_id = 22%nat ->
         validate_track_id_param track_id = Ok tid ->
         find_one_fault w = Some e ->
         update_one_fault w = Some e ->
         get_audio_analysis token tid w = (Ok analysis, w1) ->
         get_audio_features token tid w1 = (Ok features, w2) ->
         truthy analysis = true ->
         process_analysis lax_float lax_int tid analysis features = Ok r ->
         get_analysis lax_float lax_int token track_id w = (Ok r, w2)).
Proof.
  intros Hdb. split; [|split].
  - intros Hf. apply (get_cached_analysis_fault _ _ e); assumption.
  - intros Hf. apply (cache_analysis_fault _ _ _ e); assumption.
  - intros w1 w2 analysis features r Hlen Hv Hfind Hupd Ha Hf Ht Hr.
    eapply get_analysis_store_down; eassumption.
Qed.

Lemma cache_failures_absorbed_witness :
  get_cached_analysis sample_track_id broken_store = (Ok VNone, broken_store)
  /\ cache_analysis sample_track_id sample_cached broken_store
     = (Ok false, broken_store)
  /\ fst (get_analysis strict_float strict_int sample_token_a sample_track_id
                       broken_store)
     = Ok small_response.
Proof.
  destruct (cache_failures_absorbed strict_float strict_int sample_token_a
              sample_track_id sample_track_id sample_cached broken_store
              (DriverError "ServerSelectionTimeoutError") eq_refl)
    as (Hget & Hput & Hreq).
  split; [apply Hget; reflexivity|].
  split; [apply Hput; reflexivity|].
  erewrite Hreq; try reflexivity.
Defined.

(** ** A miss fills the cache for the next request *)

(** X28. After a request that missed, fetched, transformed and cached, the
    next request for the same track, whatever its token, is served the same
    response from the cache and sends nothing upstream. *)
Lemma miss_then_hit
    (lax_float : value -> option Q) (lax_int : value -> option Z)
    (token1 token2 track_id tid : string) (w w1 w2 : World)
    (analysis features : value) (r : AnalysisResponse.t) :
  String.length track_id = 22%nat ->
  validate_track_id_param track_id = Ok tid ->
  db_initialized w = true ->
  find_one_fault w = None ->
  update_one_fault w = None ->
  analysis_cache w !! tid = None ->
  get_audio_analysis token1 tid w = (Ok analysis, w1) ->
  get_audio_features token1 tid w1 = (Ok features, w2) ->
  truthy analysis = true ->
  process_analysis lax_float lax_int tid analysis features = Ok r ->
  exists w3,
    get_analysis lax_float lax_int token1 track_id w = (Ok r, w3)
    /\ get_analysis lax_float lax_int token2 track_id w3 = (Ok r, w3)
    /\ requests w3 = requests w2.
Proof.
  intros Hlen Hv Hdb Hfind Hupd Hnone Ha Hf Htruthy Hr.
  pose proof Ha as Ha'. pose proof Hf as Hf'.
  unfold get_audio_analysis in Ha'. rewrite make_request_run in Ha'.
  injection Ha' as _ Hw1.
  unfold get_audio_features in Hf'. rewrite make_request_run in Hf'.
  injection Hf' as _ Hw2.
  assert (Hdb2 : db_initialized w2 = true) by (subst w2 w1; exact Hdb).
  assert (Hupd2 : update_one_fault w2 = None) by (subst w2 w1; exact Hupd).
  assert (Hfind2 : find_one_fault w2 = None) by (subst w2 w1; exact Hfind).
  pose (w3 := set_cache (<[tid := mkDoc (model_dump r) (utcnow w2)]>
                           (analysis_cache w2)) w2).
  assert (Hhit : get_cached_analysis tid w3 = (Ok (model_dump r), w3)).
  { apply (get_cached_analysis_hit _ _ (mkDoc (model_dump r) (utcnow w2)));
      [exact Hdb2 | exact Hfind2 | apply lookup_insert_eq]. }
  exists w3.
  split; [|split; [|reflexivity]].
  - rewrite (get_analysis_lookup _ _ _ _ _ _ _ _ Hlen Hv
               (get_cached_analysis_miss _ _ Hdb Hfind Hnone)).
    simpl. unfold bindM at 1. rewrite Ha. unfold bindM at 1. rewrite Hf.
    rewrite Htruthy. simpl. unfold bindM at 1, lift at 1. rewrite Hr.
    unfold bindM at 1.
    rewrite (cache_analysis_stores _ _ _ Hdb2 Hupd2). reflexivity.
  - rewrite (get_analysis_lookup _ _ _ _ _ _ _ _ Hlen Hv Hhit).
    change (truthy (model_dump r)) with true. cbv iota.
    rewrite (model_dump_round_trip _ _ _
               (process_analysis_valid _ _ _ _ _ _ Hr)).
    reflexivity.
Qed.

(** ** More of the validators *)

Lemma at_dollar_cases (rest : string) :
  at_dollar rest = true <-> rest = EmptyString \/ rest = newline.
Proof.
  split.
  - destruct rest as [|c [|c' r]]; simpl; intros H; try discriminate.
    + left; reflexivity.
    + right. apply N.eqb_eq in H. unfold newline. f_equal.
      rewrite <- (ascii_N_embedding c). unfold code in H. rewrite H.
      reflexivity.
  - intros [-> | ->]; reflexivity.
Qed.

Lemma append_cons (c : ascii) (a b : string) :
  String c a ++ b = String c (a ++ b).
Proof. reflexivity. Qed.

Lemma append_empty_l (b : string) : EmptyString ++ b = b.
Proof. reflexivity. Qed.

Lemma append_empty_r (a : string) : a ++ EmptyString = a.
Proof. induction a as [|c a IH]; [reflexivity|]. rewrite append_cons, IH. reflexivity. Qed.

Lemma all_chars_cons (cls : ascii -> bool) (c : ascii) (s : string) :
  all_chars cls (String c s) = cls c && all_chars cls s.
Proof. reflexivity. Qed.

Lemma skip_class_split (cls : ascii -> bool) :
  forall s, exists pre,
      s = pre ++ skip_class cls s
      /\ all_chars cls pre = true /\ stops cls (skip_class cls s).
Proof.
  induction s as [|c s (pre & Hs & Hp & Hst)]; simpl.
  - exists EmptyString. repeat split.
  - destruct (cls c) eqn:Hc.
    + exists (String c pre). rewrite append_cons, <- Hs.
      rewrite all_chars_cons, Hc, Hp. repeat split. exact Hst.
    + exists EmptyString. simpl. rewrite Hc. repeat split.
Qed.

Lemma skip_class_app (cls : ascii -> bool) (rest : string) :
  stops cls rest ->
  forall pre, all_chars cls pre = true -> skip_class cls (pre ++ rest) = rest.
Proof.
  intros Hst. induction pre as [|c pre IH]; intros Hp.
  - rewrite append_empty_l.
    destruct rest as [|c r]; simpl in *; [reflexivity|]. rewrite Hst. reflexivity.
  - rewrite all_chars_cons in Hp. apply andb_true_iff in Hp as [Hc Hp].
    rewrite append_cons. simpl. rewrite Hc. apply IH. exact Hp.
Qed.

Lemma take_class_split (cls : ascii -> bool) :
  forall n s k rest,
    take_class cls n s = (k, rest) ->
    exists pre, s = pre ++ rest /\ String.length pre = k
                /\ all_chars cls pre = true /\ (k <= n)%nat.
Proof.
  induction n as [|n IH]; intros s k rest H; simpl in H.
  - injection H as <- <-. exists EmptyString. repeat split. lia.
  - destruct s as [|c s].
    + injection H as <- <-. exists EmptyString. repeat split. lia.
    + destruct (cls c) eqn:Hc.
      * destruct (take_class cls n s) as [k' rest'] eqn:Ht.
        injection H as <- <-.
        destruct (IH _ _ _ Ht) as (pre & Hs & Hl & Hp & Hk).
        exists (String c pre). rewrite append_cons, <- Hs, all_chars_cons, Hc, Hp.
        simpl. rewrite Hl. repeat split. lia.
      * injection H as <- <-. exists EmptyString. repeat split. lia.
Qed.

Lemma take_class_app (cls : ascii -> bool) (rest : string) :
  stops cls rest ->
  forall n pre,
    all_chars cls pre = true -> (String.length pre <= n)%nat ->
    take_class cls n (pre ++ rest) = (String.length pre, rest).
Proof.
  intros Hst. induction n as [|n IH]; intros pre Hp Hl.
  - destruct pre; simpl in *; [reflexivity | lia].
  - destruct pre as [|c pre].
    + rewrite append_empty_l.
      destruct rest as [|c r]; simpl in *; [reflexivity|]. rewrite Hst. reflexivity.
    + rewrite all_chars_cons in Hp. apply andb_true_iff in Hp as [Hc Hp].
      simpl in Hl. rewrite append_cons. simpl.
      rewrite Hc, IH; [reflexivity | exact Hp | lia].
Qed.

Lemma stops_urlsafe_end (rest : string) :
  rest = EmptyString \/ rest = newline -> stops is_urlsafe rest.
Proof. intros [-> | ->]; simpl; reflexivity. Qed.

Lemma re_match_token_body (s : string) :
  re_match_token s = true <->
  exists body, body <> EmptyString /\ accepted_line is_urlsafe s body.
Proof.
  unfold accepted_line.
  split.
  - destruct s as [|c s]; simpl; [discriminate|]. intros H.
    apply andb_true_iff in H as [Hc Hd].
    destruct (skip_class_split is_urlsafe s) as (pre & Hs & Hp & _).
    exists (String c pre). split; [discriminate|].
    split; [rewrite all_chars_cons, Hc, Hp; reflexivity|].
    apply at_dollar_cases in Hd as [Hd | Hd]; rewrite Hd in Hs.
    + left. rewrite Hs, append_empty_r. reflexivity.
    + right. rewrite Hs. reflexivity.
  - intros (body & Hne & Hp & Hs).
    destruct body as [|c body]; [congruence|].
    rewrite all_chars_cons in Hp. apply andb_true_iff in Hp as [Hc Hp].
    assert (Hrest : exists rest, s = String c (body ++ rest)
                                 /\ (rest = EmptyString \/ rest = newline)).
    { destruct Hs as [-> | ->].
      - exists EmptyString. split; [|left; reflexivity].
        rewrite append_empty_r. reflexivity.
      - exists newline. split; [reflexivity | right; reflexivity]. }
    destruct Hrest as (rest & -> & Hrest). simpl. rewrite Hc. simpl.
    rewrite (skip_class_app _ _ (stops_urlsafe_end _ Hrest) _ Hp).
    apply at_dollar_cases. exact Hrest.
Qed.

(** X1. The token format check accepts exactly the strings of 50 to 500
    characters that consist of URL-safe base64 characters, the last of
    which may be a newline instead (the [$] of the pattern also matches
    before a final newline). *)
Theorem validate_spotify_token_format_accepts (token : string) :
  validate_spotify_token_format token = true <->
  (50 <= String.length token <= 500)%nat
  /\ exists body, body <> EmptyString /\ accepted_line is_urlsafe token body.
Proof.
  unfold validate_spotify_token_format.
  destruct (String.eqb token "") eqn:He.
  - apply String.eqb_eq in He. subst token. split; [discriminate|].
    intros [[H _] _]. simpl in H. lia.
  - destruct (String.length token <? 50)%nat eqn:Hlo.
    + simpl. apply Nat.ltb_lt in Hlo. split; [discriminate | lia].
    + destruct (500 <? String.length token)%nat eqn:Hhi.
      * simpl. apply Nat.ltb_lt in Hhi. split; [discriminate | lia].
      * simpl. apply Nat.ltb_ge in Hlo, Hhi.
        destruct (re_match_token token) eqn:Hm; simpl.
        -- apply re_match_token_body in Hm. split; [|reflexivity].
           intros _. split; [lia | exact Hm].
        -- split; [discriminate|]. intros [_ Hb].
           apply re_match_token_body in Hb. congruence.
Qed.

Lemma prefix_drop (p : string) :
  forall a, String.prefix p a = true -> a = p ++ drop_chars (String.length p) a.
Proof.
  induction p as [|c p IH]; intros a H.
  - reflexivity.
  - destruct a as [|c' a]; simpl in H; [discriminate|].
    destruct (ascii_dec c c') as [<-|Hne]; [|discriminate].
    rewrite append_cons. simpl. f_equal. apply IH. exact H.
Qed.

Lemma prefix_append (p : string) : forall t, String.prefix p (p ++ t) = true.
Proof.
  induction p as [|c p IH]; intros t.
  - destruct t; reflexivity.
  - rewrite append_cons. simpl.
    destruct (ascii_dec c c) as [_|Hne]; [apply IH | congruence].
Qed.

Lemma drop_append (p : string) :
  forall t, drop_chars (String.length p) (p ++ t) = t.
Proof.
  induction p as [|c p IH]; intros t; [reflexivity|].
  rewrite append_cons. simpl. apply IH.
Qed.

(** X2. The bearer-token dependency returns a token exactly for a header
    of the form ["Bearer " ++ token] whose token passes the format check,
    and returns that token; every other header, or none, raises
    [InvalidTokenError] (HTTP 401). *)
Theorem get_spotify_token_bearer (authorization : option string) :
  (forall token,
      get_spotify_token authorization = Ok token <->
      authorization = Some ("Bearer " ++ token)
      /\ validate_spotify_token_format token = true)
  /\ (forall e, get_spotify_token authorization = Raise e ->
                e = InvalidTokenError /\ status_code e = 401).
Proof.
  split.
  - intros token. split.
    + unfold get_spotify_token.
      destruct authorization as [a|]; [|discriminate].
      destruct (String.eqb a ""); [discriminate|].
      unfold startswith.
      destruct (String.prefix "Bearer " a) eqn:Hp; [|discriminate].
      cbn [negb].
      destruct (validate_spotify_token_format (drop_chars 7 a)) eqn:Hv;
        [|discriminate]. cbn [negb].
      intros H. injection H as <-. split; [|exact Hv].
      f_equal. apply (prefix_drop "Bearer " a Hp).
    + intros [-> Hv]. unfold get_spotify_token, startswith.
      rewrite (prefix_append "Bearer " token).
      change 7%nat with (String.length "Bearer ").
      rewrite (drop_append "Bearer " token), Hv. reflexivity.
  - intros e. unfold get_spotify_token.
    destruct authorization as [a|].
    + destruct (String.eqb a "");
        [intros H; injection H as <-; split; reflexivity|].
      destruct (negb (startswith "Bearer " a));
        [intros H; injection H as <-; split; reflexivity|].
      destruct (negb (validate_spotify_token_format (drop_chars 7 a)));
        [intros H; injection H as <-; split; reflexivity | discriminate].
    + intros H; injection H as <-; split; reflexivity.
Qed.

(** X3. The OAuth state check returns its argument unchanged or [None]; it
    accepts exactly the strings of 16 to 64 URL-safe characters, alone or
    followed by one newline, which it returns with the newline. *)
Theorem validate_state_param_accepts (state : option string) (s : string) :
  validate_state_param state = Some s <->
  state = Some s
  /\ exists body, (16 <= String.length body <= 64)%nat
                  /\ accepted_line is_urlsafe s body.
Proof.
  unfold validate_state_param, accepted_line. split.
  - destruct state as [s0|]; [|discriminate].
    unfold re_match_state.
    destruct (take_class is_urlsafe 64 s0) as [k rest] eqn:Ht.
    destruct ((16 <=? k)%nat && at_dollar rest) eqn:Hok; [|discriminate].
    simpl. intros H. injection H as <-. split; [reflexivity|].
    apply andb_true_iff in Hok as [Hk Hd]. apply Nat.leb_le in Hk.
    apply take_class_split in Ht as (pre & Hs & Hl & Hp & Hn).
    exists pre. split; [lia|]. split; [exact Hp|].
    apply at_dollar_cases in Hd as [-> | ->].
    + left. rewrite Hs, append_empty_r. reflexivity.
    + right. exact Hs.
  - intros (-> & body & Hl & Hp & Hs).
    assert (Hrest : exists rest, s = body ++ rest
                                 /\ (rest = EmptyString \/ rest = newline)).
    { destruct Hs as [-> | ->].
      - exists EmptyString. rewrite append_empty_r. auto.
      - exists newline. auto. }
    destruct Hrest as (rest & -> & Hrest).
    unfold re_match_state.
    rewrite (take_class_app _ _ (stops_urlsafe_end _ Hrest) 64 body Hp);
      [|lia].
    assert (Hk : (16 <=? String.length body)%nat = true)
      by (apply Nat.leb_le; lia).
    rewrite Hk. simpl.
    assert (Hd : at_dollar rest = true) by (apply at_dollar_cases; exact Hrest).
    rewrite Hd. reflexivity.
Qed.

(** X4. The three track-identifier validators agree: on every string they
    succeed together, with the same value, the trimmed input of twenty-two
    base62 characters. *)
Theorem track_id_validators_agree (s t : string) :
  (TrackIdParam_validate_track_id s = Ok t <-> validate_track_id_param s = Ok t)
  /\ (validate_track_id (VStr s) = Ok t <-> validate_track_id_param s = Ok t)
  /\ (validate_track_id_param s = Ok t <->
      t = strip s /\ is_track_identifier t = true).
Proof.
  unfold TrackIdParam_validate_track_id, validate_track_id_param,
    validate_track_id.
  rewrite re_match_track_id_strip.
  destruct (is_track_identifier (strip s)) eqn:Hi; simpl.
  - assert (Hne : String.eqb s "" = false).
    { destruct (String.eqb s "") eqn:He; [|reflexivity].
      apply String.eqb_eq in He. subst s. discriminate Hi. }
    rewrite Hne. split; [tauto|]. split; [tauto|]. split.
    + intros H. injection H as <-. auto.
    + intros [-> _]. reflexivity.
  - assert (Hno : forall e : exn, @Raise string e = Ok t <-> t = strip s
                                   /\ is_track_identifier t = true).
    { intros e. split; [discriminate|]. intros [-> H]. congruence. }
    destruct (String.eqb s "");
      (split; [split; discriminate|]; split; [split; discriminate|]; apply Hno).
Qed.

(** ** Settings validators *)

Lemma rstrip_char_fixed (x : ascii) :
  forall s, ends_with_char x s = false -> rstrip_char x s = s.
Proof.
  induction s as [|c s IH]; intros H; [reflexivity|].
  destruct s as [|c' s'].
  - simpl in *. rewrite H. reflexivity.
  - change (ends_with_char x (String c (String c' s')))
      with (ends_with_char x (String c' s')) in H.
    change (rstrip_char x (String c (String c' s')))
      with (match rstrip_char x (String c' s') with
            | EmptyString =>
                if Ascii.eqb c x then EmptyString else String c EmptyString
            | r => String c r
            end).
    rewrite (IH H). reflexivity.
Qed.

Lemma rstrip_char_ends (x : ascii) :
  forall s, ends_with_char x (rstrip_char x s) = false.
Proof.
  induction s as [|c s IH]; [reflexivity|]. simpl.
  destruct (rstrip_char x s) as [|c' r] eqn:Hr.
  - destruct (Ascii.eqb c x) eqn:Hc; simpl; [reflexivity | exact Hc].
  - exact IH.
Qed.

Lemma rstrip_char_split (x : ascii) :
  forall s, exists n, s = rstrip_char x s ++ repeat_char x n.
Proof.
  induction s as [|c s [n IH]].
  - exists O. reflexivity.
  - simpl. destruct (rstrip_char x s) as [|c' r] eqn:Hr.
    + rewrite append_empty_l in IH.
      destruct (Ascii.eqb c x) eqn:Hc.
      * apply Ascii.eqb_eq in Hc. subst c. exists (S n).
        rewrite append_empty_l. simpl. rewrite <- IH. reflexivity.
      * exists n. rewrite append_cons, append_empty_l, <- IH. reflexivity.
    + exists n. rewrite append_cons, <- IH. reflexivity.
Qed.

(** X5. The frontend URL is stored without its trailing slashes: the
    result never ends in a slash, differs from the input only by slashes
    removed at the end, and validating it again changes nothing. *)
Theorem validate_frontend_url_trims (v : string) :
  ends_with_char "/" (validate_frontend_url v) = false
  /\ validate_frontend_url (validate_frontend_url v) = validate_frontend_url v
  /\ exists n, v = validate_frontend_url v ++ repeat_char "/" n.
Proof.
  unfold validate_frontend_url. split; [apply rstrip_char_ends|].
  split; [apply rstrip_char_fixed, rstrip_char_ends | apply rstrip_char_split].
Qed.

Lemma lower_char_hex (c : ascii) : is_lower_hex (lower_char c) = is_hex c.
Proof.
  destruct c as [[] [] [] [] [] [] [] []]; vm_compute; reflexivity.
Qed.

Lemma lower_char_newline (c : ascii) :
  (code (lower_char c) =? 10)%N = (code c =? 10)%N.
Proof.
  destruct c as [[] [] [] [] [] [] [] []]; vm_compute; reflexivity.
Qed.

Lemma at_dollar_lower (rest : string) : at_dollar (lower rest) = at_dollar rest.
Proof.
  destruct rest as [|c [|c' r]]; simpl; try reflexivity.
  apply lower_char_newline.
Qed.

Lemma match_lower_split :
  forall n s rest',
    match_class_n is_lower_hex n (lower s) = Some rest' ->
    exists pre rest,
      s = pre ++ rest /\ String.length pre = n
      /\ all_chars is_hex pre = true /\ rest' = lower rest.
Proof.
  induction n as [|n IH]; intros s rest' H; simpl in H.
  - injection H as <-. exists EmptyString, s. repeat split.
  - destruct s as [|c s]; simpl in H; [discriminate|].
    rewrite lower_char_hex in H.
    destruct (is_hex c) eqn:Hc; [|discriminate].
    destruct (IH _ _ H) as (pre & rest & Hs & Hl & Hp & Hr).
    exists (String c pre), rest.
    rewrite append_cons, <- Hs, all_chars_cons, Hc, Hp. simpl. rewrite Hl.
    repeat split. exact Hr.
Qed.

Lemma match_lower_app (rest : string) :
  forall pre,
    all_chars is_hex pre = true ->
    match_class_n is_lower_hex (String.length pre) (lower (pre ++ rest))
    = Some (lower rest).
Proof.
  induction pre as [|c pre IH]; intros Hp; [reflexivity|].
  rewrite all_chars_cons in Hp. apply andb_true_iff in Hp as [Hc Hp].
  rewrite append_cons. simpl. rewrite lower_char_hex, Hc. apply IH. exact Hp.
Qed.

(** X6. The client identifier is accepted exactly when it consists of 32
    hexadecimal digits of either case, alone or followed by one newline;
    it is returned as given, not lowered. *)
Theorem validate_client_id_accepts (v v' : string) :
  validate_client_id v = Ok v' <->
  v' = v
  /\ exists body, String.length body = 32%nat /\ accepted_line is_hex v body.
Proof.
  unfold validate_client_id, re_match_client_id, accepted_line. split.
  - destruct (match_class_n is_lower_hex 32 (lower v)) as [rest'|] eqn:Hm;
      [|discriminate].
    destruct (at_dollar rest') eqn:Hd; [|discriminate]. simpl.
    intros H. injection H as <-. split; [reflexivity|].
    apply match_lower_split in Hm as (pre & rest & Hs & Hl & Hp & ->).
    rewrite at_dollar_lower in Hd.
    exists pre. split; [exact Hl|]. split; [exact Hp|].
    apply at_dollar_cases in Hd as [-> | ->].
    + left. rewrite Hs, append_empty_r. reflexivity.
    + right. exact Hs.
  - intros (-> & body & Hl & Hp & Hs).
    assert (Hrest : exists rest, v = body ++ rest
                                 /\ (rest = EmptyString \/ rest = newline)).
    { destruct Hs as [-> | ->].
      - exists EmptyString. rewrite append_empty_r. auto.
      - exists newline. auto. }
    destruct Hrest as (rest & -> & Hrest).
    rewrite <- Hl, (match_lower_app rest body Hp), at_dollar_lower.
    assert (Hd : at_dollar rest = true) by (apply at_dollar_cases; exact Hrest).
    rewrite Hd. reflexivity.
Qed.

(** ** Client address and rate limiter *)

Lemma all_chars_lstrip (cls : ascii -> bool) :
  forall s, all_chars cls s = true -> all_chars cls (lstrip s) = true.
Proof.
  induction s as [|c s IH]; intros H; [reflexivity|]. simpl.
  destruct (is_space c); [|exact H].
  rewrite all_chars_cons in H. apply andb_true_iff in H as [_ H]. auto.
Qed.

Lemma all_chars_rstrip (cls : ascii -> bool) :
  forall s, all_chars cls s = true -> all_chars cls (rstrip s) = true.
Proof.
  induction s as [|c s IH]; intros H; [reflexivity|].
  rewrite all_chars_cons in H. apply andb_true_iff in H as [Hc H].
  specialize (IH H). simpl.
  destruct (rstrip s) as [|c' r].
  - destruct (is_space c); [reflexivity|].
    rewrite all_chars_cons, Hc. reflexivity.
  - rewrite all_chars_cons, Hc. exact IH.
Qed.

Lemma lstrip_starts (s : string) : starts_with_space (lstrip s) = false.
Proof.
  induction s as [|c s IH]; [reflexivity|]. simpl.
  destruct (is_space c) eqn:Hc; [exact IH | simpl; exact Hc].
Qed.

Lemma rstrip_starts (s : string) :
  starts_with_space s = false -> starts_with_space (rstrip s) = false.
Proof.
  destruct s as [|c s]; [reflexivity|]. simpl. intros Hc.
  destruct (rstrip s); [rewrite Hc|]; simpl; exact Hc.
Qed.

Lemma before_comma_no_comma (s : string) :
  all_chars not_comma (before_comma s) = true.
Proof.
  induction s as [|c s IH]; [reflexivity|]. simpl.
  destruct (Ascii.eqb c ",") eqn:Hc; [reflexivity|].
  rewrite all_chars_cons. unfold not_comma at 1. rewrite Hc. exact IH.
Qed.

(** X7. With a non-empty [X-Forwarded-For] header the client address is
    the first comma-separated entry of the header, trimmed; it holds no
    comma and no surrounding white space, and the socket address of the
    request plays no part.  Without the header it is the socket address,
    or ["unknown"]. *)
Theorem get_client_ip_forwarded (forwarded : string) (host host' : option string) :
  forwarded <> EmptyString ->
  let ip := get_client_ip (mkRequest (Some forwarded) host) in
  ip = strip (before_comma forwarded)
  /\ get_client_ip (mkRequest (Some forwarded) host') = ip
  /\ all_chars not_comma ip = true
  /\ starts_with_space ip = false
  /\ ends_with_space ip = false
  /\ get_client_ip (mkRequest None host)
     = match host with Some h => h | None => "unknown" end.
Proof.
  intros Hne. unfold get_client_ip. simpl.
  assert (He : String.eqb forwarded "" = false).
  { destruct (String.eqb forwarded "") eqn:He; [|reflexivity].
    apply String.eqb_eq in He. congruence. }
  rewrite He. simpl. split; [reflexivity|]. split; [reflexivity|].
  split; [apply all_chars_rstrip, all_chars_lstrip, before_comma_no_comma|].
  split; [apply rstrip_starts, lstrip_starts|].
  split; [apply strip_ends_with_space | reflexivity].
Qed.

Lemma get_client_ip_forwarded_witness :
  get_client_ip (mkRequest (Some " 10.0.0.1 , 192.168.0.7") (Some "172.16.0.9"))
  = "10.0.0.1".
Proof.
  destruct (get_client_ip_forwarded " 10.0.0.1 , 192.168.0.7"
              (Some "172.16.0.9") None ltac:(discriminate)) as [H _].
  rewrite H. reflexivity.
Defined.

Lemma Qlt_bool_iff (x y : Q) : Qlt_bool x y = true <-> (x < y)%Q.
Proof.
  split; [apply Qlt_bool_lt|].
  intros H. unfold Qlt_bool. apply negb_true_iff.
  destruct (Qle_bool y x) eqn:Hle; [|reflexivity].
  apply Qle_bool_iff in Hle. exfalso. exact (Qlt_not_le _ _ H Hle).
Qed.

Lemma filter_all {A : Type} (p : A -> bool) :
  forall l, List.Forall (fun a => p a = true) l -> List.filter p l = l.
Proof.
  induction l as [|a l IH]; intros H; [reflexivity|].
  inversion H; subst. simpl. rewrite H2, IH; auto.
Qed.

Lemma filter_Forall {A : Type} (p : A -> bool) :
  forall l, List.Forall (fun a => p a = true) (List.filter p l).
Proof.
  intros l. apply List.Forall_forall. intros a Ha.
  apply List.filter_In in Ha. tauto.
Qed.

(** X8. One pass of the rate limiter: it raises [RateLimitError] with
    [retry_after = 60] exactly when the key already has at least the
    limit of stamps younger than the window, and then records nothing;
    otherwise it records the time of the request.  Either way the stamps
    kept for the key are all younger than the window, stamps that were
    there stay in order, and no other key is touched. *)
Theorem check_rate_limit_step
    (key : string) (now : Q) (limit : Z) (store : gmap string (list Q)) :
  let recent := List.filter (fun t => Qlt_bool (now - t) window)
                            (stamps key store) in
  let r := fst (check_rate_limit key now limit store) in
  let store' := snd (check_rate_limit key now limit store) in
  (limit <= Z.of_nat (length recent) ->
   r = Raise (RateLimitError 60) /\ stamps key store' = recent)
  /\ (Z.of_nat (length recent) < limit ->
      r = Ok tt /\ stamps key store' = (recent ++ [now])%list)
  /\ List.Forall (fun t => (now - t < window)%Q) (stamps key store')
  /\ (forall k, k <> key -> store' !! k = store !! k).
Proof.
  intros recent r store'. subst r store'. unfold check_rate_limit.
  assert (Hrecent : match store !! key with
                    | Some l => List.filter (fun t => Qlt_bool (now - t) window) l
                    | None => []
                    end = recent).
  { unfold recent, stamps. destruct (store !! key); reflexivity. }
  rewrite Hrecent.
  assert (Hfresh : List.Forall (fun t => (now - t < window)%Q) recent).
  { eapply List.Forall_impl; [|apply filter_Forall].
    intros t Ht. apply Qlt_bool_iff. exact Ht. }
  destruct (limit <=? Z.of_nat (length recent)) eqn:Hl; simpl.
  - apply Z.leb_le in Hl. unfold stamps. rewrite lookup_insert_eq.
    split; [auto|]. split; [lia|]. split; [exact Hfresh|].
    intros k Hk. apply lookup_insert_ne. congruence.
  - apply Z.leb_gt in Hl. unfold stamps. rewrite lookup_insert_eq.
    split; [lia|]. split; [auto|]. split.
    + apply List.Forall_app. split; [exact Hfresh|].
      constructor; [|constructor]. unfold window. lra.
    + intros k Hk. rewrite lookup_insert_ne by congruence.
      apply lookup_insert_ne. congruence.
Qed.

Lemma check_rate_limit_fresh
    (key : string) (now : Q) (limit : Z) (store : gmap string (list Q)) :
  List.Forall (fun t => (now - t < window)%Q) (stamps key store) ->
  check_rate_limit key now limit store
  = if limit <=? Z.of_nat (length (stamps key store))
    then (Raise (RateLimitError 60), <[key := stamps key store]> store)
    else (Ok tt, <[key := (stamps key store ++ [now])%list]> store).
Proof.
  intros H. unfold check_rate_limit.
  assert (Hc : match store !! key with
               | Some l => List.filter (fun t => Qlt_bool (now - t) window) l
               | None => []
               end = stamps key store).
  { unfold stamps in *. destruct (store !! key) as [l|]; [|reflexivity].
    apply filter_all. eapply List.Forall_impl; [|exact H].
    intros t Ht. apply Qlt_bool_iff. exact Ht. }
  rewrite Hc. destruct (limit <=? Z.of_nat (length (stamps key store)));
    [reflexivity|].
  rewrite insert_insert_eq. reflexivity.
Qed.

Lemma stamps_insert (key : string) (l : list Q) (store : gmap string (list Q)) :
  stamps key (<[key := l]> store) = l.
Proof. unfold stamps. rewrite lookup_insert_eq. reflexivity. Qed.

Lemma serve_within_window (key : string) (limit : Z) :
  forall times store,
    (forall t t', In t (stamps key store ++ times)%list -> In t' times ->
                  (t' - t < window)%Q) ->
    let room := Z.to_nat (limit - Z.of_nat (length (stamps key store))) in
    fst (serve key limit times store)
    = (repeat true (Nat.min (length times) room)
       ++ repeat false (length times - room))%list.
Proof.
  induction times as [|now rest IH]; intros store Hw room; [reflexivity|].
  simpl.
  rewrite check_rate_limit_fresh.
  2: { apply List.Forall_forall. intros t Ht. apply Hw.
       - apply List.in_or_app. left. exact Ht.
       - left. reflexivity. }
  destruct (limit <=? Z.of_nat (length (stamps key store))) eqn:Hl.
  - apply Z.leb_le in Hl.
    assert (Hroom : room = O) by (unfold room; lia).
    specialize (IH (<[key:=stamps key store]> store)).
    rewrite stamps_insert in IH. fold room in IH. rewrite Hroom in IH.
    destruct (serve key limit rest (<[key:=stamps key store]> store))
      as [flags store2] eqn:Hs.
    simpl in IH |- *. rewrite Hroom. simpl. f_equal.
    rewrite IH.
    + rewrite Nat.min_0_r, Nat.sub_0_r. reflexivity.
    + intros t t' Ht Ht'. apply Hw.
      * apply List.in_app_or in Ht as [Ht | Ht]; apply List.in_or_app;
          [left; exact Ht | right; right; exact Ht].
      * right. exact Ht'.
  - apply Z.leb_gt in Hl.
    assert (Hroom : room
                    = S (Z.to_nat (limit
                                   - Z.of_nat (length (stamps key store
                                                       ++ [now])%list))))
      by (unfold room; rewrite length_app; simpl; lia).
    specialize (IH (<[key:=(stamps key store ++ [now])%list]> store)).
    rewrite stamps_insert in IH.
    destruct (serve key limit rest
                (<[key:=(stamps key store ++ [now])%list]> store))
      as [flags store2] eqn:Hs.
    simpl in IH |- *. rewrite Hroom. simpl. f_equal.
    apply IH.
    intros t t' Ht Ht'. apply Hw.
    + apply List.in_app_or in Ht as [Ht | Ht].
      * apply List.in_app_or in Ht as [Ht | Ht]; apply List.in_or_app.
        -- left. exact Ht.
        -- right. left. destruct Ht as [<- | []]. reflexivity.
      * apply List.in_or_app. right. right. exact Ht.
    + right. exact Ht'.
Qed.

(** X9. Within one window the limiter lets through exactly the first
    [limit] requests of a key it has not seen: of any requests whose times
    lie in an interval shorter than 60 seconds, in any order, the first
    [limit] are accepted and all later ones are rejected. *)
Theorem rate_limit_within_window
    (key : string) (limit : Z) (t0 : Q) (times : list Q)
    (store : gmap string (list Q)) :
  store !! key = None ->
  0 <= limit ->
  (forall t, In t times -> (t0 <= t /\ t < t0 + window)%Q) ->
  fst (serve key limit times store)
  = (repeat true (Nat.min (length times) (Z.to_nat limit))
     ++ repeat false (length times - Z.to_nat limit))%list.
Proof.
  intros Hnone Hlim Hwin.
  pose proof (serve_within_window key limit times store) as H.
  unfold stamps in H. rewrite Hnone in H. simpl in H.
  rewrite Z.sub_0_r in H. apply H.
  intros t t' Ht Ht'.
  destruct (Hwin _ Ht) as [H1 H2]. destruct (Hwin _ Ht') as [H3 H4].
  unfold window in *. lra.
Qed.

Lemma rate_limit_within_window_witness :
  fst (serve "k" 2 [0; 10; 59; 30]%Q ∅) = [true; true; false; false].
Proof.
  rewrite (rate_limit_within_window "k" 2 0%Q [0; 10; 59; 30]%Q ∅).
  - reflexivity.
  - reflexivity.
  - lia.
  - intros t [<- | [<- | [<- | [<- | []]]]]; unfold window; split; lra.
Defined.

(** ** More of the transformer *)

Section TransformerMore.

Variable lax_float : value -> option Q.
Variable lax_int : value -> option Z.

(** X10. Sections are never capped: whenever the transformer returns, the
    result has one section per raw section, the i-th built from the i-th. *)
Theorem sections_not_capped
    (track_id : string) (analysis features : value) (r : AnalysisResponse.t) :
  process_analysis lax_float lax_int track_id analysis features = Ok r ->
  exists raw_sections,
    raw_items analysis "sections" = Ok raw_sections
    /\ length (AnalysisResponse.sections r) = length raw_sections
    /\ Forall2 (fun s o => section_of lax_float lax_int s = Ok o)
               raw_sections (AnalysisResponse.sections r).
Proof.
  intros H.
  apply process_analysis_parts in H
    as (rb & rs & rsec & _ & _ & Hsec & _ & _ & Hc & _).
  apply mapM_Forall2 in Hc.
  exists rsec. split; [exact Hsec|]. split; [|exact Hc].
  symmetry. exact (Forall2_length _ _ _ Hc).
Qed.

(** X11. The top-level fields: whenever the transformer returns, both
    payloads are mappings, [track] (when present) is a mapping, and the
    result takes [duration] from the track summary, else 0; [tempo] from
    the features, else from the track summary, else 120; [energy] from the
    features, else 0.5; and [track_id] as given. *)
Theorem top_level_fields
    (track_id : string) (analysis features : value) (r : AnalysisResponse.t) :
  process_analysis lax_float lax_int track_id analysis features = Ok r ->
  exists a f t,
    analysis = VDict a /\ features = VDict f
    /\ match assoc "track" a with Some v => v | None => VDict [] end = VDict t
    /\ AnalysisResponse.track_id r = track_id
    /\ as_float lax_float
         match assoc "duration" t with Some v => v | None => VInt 0 end
       = Ok (AnalysisResponse.duration r)
    /\ as_float lax_float
         match assoc "tempo" f with
         | Some v => v
         | None => match assoc "tempo" t with Some v => v | None => VInt 120 end
         end
       = Ok (AnalysisResponse.tempo r)
    /\ as_float lax_float
         match assoc "energy" f with Some v => v | None => VFloat (1 # 2) end
       = Ok (AnalysisResponse.energy r).
Proof.
  unfold process_analysis. intros H.
  inv_bind_as H rb Hrb. inv_bind_as H rbi Hrbi. inv_bind_as H bs Hbs.
  inv_bind_as H rs Hrs. inv_bind_as H cp Hcp. inv_bind_as H cpi Hcpi.
  inv_bind_as H sgs Hsgs. inv_bind_as H rsec Hrsec.
  inv_bind_as H rseci Hrseci. inv_bind_as H scs Hscs.
  inv_bind_as H ti Hti. inv_bind_as H du Hdu. inv_bind_as H inner Hinner.
  inv_bind_as H te Hte. inv_bind_as H en Hen.
  unfold AnalysisResponse_new in H.
  inv_bind_as H qd Hqd. inv_bind_as H qt Hqt. inv_bind_as H qe Hqe.
  injection H as <-. simpl.
  destruct analysis as [| | | | | |a]; try discriminate.
  destruct features as [| | | | | |f]; try discriminate.
  simpl in Hti. injection Hti as <-.
  destruct (match assoc "track" a with Some v => v | None => VDict [] end)
    as [| | | | | |t] eqn:Ht; try discriminate.
  simpl in Hdu, Hinner, Hte, Hen.
  injection Hdu as <-. injection Hinner as <-.
  injection Hte as <-. injection Hen as <-.
  exists a, f, t. repeat split; assumption.
Qed.

Lemma beats_of_drop (b : value) :
  beat_keep b = Ok false ->
  forall pre post,
    beats_of lax_float (pre ++ b :: post) = beats_of lax_float (pre ++ post).
Proof.
  intros Hb. induction pre as [|x pre IH]; intros post; simpl.
  - rewrite Hb. reflexivity.
  - destruct (beat_keep x) as [[|]|]; simpl; try reflexivity.
    + rewrite IH. reflexivity.
    + apply IH.
Qed.

(** X12. A beat that fails the confidence test is dropped without being
    looked at any further: a record without [confidence], or with a
    numeric confidence of at most the float [0.3], may lack [start] and
    [duration]; removing it from the raw beats changes nothing. *)
Theorem dropped_beat_is_not_built
    (track_id : string) (features : value) (rest : list (string * value))
    (pre post : list value) (b : list (string * value)) :
  match assoc "confidence" b with
  | None => True
  | Some c => exists x, number_of c = Some x /\ (x <= float_0_3)%Q
  end ->
  process_analysis lax_float lax_int track_id
    (VDict (("beats", VList (pre ++ VDict b :: post)) :: rest)) features
  = process_analysis lax_float lax_int track_id
      (VDict (("beats", VList (pre ++ post)) :: rest)) features.
Proof.
  intros Hc.
  assert (Hb : beat_keep (VDict b) = Ok false).
  { unfold beat_keep. simpl.
    destruct (assoc "confidence" b) as [c|]; [|reflexivity].
    destruct Hc as (x & Hx & Hle).
    assert (Hlt : forall y, (y <= float_0_3)%Q -> Qlt_bool float_0_3 y = false).
    { intros y Hy. unfold Qlt_bool. apply negb_false_iff.
      apply Qle_bool_iff. exact Hy. }
    destruct c; simpl in Hx |- *; try discriminate;
      injection Hx as <-; rewrite (Hlt _ Hle); reflexivity. }
  unfold process_analysis. simpl.
  rewrite (beats_of_drop _ Hb). reflexivity.
Qed.


(** X13. Segments after the first 2000 are never looked at: two analysis
    payloads that differ only there give the same outcome, be it a result
    or an exception. *)
Theorem segments_after_cap_ignored
    (track_id : string) (features : value) (rest : list (string * value))
    (first tail tail' : list value) :
  length first = 2000%nat ->
  process_analysis lax_float lax_int track_id
    (VDict (("segments", VList (first ++ tail)) :: rest)) features
  = process_analysis lax_float lax_int track_id
      (VDict (("segments", VList (first ++ tail')) :: rest)) features.
Proof.
  intros Hlen.
  assert (Hcap : forall t, firstn 2000 (first ++ t) = first).
  { intros t. rewrite <- Hlen. rewrite List.firstn_app, Nat.sub_diag.
    rewrite List.firstn_all. simpl. apply List.app_nil_r. }
  unfold process_analysis.
  cbn [py_get assoc String.eqb Ascii.eqb Bool.eqb bind py_slice_to py_iter].
  rewrite !Hcap. reflexivity.
Qed.


(** X14. What the transformer returns satisfies the constraints of the
    response models and is read back unchanged from its [model_dump()], the
    form in which it is cached. *)
Theorem transformer_output_round_trip
    (track_id : string) (analysis features : value) (r : AnalysisResponse.t) :
  process_analysis lax_float lax_int track_id analysis features = Ok r ->
  response_valid r = true
  /\ (length (AnalysisResponse.segments r) <= 2000)%nat
  /\ truthy (model_dump r) = true
  /\ AnalysisResponse_of_kwargs lax_float lax_int (model_dump r) = Ok r.
Proof.
  intros H.
  pose proof (process_analysis_valid _ _ _ _ _ _ H) as Hv.
  split; [exact Hv|]. split; [|split; [reflexivity|]].
  - apply process_analysis_parts in H
      as (rb & rs & rsec & _ & _ & _ & _ & Hs & _ & _).
    apply mapM_Forall2 in Hs.
    rewrite <- (Forall2_length _ _ _ Hs), length_firstn. lia.
  - apply model_dump_round_trip. exact Hv.
Qed.

End TransformerMore.

Lemma dropped_beat_is_not_built_witness :
  process_analysis strict_float strict_int sample_track_id
    (VDict [("beats", VList [sample_beat (1 # 2); VDict []; sample_beat (9 # 10)])])
    (VDict [])
  = process_analysis strict_float strict_int sample_track_id
      (VDict [("beats", VList [sample_beat (1 # 2); sample_beat (9 # 10)])])
      (VDict []).
Proof.
  apply (dropped_beat_is_not_built strict_float strict_int sample_track_id (VDict []) []
           [sample_beat (1 # 2)] [sample_beat (9 # 10)] []).
  simpl. exact I.
Defined.

Lemma segments_after_cap_ignored_witness :
  process_analysis strict_float strict_int sample_track_id
    (VDict [("segments", VList (repeat sample_segment 2000 ++ [VNone]))])
    (VDict [])
  = process_analysis strict_float strict_int sample_track_id
      (VDict [("segments", VList (repeat sample_segment 2000 ++ []))])
      (VDict []).
Proof.
  apply (segments_after_cap_ignored strict_float strict_int sample_track_id (VDict []) []
           (repeat sample_segment 2000) [VNone] []).
  apply repeat_length.
Defined.

Lemma sections_not_capped_witness :
  exists r,
    process_analysis strict_float strict_int sample_track_id
      (VDict [("sections", VList (repeat sample_segment 2500))]) (VDict [])
    = Ok r
    /\ length (AnalysisResponse.sections r) = 2500%nat.
Proof.
  destruct (process_analysis strict_float strict_int sample_track_id
              (VDict [("sections", VList (repeat sample_segment 2500))])
              (VDict [])) as [r|e] eqn:H.
  - exists r. split; [reflexivity|].
    destruct (sections_not_capped _ _ _ _ _ _ H) as (raw & Hraw & Hlen & _).
    vm_compute in Hraw. injection Hraw as <-.
    rewrite Hlen. reflexivity.
  - vm_compute in H. discriminate H.
Defined.

Lemma top_level_fields_witness :
  exists r,
    process_analysis strict_float strict_int sample_track_id
      (VDict [("track", VDict [("tempo", VInt 90)])])
      (VDict [("tempo", VInt 128)])
    = Ok r
    /\ AnalysisResponse.tempo r = inject_Z 128
    /\ AnalysisResponse.energy r = (1 # 2)%Q
    /\ AnalysisResponse.duration r = inject_Z 0.
Proof.
  destruct (process_analysis strict_float strict_int sample_track_id
              (VDict [("track", VDict [("tempo", VInt 90)])])
              (VDict [("tempo", VInt 128)])) as [r|e] eqn:H.
  - exists r. split; [reflexivity|].
    destruct (top_level_fields _ _ _ _ _ _ H)
      as (a & f & t & Ha & Hf & Ht & _ & Hd & Hte & Hen).
    injection Ha as <-. injection Hf as <-. simpl in Ht. injection Ht as <-.
    simpl in Hd, Hte, Hen.
    injection Hd as <-. injection Hte as <-. injection Hen as <-.
    repeat split.
  - vm_compute in H. discriminate H.
Defined.

Lemma transformer_output_round_trip_witness :
  exists r,
    process_analysis strict_float strict_int sample_track_id sample_analysis
                     (VDict []) = Ok r
    /\ AnalysisResponse_of_kwargs strict_float strict_int (model_dump r) = Ok r.
Proof.
  destruct (process_analysis strict_float strict_int sample_track_id
              sample_analysis (VDict [])) as [r|e] eqn:H.
  - exists r. split; [reflexivity|].
    apply (transformer_output_round_trip _ _ _ _ _ _ H).
  - vm_compute in H. discriminate H.
Defined.

(** ** More of the request handler *)

Lemma lstrip_length (s : string) :
  (String.length (lstrip s) <= String.length s)%nat.
Proof.
  induction s as [|c s IH]; simpl; [lia|].
  destruct (is_space c); simpl; lia.
Qed.

Lemma lstrip_same (s : string) :
  String.length (lstrip s) = String.length s -> lstrip s = s.
Proof.
  destruct s as [|c s]; simpl; [reflexivity|].
  destruct (is_space c); [|reflexivity].
  pose proof (lstrip_length s). lia.
Qed.

Lemma rstrip_length (s : string) :
  (String.length (rstrip s) <= String.length s)%nat.
Proof.
  induction s as [|c s IH]; simpl; [lia|].
  destruct (rstrip s) as [|c' r].
  - destruct (is_space c); simpl in *; lia.
  - simpl in *. lia.
Qed.

Lemma rstrip_same :
  forall s, String.length (rstrip s) = String.length s -> rstrip s = s.
Proof.
  induction s as [|c s IH]; simpl; [reflexivity|].
  pose proof (rstrip_length s) as Hle.
  destruct (rstrip s) as [|c' r] eqn:Hr.
  - destruct (is_space c); simpl in *; intros H.
    + lia.
    + destruct s; [reflexivity | simpl in H; lia].
  - simpl. intros H. rewrite IH; [reflexivity | simpl in *; lia].
Qed.

Lemma strip_same (s : string) :
  String.length (strip s) = String.length s -> strip s = s.
Proof.
  unfold strip. intros H.
  pose proof (rstrip_length (lstrip s)). pose proof (lstrip_length s).
  assert (Hl : lstrip s = s) by (apply lstrip_same; lia).
  rewrite Hl in *. apply rstrip_same. exact H.
Qed.

Lemma is_track_identifier_length (s : string) :
  is_track_identifier s = true -> String.length s = 22%nat.
Proof.
  unfold is_track_identifier. intros H.
  apply andb_true_iff in H as [H _]. apply Nat.eqb_eq. exact H.
Qed.

(** Past the path constraint and the validator the identifier is the one
    given: the trimming in the validator cannot remove anything from a
    string that must have twenty-two characters before and after. *)
Lemma valid_path_id (track_id : string) :
  is_track_identifier track_id = true <->
  String.length track_id = 22%nat
  /\ validate_track_id_param track_id = Ok track_id.
Proof.
  unfold validate_track_id_param. rewrite re_match_track_id_strip. split.
  - intros H. pose proof (is_track_identifier_length _ H) as Hl.
    split; [exact Hl|].
    assert (Hs : strip track_id = track_id).
    { (* the input has no white space at either end *)
      pose proof H as Hall. unfold is_track_identifier in Hall.
      apply andb_true_iff in Hall as [_ Hall].
      assert (Hns : forall c, is_base62 c = true -> is_space c = false).
      { intros c. destruct c as [[] [] [] [] [] [] [] []];
          vm_compute; congruence. }
      assert (Hl' : lstrip track_id = track_id).
      { destruct track_id as [|c s]; [reflexivity|]. simpl in *.
        apply andb_true_iff in Hall as [Hc _]. rewrite (Hns _ Hc).
        reflexivity. }
      unfold strip. rewrite Hl'.
      clear H Hl Hl'. revert Hall.
      induction track_id as [|c s IH]; intros Hall; [reflexivity|].
      simpl in *. apply andb_true_iff in Hall as [Hc Hall].
      rewrite (IH Hall), (Hns _ Hc). destruct s; reflexivity. }
    rewrite Hs, H. reflexivity.
  - intros [Hl Hv].
    destruct (is_track_identifier (strip track_id)) eqn:Hi; [|discriminate].
    simpl in Hv. injection Hv as Hs. rewrite Hs in Hi. exact Hi.
Qed.

Lemma invalid_path_id (track_id : string) :
  is_track_identifier track_id = false ->
  String.length track_id <> 22%nat
  \/ validate_track_id_param track_id = Raise InvalidTrackError.
Proof.
  intros H.
  destruct (Nat.eq_dec (String.length track_id) 22%nat) as [Hl|Hl];
    [|left; exact Hl].
  right. unfold validate_track_id_param. rewrite re_match_track_id_strip.
  destruct (is_track_identifier (strip track_id)) eqn:Hi; [|reflexivity].
  exfalso.
  assert (Hs : strip track_id = track_id).
  { apply strip_same. rewrite (is_track_identifier_length _ Hi), Hl.
    reflexivity. }
  rewrite Hs in Hi. congruence.
Qed.

(** What [_make_request] returns depends on the provider's answer alone. *)
Lemma make_request_result (token endpoint : string) (w w' : World) :
  upstream w' = upstream w ->
  fst (_make_request token endpoint w') = fst (_make_request token endpoint w).
Proof.
  intros Hu. unfold _make_request, bindM, client_request.
  cbn [fst snd]. rewrite Hu.
  destruct (upstream w token endpoint) as [status headers json| |];
    try reflexivity.
  repeat (match goal with
          | |- context [if ?b then _ else _] => destruct b
          end; try reflexivity).
Qed.

Lemma get_cached_analysis_world (track_id : string) (w : World) :
  snd (get_cached_analysis track_id w) = w.
Proof.
  unfold get_cached_analysis, bindM, get_db, try_except, find_one.
  destruct (db_initialized w); [|reflexivity].
  destruct (find_one_fault w); [reflexivity|].
  destruct (analysis_cache w !! track_id); reflexivity.
Qed.

Section HandlerMore.

Variable lax_float : value -> option Q.
Variable lax_int : value -> option Z.

(** X15. A track identifier that is not twenty-two base62 characters as
    given, white space at either end included, is refused before any
    I/O: the request fails with HTTP 422 or 400, no cache command is issued,
    nothing is sent upstream and the world is unchanged.  An identifier of
    twenty-two base62 characters passes both checks unchanged. *)
Theorem get_analysis_rejects_before_io
    (token track_id : string) (w : World) :
  (is_track_identifier track_id = false ->
   exists e,
     get_analysis lax_float lax_int token track_id w = (Raise e, w)
     /\ (status_code e = 422 \/ status_code e = 400))
  /\ (is_track_identifier track_id = true ->
      String.length track_id = 22%nat
      /\ validate_track_id_param track_id = Ok track_id).
Proof.
  split; [|apply valid_path_id].
  intros H. unfold get_analysis.
  destruct (invalid_path_id _ H) as [Hl | Hv].
  - apply Nat.eqb_neq in Hl. rewrite Hl.
    exists RequestValidationError. split; [reflexivity | left; reflexivity].
  - destruct (String.length track_id =? 22)%nat.
    + exists InvalidTrackError. cbn [negb]. unfold bindM at 1, lift at 1.
      rewrite Hv. split; [reflexivity | right; reflexivity].
    + exists RequestValidationError. split; [reflexivity | left; reflexivity].
Qed.

(** X16. When the analysis fetch fails after a cache miss, the features
    are never requested: the request fails with the error of the analysis
    fetch after exactly one upstream request. *)
Theorem analysis_failure_skips_features
    (token track_id : string) (w : World) (cached : value) (e : exn) :
  is_track_identifier track_id = true ->
  fst (get_cached_analysis track_id w) = Ok cached ->
  truthy cached = false ->
  fst (get_audio_analysis token track_id w) = Raise e ->
  get_analysis lax_float lax_int token track_id w
  = (Raise e, add_request token ("/audio-analysis/" ++ track_id) w)
  /\ requests (snd (get_analysis lax_float lax_int token track_id w))
     = (token, "/audio-analysis/" ++ track_id) :: requests w.
Proof.
  intros Hid Hc Hmiss Ha.
  apply valid_path_id in Hid as [Hlen Hv].
  assert (Hc' : get_cached_analysis track_id w = (Ok cached, w)).
  { rewrite (surjective_pairing (get_cached_analysis track_id w)).
    rewrite Hc, get_cached_analysis_world. reflexivity. }
  assert (Hr : get_analysis lax_float lax_int token track_id w
               = (Raise e, add_request token ("/audio-analysis/" ++ track_id) w)).
  { rewrite (get_analysis_lookup _ _ _ _ _ _ _ _ Hlen Hv Hc'), Hmiss.
    unfold bindM at 1. unfold get_audio_analysis in *.
    rewrite make_request_run, Ha. reflexivity. }
  rewrite Hr. split; reflexivity.
Qed.

(** X17. Before [connect_db] has run the cache does not degrade to a miss:
    [get_db] is called outside the [try] and both cache operations raise
    [RuntimeError]; a request for a valid identifier fails with it (HTTP
    500) before anything is sent upstream. *)
Theorem uninitialised_db_is_fatal
    (token track_id : string) (a : value) (w : World) :
  db_initialized w = false ->
  let e := RuntimeError "Database not initialized. Call connect_db() first." in
  get_cached_analysis track_id w = (Raise e, w)
  /\ cache_analysis track_id a w = (Raise e, w)
  /\ status_code e = 500
  /\ (is_track_identifier track_id = true ->
      get_analysis lax_float lax_int token track_id w = (Raise e, w)).
Proof.
  intros Hdb e.
  assert (Hg : get_cached_analysis track_id w = (Raise e, w)).
  { unfold get_cached_analysis, bindM, get_db. rewrite Hdb. reflexivity. }
  split; [exact Hg|]. split; [|split; [reflexivity|]].
  - unfold cache_analysis, bindM, get_db. rewrite Hdb. reflexivity.
  - intros Hid. apply valid_path_id in Hid as [Hlen Hv].
    unfold get_analysis. rewrite Hlen. simpl.
    unfold bindM at 1, lift at 1. rewrite Hv.
    unfold bindM at 1. rewrite Hg. reflexivity.
Qed.

End HandlerMore.

Lemma get_analysis_rejects_before_io_witness :
  get_analysis strict_float strict_int sample_token_a
               " 4uLU6hMCjMI75M1A2tKU " serving_world
  = (Raise InvalidTrackError, serving_world).
Proof.
  destruct (get_analysis_rejects_before_io strict_float strict_int
              sample_token_a " 4uLU6hMCjMI75M1A2tKU " serving_world)
    as [H _].
  destruct (H eq_refl) as (e & He & _).
  rewrite He. f_equal.
  assert (Hfst : fst (get_analysis strict_float strict_int sample_token_a
                        " 4uLU6hMCjMI75M1A2tKU " serving_world)
                 = Raise InvalidTrackError) by reflexivity.
  rewrite He in Hfst. exact Hfst.
Defined.

Lemma analysis_failure_skips_features_witness :
  get_analysis strict_float strict_int sample_token_a sample_track_id
               expired_token_world
  = (Raise (SpotifyAuthError "Token expired. Please re-authenticate."),
     add_request sample_token_a ("/audio-analysis/" ++ sample_track_id)
                 expired_token_world).
Proof.
  apply (analysis_failure_skips_features strict_float strict_int
           sample_token_a sample_track_id expired_token_world VNone);
    reflexivity.
Defined.

Lemma uninitialised_db_is_fatal_witness :
  get_analysis strict_float strict_int sample_token_a sample_track_id
               unconnected_world
  = (Raise (RuntimeError "Database not initialized. Call connect_db() first."),
     unconnected_world).
Proof.
  apply (uninitialised_db_is_fatal strict_float strict_int sample_token_a
           sample_track_id VNone unconnected_world eq_refl).
  reflexivity.
Defined.

Lemma miss_then_hit_witness :
  exists w3,
    get_analysis strict_float strict_int sample_token_a sample_track_id
                 serving_world = (Ok small_response, w3)
    /\ get_analysis strict_float strict_int sample_token_b sample_track_id w3
       = (Ok small_response, w3).
Proof.
  edestruct (miss_then_hit strict_float strict_int sample_token_a
               sample_token_b sample_track_id sample_track_id serving_world)
    as (w3 & H1 & H2 & _);
    [reflexivity | reflexivity | reflexivity | reflexivity | reflexivity
    | reflexivity | reflexivity | reflexivity | reflexivity | |].
  - reflexivity.
  - exists w3. split; assumption.
Defined.

(** ** More of the cache store *)

Lemma get_cached_analysis_result (track_id : string) (w : World) :
  fst (get_cached_analysis track_id w)
  = if db_initialized w
    then match find_one_fault w with
         | Some _ => Ok VNone
         | None => Ok match analysis_cache w !! track_id with
                      | Some d => analysis d
                      | None => VNone
                      end
         end
    else Raise (RuntimeError
                  "Database not initialized. Call connect_db() first.").
Proof.
  unfold get_cached_analysis, bindM, get_db, try_except, find_one.
  destruct (db_initialized w); [|reflexivity].
  destruct (find_one_fault w); [reflexivity|].
  destruct (analysis_cache w !! track_id); reflexivity.
Qed.

Lemma cache_analysis_world (track_id : string) (a : value) (w : World) :
  snd (cache_analysis track_id a w)
  = if db_initialized w
    then match update_one_fault w with
         | Some _ => w
         | None =>
             set_cache (<[track_id := mkDoc a (utcnow w)]> (analysis_cache w)) w
         end
    else w.
Proof.
  unfold cache_analysis, bindM, get_db, try_except, datetime_utcnow,
    update_one_set.
  destruct (db_initialized w); [|reflexivity]. simpl.
  destruct (update_one_fault w); reflexivity.
Qed.

(** X18. Tracks do not interfere: caching one track, whether the write
    succeeds or fails, leaves what the cache returns for every other track
    as it was. *)
Theorem cache_put_isolated
    (track_id other : string) (a : value) (w : World) :
  other <> track_id ->
  fst (get_cached_analysis other (snd (cache_analysis track_id a w)))
  = fst (get_cached_analysis other w).
Proof.
  intros Hne.
  rewrite !get_cached_analysis_result, cache_analysis_world.
  destruct (db_initialized w) eqn:Hdb; [|rewrite Hdb; reflexivity].
  destruct (update_one_fault w); [rewrite Hdb; reflexivity|].
  simpl. rewrite Hdb.
  destruct (find_one_fault w); [reflexivity|].
  rewrite lookup_insert_ne by congruence. reflexivity.
Qed.

Lemma cache_put_isolated_witness :
  fst (get_cached_analysis sample_track_id
         (snd (cache_analysis "0000000000000000000000" VNone warm_world)))
  = Ok (model_dump sample_response).
Proof.
  rewrite (cache_put_isolated "0000000000000000000000" sample_track_id VNone
             warm_world); [reflexivity | discriminate].
Defined.

(** X19. The statistics count tracks, not writes: with a working driver
    [get_cache_stats] reports the number of cached tracks, which a
    successful write raises by one for a track not yet cached and leaves
    unchanged for a cached one; when the driver fails it reports -1, which
    no count equals, and does not raise. *)
Theorem cache_stats_count_tracks
    (track_id : string) (a : value) (w : World) (e : exn) :
  db_initialized w = true ->
  update_one_fault w = None ->
  let n := Z.of_nat (size (analysis_cache w)) in
  let w1 := snd (cache_analysis track_id a w) in
  get_cache_stats None w = (Ok (VDict [("cached_tracks", VInt n)]), w)
  /\ fst (get_cache_stats None w1)
     = Ok (VDict [("cached_tracks",
                   VInt (match analysis_cache w !! track_id with
                         | Some _ => n
                         | None => n + 1
                         end))])
  /\ get_cache_stats (Some e) w = (Ok (VDict [("cached_tracks", VInt (-1))]), w)
  /\ 0 <= n.
Proof.
  intros Hdb Hupd n w1. subst w1.
  rewrite (cache_analysis_stores _ _ _ Hdb Hupd). simpl.
  unfold get_cache_stats, bindM, get_db, try_except, count_documents. simpl.
  rewrite Hdb. simpl.
  split; [reflexivity|]. split; [|split; [reflexivity | lia]].
  do 4 f_equal. f_equal.
  rewrite map_size_insert.
  destruct (analysis_cache w !! track_id) as [d|] eqn:Hd; unfold n; simpl; lia.
Qed.

Lemma cache_stats_count_tracks_witness :
  fst (get_cache_stats None
         (snd (cache_analysis sample_track_id VNone warm_world)))
  = Ok (VDict [("cached_tracks", VInt 1)])
  /\ fst (get_cache_stats None
            (snd (cache_analysis "0000000000000000000000" VNone warm_world)))
     = Ok (VDict [("cached_tracks", VInt 2)]).
Proof.
  split.
  - destruct (cache_stats_count_tracks sample_track_id VNone warm_world
                TypeError eq_refl eq_refl) as (_ & H & _).
    rewrite H. reflexivity.
  - destruct (cache_stats_count_tracks "0000000000000000000000" VNone
                warm_world TypeError eq_refl eq_refl) as (_ & H & _).
    rewrite H. reflexivity.
Defined.

(** ** Features and playback endpoints *)

Section EndpointFacts.

Variable lax_float : value -> option Q.
Variable lax_int : value -> option Z.
Variable lax_bool : value -> option bool.

Lemma get_features_valid (token track_id : string) (w : World) :
  is_track_identifier track_id = true ->
  get_features lax_float token track_id w
  = (match fst (_make_request token ("/audio-features/" ++ track_id) w) with
     | Ok features =>
         if negb (truthy features) then Raise (NotFoundError "Track features")
         else AudioFeatures_of lax_float features
     | Raise e => Raise e
     end,
     add_request token ("/audio-features/" ++ track_id) w).
Proof.
  intros Hid. apply valid_path_id in Hid as [Hlen Hv].
  unfold get_features. rewrite Hlen. cbn [Nat.eqb negb].
  change (negb (22 =? 22)%nat) with false. cbv iota.
  unfold bindM at 1, lift at 1. rewrite Hv.
  unfold bindM at 1, get_audio_features. rewrite make_request_run.
  destruct (fst (_make_request token ("/audio-features/" ++ track_id) w))
    as [features|e]; [|reflexivity].
  cbn [fst]. destruct (truthy features); reflexivity.
Qed.

Lemma get_features_invalid (token track_id : string) (w : World) :
  is_track_identifier track_id = false ->
  exists e, get_features lax_float token track_id w = (Raise e, w).
Proof.
  intros H. unfold get_features.
  destruct (invalid_path_id _ H) as [Hl | Hv].
  - apply Nat.eqb_neq in Hl. rewrite Hl. eexists. reflexivity.
  - destruct (String.length track_id =? 22)%nat; cbn [negb].
    + unfold bindM at 1, lift at 1. rewrite Hv. eexists. reflexivity.
    + eexists. reflexivity.
Qed.

(** X20. The features endpoint never uses the cache: what it returns does
    not depend on the database handle, the collection, the driver or the
    clock, and the only thing it changes is the record of the one request
    it sends for a valid identifier.  An absent or empty features payload
    is reported as [NotFoundError] (HTTP 404); the defaults of the fields
    are not used for it. *)
Theorem get_features_bypasses_cache
    (token track_id : string) (w : World) :
  let out := get_features lax_float token track_id w in
  (forall db c ff uf now,
      fst (get_features lax_float token track_id
             (mkWorld db c ff uf now (upstream w) (requests w)))
      = fst out)
  /\ snd out
     = (if is_track_identifier track_id
        then add_request token ("/audio-features/" ++ track_id) w
        else w)
  /\ (forall payload,
         is_track_identifier track_id = true ->
         fst (get_audio_features token track_id w) = Ok payload ->
         truthy payload = false ->
         fst out = Raise (NotFoundError "Track features")
         /\ status_code (NotFoundError "Track features") = 404).
Proof.
  intros out. subst out.
  destruct (is_track_identifier track_id) eqn:Hid.
  - split; [|split].
    + intros db c ff uf now. rewrite !get_features_valid by exact Hid.
      cbn [fst].
      rewrite (make_request_result token _ w
                 (mkWorld db c ff uf now (upstream w) (requests w)) eq_refl).
      reflexivity.
    + rewrite get_features_valid by exact Hid. reflexivity.
    + intros payload _ Hp Hfalsy. split; [|reflexivity].
      rewrite get_features_valid by exact Hid. cbn [fst].
      unfold get_audio_features in Hp. rewrite Hp, Hfalsy. reflexivity.
  - split; [|split; [|discriminate]].
    + intros db c ff uf now.
      destruct (get_features_invalid token track_id w Hid) as [e He].
      unfold get_features in *.
      destruct (invalid_path_id _ Hid) as [Hl | Hv].
      * apply Nat.eqb_neq in Hl. rewrite Hl. reflexivity.
      * destruct (String.length track_id =? 22)%nat; cbn [negb];
          [|reflexivity].
        unfold bindM at 1 3, lift at 1 2. rewrite Hv. reflexivity.
    + destruct (get_features_invalid token track_id w Hid) as [e He].
      rewrite He. reflexivity.
Qed.

(** X21. A track is extracted only from a mapping that carries an [id]
    string and a [duration_ms] that validates to a positive integer: the
    default 0 for a missing [duration_ms] is never accepted.  In a result,
    the artist is ["Unknown Artist"] when [artists] is absent, the name is
    ["Unknown Track"] when [name] is absent, and without [album] the album
    is ["Unknown Album"] and there is no album art. *)
Theorem extract_track_info_requires (track_data : value) (t : TrackInfo.t) :
  extract_track_info lax_int track_data = Ok t ->
  exists d v,
    track_data = VDict d
    /\ assoc "id" d = Some (VStr (TrackInfo.id t))
    /\ assoc "duration_ms" d = Some v
    /\ as_int lax_int v = Ok (TrackInfo.duration_ms t)
    /\ 0 < TrackInfo.duration_ms t
    /\ (assoc "artists" d = None -> TrackInfo.artist t = "Unknown Artist")
    /\ (assoc "name" d = None -> TrackInfo.name t = "Unknown Track")
    /\ (assoc "album" d = None ->
        TrackInfo.album t = "Unknown Album" /\ TrackInfo.album_art t = None).
Proof.
  unfold extract_track_info. intros H.
  inv_bind_as H artists Hartists. inv_bind_as H artist_name Hartist.
  inv_bind_as H album Halbum. inv_bind_as H images Himages.
  inv_bind_as H album_art Hart. inv_bind_as H ident Hid.
  inv_bind_as H name Hname. inv_bind_as H album_name Halbum_name.
  inv_bind_as H duration_ms Hdur.
  unfold TrackInfo_new in H.
  inv_bind_as H i Hi. inv_bind_as H n Hn. inv_bind_as H ar Har.
  inv_bind_as H al Hal. inv_bind_as H art Hart'. inv_bind_as H ms Hms.
  inv_bind_as H u Hu. injection H as <-. cbn [TrackInfo.id TrackInfo.name
    TrackInfo.artist TrackInfo.album TrackInfo.album_art TrackInfo.duration_ms].
  apply check_true in Hu. apply Z.ltb_lt in Hu.
  destruct track_data as [| | | | | |d]; try discriminate.
  cbn [py_get py_getitem] in *.
  injection Hartists as <-. injection Halbum as <-.
  injection Hname as <-. injection Hdur as <-.
  destruct (assoc "id" d) as [vid|] eqn:Eid; [|discriminate].
  cbn [of_option] in Hid. injection Hid as <-.
  destruct vid; try discriminate. cbn [as_str] in Hi. injection Hi as <-.
  destruct (assoc "duration_ms" d) as [v|] eqn:Edur.
  - exists d, v. split; [reflexivity|]. split; [exact Eid|].
    split; [exact Edur|]. split; [exact Hms|]. split; [exact Hu|].
    split; [|split].
    + intros Hnone. rewrite Hnone in Hartist. cbn in Hartist.
      injection Hartist as <-. cbn in Har. injection Har as <-. reflexivity.
    + intros Hnone. rewrite Hnone in Hn. cbn in Hn. injection Hn as <-.
      reflexivity.
    + intros Hnone. rewrite Hnone in Himages, Halbum_name.
      cbn in Himages, Halbum_name.
      injection Himages as <-. injection Halbum_name as <-.
      cbn in Hart. injection Hart as <-.
      cbn in Hal, Hart'. injection Hal as <-. injection Hart' as <-.
      split; reflexivity.
  - exfalso. cbn [as_int] in Hms. injection Hms as <-. lia.
Qed.

Lemma get_playback_run (token : string) (w : World) :
  snd (get_playback lax_int lax_bool token w)
  = add_request token "/me/player/currently-playing" w.
Proof.
  unfold get_playback, get_current_playback. unfold bindM at 1.
  rewrite make_request_run.
  destruct (fst (_make_request token "/me/player/currently-playing" w))
    as [data|e]; [|reflexivity].
  destruct (truthy data); [|reflexivity]. cbn [negb].
  unfold bindM at 1, lift at 1.
  destruct (py_contains data "item") as [[|]|]; try reflexivity. cbn [negb].
  unfold bindM at 1, lift at 1.
  destruct (py_get data "item" VNone) as [track|]; [|reflexivity].
  destruct (truthy track); cbn [negb].
  - unfold bindM at 1, lift at 1.
    destruct (py_get data "is_playing" (VBool false)); [|reflexivity].
    unfold bindM at 1, lift at 1.
    destruct (py_get data "progress_ms" (VInt 0)); [|reflexivity].
    unfold bindM at 1, lift at 1.
    destruct (extract_track_info lax_int track); [|reflexivity].
    unfold bindM at 1, lift at 1.
    destruct (PlaybackState_new lax_int lax_bool a a0 (Some a1)); reflexivity.
  - unfold bindM at 1, lift at 1.
    destruct (py_get data "is_playing" (VBool false)); [|reflexivity].
    unfold bindM at 1, lift at 1.
    destruct (py_get data "progress_ms" (VInt 0)); [|reflexivity].
    unfold bindM at 1, lift at 1.
    destruct (PlaybackState_new lax_int lax_bool a a0 None); reflexivity.
Qed.

(** X22. The playback endpoint sends exactly one request and never touches
    the cache.  When the provider answers 204, or with an empty payload, or
    with a mapping that has no [item], it returns [None] without error;
    when [item] is present but null, it returns a state without a track. *)
Theorem get_playback_nothing_playing (token : string) (w : World) :
  let out := get_playback lax_int lax_bool token w in
  snd out = add_request token "/me/player/currently-playing" w
  /\ (forall data,
         fst (get_current_playback token w) = Ok data ->
         truthy data = false \/ py_contains data "item" = Ok false ->
         fst out = Ok None)
  /\ (forall d is_playing progress_ms,
         fst (get_current_playback token w) = Ok (VDict d) ->
         assoc "item" d = Some VNone ->
         assoc "is_playing" d = Some (VBool is_playing) ->
         assoc "progress_ms" d = Some (VInt progress_ms) ->
         0 <= progress_ms ->
         fst out
         = Ok (Some (PlaybackState.mk is_playing progress_ms None))).
Proof.
  intros out. subst out. split; [apply get_playback_run|].
  unfold get_playback, get_current_playback. split.
  - intros data Hd Hnone. unfold bindM at 1.
    rewrite make_request_run. rewrite Hd.
    destruct Hnone as [Hf | Hc].
    + rewrite Hf. reflexivity.
    + destruct (truthy data); [|reflexivity]. cbn [negb].
      unfold bindM at 1, lift at 1. rewrite Hc. reflexivity.
  - intros d is_playing progress_ms Hd Hitem Hplay Hprog Hge.
    unfold bindM at 1. rewrite make_request_run. rewrite Hd.
    assert (Ht : truthy (VDict d) = true)
      by (destruct d; [discriminate Hitem | reflexivity]).
    rewrite Ht. cbn [negb]. unfold bindM, lift. cbn [py_contains py_get].
    rewrite Hitem, Hplay, Hprog. cbn.
    apply Z.leb_le in Hge. rewrite Hge. reflexivity.
Qed.

End EndpointFacts.

Lemma extract_track_info_requires_witness :
  exists t,
    extract_track_info strict_int
      (VDict [("id", VStr sample_track_id); ("duration_ms", VInt 215000)])
    = Ok t
    /\ TrackInfo.artist t = "Unknown Artist"
    /\ 0 < TrackInfo.duration_ms t.
Proof.
  destruct (extract_track_info strict_int
              (VDict [("id", VStr sample_track_id);
                      ("duration_ms", VInt 215000)])) as [t|e] eqn:H.
  - exists t. split; [reflexivity|].
    destruct (extract_track_info_requires _ _ _ H)
      as (d & v & Hd & _ & _ & _ & Hpos & Hartist & _).
    injection Hd as <-. split; [apply Hartist; reflexivity | exact Hpos].
  - vm_compute in H. discriminate H.
Defined.

(** ** Token exchange and OAuth endpoints *)

(** X23. The code exchange returns the provider's payload only when it
    holds no ["error"] and holds an ["access_token"]; it never looks at the
    HTTP status or the headers of the answer; and a code shorter than ten
    characters is refused with [SpotifyAuthError] (HTTP 401) whatever the
    provider would answer. *)
Theorem exchange_code_for_token_result (code : string) (post : http_outcome) :
  (forall data,
      exchange_code_for_token code post = Ok data ->
      (10 <= String.length code)%nat
      /\ post_json post = Ok data
      /\ py_contains data "error" = Ok false
      /\ py_contains data "access_token" = Ok true)
  /\ (forall status headers status' headers' json,
         exchange_code_for_token code (Response status headers json)
         = exchange_code_for_token code (Response status' headers' json))
  /\ ((String.length code < 10)%nat ->
      exchange_code_for_token code post
      = Raise (SpotifyAuthError "Invalid authorization code")
      /\ status_code (SpotifyAuthError "Invalid authorization code") = 401).
Proof.
  split; [|split].
  - intros data. unfold exchange_code_for_token.
    destruct (String.eqb code "" || (String.length code <? 10)%nat) eqn:Hc;
      [discriminate|].
    apply orb_false_iff in Hc as [_ Hc]. apply Nat.ltb_ge in Hc.
    intros H. inv_bind_as H d Hd. inv_bind_as H he Hhe.
    destruct he.
    + inv_bind_as H x Hx. discriminate.
    + inv_bind_as H ht Hht. destruct ht; [|discriminate].
      injection H as <-. auto.
  - reflexivity.
  - intros Hlt. split; [|reflexivity]. unfold exchange_code_for_token.
    apply Nat.ltb_lt in Hlt. rewrite Hlt, orb_true_r. reflexivity.
Qed.

Section AuthFacts.

Variable lax_int : value -> option Z.

(** X24. The refresh endpoint: a refresh token that the request model
    accepts is the trimmed body field; when trimming leaves fewer than
    twenty characters the request is refused with [SpotifyAuthError] (HTTP
    401) whatever the provider would answer; and when the provider answers
    a mapping with neither ["error"] nor ["access_token"], the request
    fails with [KeyError] (HTTP 500), the check that [exchange_code_for_token]
    makes being absent here. *)
Theorem refresh_token_outcomes
    (body_refresh_token rt : string) (post : http_outcome) :
  RefreshTokenRequest_new body_refresh_token = Ok rt ->
  rt = strip body_refresh_token
  /\ ((String.length rt < 20)%nat ->
      refresh_token lax_int body_refresh_token post
      = Raise (SpotifyAuthError "Invalid refresh token"))
  /\ (forall d,
         (20 <= String.length rt)%nat ->
         post_json post = Ok (VDict d) ->
         assoc "error" d = None ->
         assoc "access_token" d = None ->
         refresh_token lax_int body_refresh_token post
         = Raise (KeyError "access_token")
         /\ status_code (KeyError "access_token") = 500)
  /\ (forall d a,
         (20 <= String.length rt)%nat ->
         post_json post = Ok (VDict d) ->
         assoc "error" d = None ->
         assoc "access_token" d = Some (VStr a) ->
         assoc "expires_in" d = None ->
         refresh_token lax_int body_refresh_token post
         = Ok (TokenResponse.mk a "Bearer" 3600)).
Proof.
  intros Hreq.
  assert (Hrt : rt = strip body_refresh_token).
  { unfold RefreshTokenRequest_new, RefreshTokenRequest_validate_token_format
      in Hreq.
    destruct ((String.length body_refresh_token <? 20)%nat
              || (500 <? String.length body_refresh_token)%nat);
      [discriminate|].
    destruct (negb (re_match_token (strip body_refresh_token)));
      [discriminate|].
    injection Hreq as <-. reflexivity. }
  assert (Hne : (20 <= String.length rt)%nat ->
                String.eqb rt "" || (String.length rt <? 20)%nat = false).
  { intros Hl. apply orb_false_iff. split.
    - destruct rt; [simpl in Hl; lia | reflexivity].
    - apply Nat.ltb_ge. exact Hl. }
  split; [exact Hrt|]. unfold refresh_token. rewrite Hreq.
  unfold refresh_access_token. split; [|split].
  - intros Hlt. apply Nat.ltb_lt in Hlt. rewrite Hlt, orb_true_r. reflexivity.
  - intros d Hl Hp He Ha. rewrite (Hne Hl), Hp. cbn [bind py_contains].
    rewrite He. cbn [bind py_getitem]. rewrite Ha. split; reflexivity.
  - intros d a Hl Hp He Ha Hex. rewrite (Hne Hl), Hp. cbn [bind py_contains].
    rewrite He. cbn [bind py_getitem py_get]. rewrite Ha, Hex. reflexivity.
Qed.

End AuthFacts.

Lemma refresh_token_outcomes_witness :
  refresh_token strict_int "  AAAAAAAAAAAAAAAAAA  " RequestError
  = Raise (SpotifyAuthError "Invalid refresh token")
  /\ refresh_token strict_int "AAAAAAAAAAAAAAAAAAAAAAAA"
       (Response 200 [] (Some (VDict [("token_type", VStr "Bearer")])))
     = Raise (KeyError "access_token").
Proof.
  split.
  - destruct (refresh_token_outcomes strict_int "  AAAAAAAAAAAAAAAAAA  "
                "AAAAAAAAAAAAAAAAAA" RequestError eq_refl) as (_ & H & _).
    apply H. simpl. lia.
  - destruct (refresh_token_outcomes strict_int "AAAAAAAAAAAAAAAAAAAAAAAA"
                "AAAAAAAAAAAAAAAAAAAAAAAA"
                (Response 200 [] (Some (VDict [("token_type", VStr "Bearer")])))
                eq_refl) as (_ & _ & H & _).
    apply (H [("token_type", VStr "Bearer")]); try reflexivity. simpl. lia.
Defined.

(** X25. A pending state is good for one callback only, and its age is not
    looked at: once a callback has got past the state check, the state is
    gone from the pending states, whether the code exchange then succeeds,
    is refused or raises, and any later callback with that state is sent to
    the [invalid_state] page without a code exchange. *)
Theorem callback_state_single_use
    (code state : string) (error : option string) (frontend_url : string)
    (post : http_outcome) (pending : gmap string Q) (issued_at : Q) :
  (10 <= String.length code <= 500)%nat ->
  match error with Some e => e = EmptyString | None => True end ->
  validate_state_param (Some state) = Some state ->
  pending !! state = Some issued_at ->
  let pending' :=
    snd (callback (Some code) (Some state) error frontend_url post pending) in
  pending' = delete state pending
  /\ forall code' post',
      (10 <= String.length code' <= 500)%nat ->
      callback (Some code') (Some state) error frontend_url post' pending'
      = (Ok (RedirectTo (frontend_url ++ "?error=invalid_state")), pending').
Proof.
  intros Hlen Herr Hstate Hpending pending'.
  assert (Hq : forall c, (10 <= String.length c <= 500)%nat ->
                         (String.length c <? 10)%nat
                         || (500 <? String.length c)%nat = false).
  { intros c Hc. apply orb_false_iff.
    split; [apply Nat.ltb_ge | apply Nat.ltb_ge]; lia. }
  assert (He : match error with
               | Some e => negb (String.eqb e "")
               | None => false
               end = false).
  { destruct error as [e|]; [|reflexivity]. subst e. reflexivity. }
  assert (Hc : forall c, (10 <= String.length c <= 500)%nat ->
                         String.eqb c "" = false).
  { intros c Hc. destruct c; [simpl in Hc; lia | reflexivity]. }
  assert (Hp : pending' = delete state pending).
  { subst pending'. unfold callback.
    rewrite (Hq _ Hlen), He, (Hc _ Hlen), Hstate, Hpending.
    destruct (exchange_code_for_token code post) as [data|e];
      [reflexivity|]. destruct e; reflexivity. }
  split; [exact Hp|].
  intros code' post' Hlen'. rewrite Hp. unfold callback.
  rewrite (Hq _ Hlen'), He, (Hc _ Hlen'), Hstate, lookup_delete_eq.
  reflexivity.
Qed.

Lemma callback_state_single_use_witness :
  snd (callback (Some "AQDx0123456789") (Some "abcdefghijklmnop") None
                "http://localhost:3000" RequestError
                {[ "abcdefghijklmnop" := 0%Q ]})
  = delete "abcdefghijklmnop" {[ "abcdefghijklmnop" := 0%Q ]}.
Proof.
  apply (callback_state_single_use "AQDx0123456789" "abcdefghijklmnop" None
           "http://localhost:3000" RequestError
           {[ "abcdefghijklmnop" := 0%Q ]} 0%Q).
  - simpl. lia.
  - exact I.
  - reflexivity.
  - reflexivity.
Defined.

(** X26. The callback exchanges no code and keeps the pending states as
    they are when it stops early: with an [error] parameter it redirects to
    [auth_denied] whatever the other parameters are; without a code, to
    [missing_code]; with a state that is malformed or not pending, to
    [invalid_state].  In none of these cases does the provider's answer
    matter. *)
Theorem callback_early_exits
    (code state error : option string) (frontend_url : string)
    (post : http_outcome) (pending : gmap string Q) :
  match code with
  | Some c => (10 <= String.length c <= 500)%nat
  | None => True
  end ->
  let out := callback code state error frontend_url post pending in
  ((exists e, error = Some e /\ e <> EmptyString) ->
   out = (Ok (RedirectTo (frontend_url ++ "?error=auth_denied")), pending))
  /\ (match error with Some e => e = EmptyString | None => True end ->
      code = None ->
      out = (Ok (RedirectTo (frontend_url ++ "?error=missing_code")), pending))
  /\ (match error with Some e => e = EmptyString | None => True end ->
      code <> None ->
      match validate_state_param state with
      | Some s => pending !! s = None
      | None => True
      end ->
      out = (Ok (RedirectTo (frontend_url ++ "?error=invalid_state")), pending)).
Proof.
  intros Hcode out. subst out. unfold callback.
  assert (Hq : match code with
               | Some c => (String.length c <? 10)%nat
                           || (500 <? String.length c)%nat
               | None => false
               end = false).
  { destruct code as [c|]; [|reflexivity]. apply orb_false_iff.
    split; apply Nat.ltb_ge; lia. }
  rewrite Hq. split; [|split].
  - intros (e & -> & Hne).
    assert (He : String.eqb e "" = false).
    { destruct (String.eqb e "") eqn:He; [|reflexivity].
      apply String.eqb_eq in He. congruence. }
    rewrite He. reflexivity.
  - intros Herr ->.
    destruct error as [e|]; [subst e|]; reflexivity.
  - intros Herr Hsome Hstate.
    assert (He : match error with
                 | Some e => negb (String.eqb e "")
                 | None => false
                 end = false).
    { destruct error as [e|]; [|reflexivity]. subst e. reflexivity. }
    rewrite He. destruct code as [c|]; [|congruence].
    assert (Hc : String.eqb c "" = false)
      by (destruct c; [simpl in Hcode; lia | reflexivity]).
    rewrite Hc.
    destruct (validate_state_param state) as [s|]; [|reflexivity].
    rewrite Hstate. reflexivity.
Qed.

Lemma callback_early_exits_witness :
  callback (Some "AQDx0123456789") (Some "abcdefghijklmnop")
           (Some "access_denied") "http://localhost:3000" RequestError
           {[ "abcdefghijklmnop" := 0%Q ]}
  = (Ok (RedirectTo "http://localhost:3000?error=auth_denied"),
     {[ "abcdefghijklmnop" := 0%Q ]}).
Proof.
  destruct (callback_early_exits (Some "AQDx0123456789")
              (Some "abcdefghijklmnop") (Some "access_denied")
              "http://localhost:3000" RequestError
              {[ "abcdefghijklmnop" := 0%Q ]}) as [H _].
  - simpl. lia.
  - apply H. exists "access_denied". split; [reflexivity | discriminate].
Defined.

(** X27. After a login the pending states are the new state, when it is
    not itself older than ten minutes at the sweep, and those of the states
    pending before that are at most ten minutes old; no older state is
    left, and nothing else is added. *)
Theorem login_states_sweep
    (state : string) (now now' : Q) (pending : gmap string Q)
    (s : string) (ts : Q) :
  login_states state now now' pending !! s = Some ts <->
  (~ (ts < now' - 600)%Q)
  /\ (if decide (s = state) then ts = now else pending !! s = Some ts).
Proof.
  unfold login_states. rewrite map_lookup_filter_Some. simpl.
  rewrite lookup_insert.
  assert (Hb : Qlt_bool ts (now' - 600) = false <-> ~ (ts < now' - 600)%Q).
  { split.
    - intros Hf Hlt. apply Qlt_bool_iff in Hlt. congruence.
    - intros Hn. destruct (Qlt_bool ts (now' - 600)) eqn:Hq; [|reflexivity].
      apply Qlt_bool_iff in Hq. contradiction. }
  destruct (decide (state = s)) as [->|Hne].
  - rewrite decide_True by reflexivity. rewrite Hb. split.
    + intros [H1 H2]. injection H1 as <-. auto.
    + intros [H1 ->]. auto.
  - rewrite decide_False by congruence. rewrite Hb. tauto.
Qed.
